(** * usta-action: the task checklist, the retry loop and the progress reporter

    A shallow embedding of the TypeScript sources of the action and the
    properties stated for them:
    - spec/utils.ts: [parseTasks], [getNextTask], [getAllTasks],
      [getTaskById], [markTaskAsCompleted], [getTaskProgress],
      [fuzzyMatchSpec], [getSpecPath];
    - pr-context.ts: [getPRContext];
    - the class [CommentManager] and [createCommentManager], which
      run-usta.ts imports from ./comment-manager;
    - run-usta.ts: the class [TestOutputCapture], the retry loop of
      [runUsta] and its loop over the tasks;
    - output-capture.ts: the class [SimpleOutputCapture];
    - prepare-prompt.ts: [preparePrompt], [createManualTestPrompt],
      [crateTemporaryPromptFile].

    JavaScript strings are sequences of UTF-16 code units; they are
    modelled as [list N].  String literals of the sources are written
    with [u16 "..."]. *)

From Stdlib Require Import List NArith ZArith Lia Bool String Ascii.
From stdpp Require Import base option list gmap strings.
Import ListNotations.

Local Open Scope N_scope.
Local Open Scope list_scope.

(** ** JavaScript strings *)

Module Js.

Abbreviation jsstring := (list N) (only parsing).

(** A literal of the source: one code unit per ASCII character. *)
Definition u16 (s : string) : jsstring :=
  List.map N_of_ascii (list_ascii_of_string s).

Definition jseq (a b : jsstring) : bool := bool_decide (a = b).

(** ECMAScript WhiteSpace and LineTerminator code points: the class
    [\s] of regular expressions and what [String.prototype.trim]
    strips. *)
Definition isLineTerminator (c : N) : bool :=
  (c =? 10) || (c =? 13) || (c =? 0x2028) || (c =? 0x2029).

Definition isSpace (c : N) : bool :=
  (c =? 9) || (c =? 10) || (c =? 11) || (c =? 12) || (c =? 13) ||
  (c =? 32) || (c =? 160) || (c =? 0x1680) ||
  ((0x2000 <=? c) && (c <=? 0x200A)) ||
  (c =? 0x2028) || (c =? 0x2029) || (c =? 0x202F) || (c =? 0x205F) ||
  (c =? 0x3000) || (c =? 0xFEFF).

(** [\d] *)
Definition isDigit (c : N) : bool := (48 <=? c) && (c <=? 57).

(** [.] without the s flag *)
Definition isDot (c : N) : bool := negb (isLineTerminator c).

(** [s.startsWith(p)] *)
Fixpoint startsWith (p s : jsstring) : bool :=
  match p, s with
  | [], _ => true
  | _ :: _, [] => false
  | a :: p', b :: s' => (a =? b) && startsWith p' s'
  end.

(** [s.includes(p)] *)
Fixpoint includes (p s : jsstring) : bool :=
  startsWith p s ||
  match s with
  | [] => false
  | _ :: s' => includes p s'
  end.

(** [s.substring(n)] for [n] within the string. *)
Definition substring (n : nat) (s : jsstring) : jsstring := drop n s.

Fixpoint dropWhile (p : N -> bool) (s : jsstring) : jsstring :=
  match s with
  | [] => []
  | c :: s' => if p c then dropWhile p s' else s
  end.

(** [s.trim()] *)
Definition trim (s : jsstring) : jsstring :=
  rev (dropWhile isSpace (rev (dropWhile isSpace s))).

(** [s.split(sep)] for a separator of one code unit: the pieces
    between the separators, at least one piece. *)
Fixpoint split (sep : N) (s : jsstring) : list jsstring :=
  match s with
  | [] => [[]]
  | c :: s' =>
      if c =? sep then [] :: split sep s'
      else match split sep s' with
           | [] => [[c]]
           | p :: ps => (c :: p) :: ps
           end
  end.

(** [pieces.join(sep)] *)
Fixpoint join (sep : jsstring) (ps : list jsstring) : jsstring :=
  match ps with
  | [] => []
  | [p] => p
  | p :: ps' => p ++ sep ++ join sep ps'
  end.

(** [s.replace(pat, repl)] with a string pattern: the first
    occurrence only. *)
Fixpoint replaceStr (pat repl s : jsstring) : jsstring :=
  if startsWith pat s then repl ++ drop (length pat) s
  else match s with
       | [] => []
       | c :: s' => c :: replaceStr pat repl s'
       end.

(** Truthiness of a string: the empty string is falsy. *)
Definition truthy (s : jsstring) : bool :=
  match s with [] => false | _ => true end.

(** Truthiness of a string that may be [undefined]. *)
Definition truthyOpt (o : option jsstring) : bool :=
  match o with Some s => truthy s | None => false end.

End Js.

Import Js.

(** ** Regular expressions

    The fragment of ECMAScript regular expressions the sources use,
    with the backtracking semantics of the language: quantifiers are
    greedy, alternatives are tried left to right, and the first
    successful path gives the captures.  Quantified atoms are always a
    one-unit class in these sources ([\s*], [\d+], [.+]). *)

Module Re.

Inductive regex : Type :=
| Chr (p : N -> bool)          (* a class, one code unit *)
| Bol                          (* ^ *)
| Eol                          (* $ *)
| Eps
| Cat (r1 r2 : regex)
| Alt (r1 r2 : regex)          (* r1|r2 *)
| Star (p : N -> bool)         (* class*, greedy *)
| Opt (r : regex)              (* r?, greedy *)
| Grp (i : nat) (r : regex).   (* the i-th capturing parentheses *)

Definition Plus (p : N -> bool) : regex := Cat (Chr p) (Star p).

Definition lit1 (c : N) : regex := Chr (N.eqb c).

(** A literal run of characters. *)
Fixpoint lit (s : jsstring) : regex :=
  match s with
  | [] => Eps
  | c :: s' => Cat (lit1 c) (lit s')
  end.

(** The capture array of a match: group number to captured text;
    a group that did not take part is absent ([undefined]). *)
Abbreviation captures := (gmap nat (list N)) (only parsing).

Section Matcher.
Context {A : Type}.

(** The continuation receives: are we still at index 0, the rest of
    the input, the captures. *)
Abbreviation cont := (bool -> jsstring -> captures -> option A) (only parsing).

Fixpoint star (p : N -> bool) (s : jsstring) (caps : captures)
    (bol : bool) (k : cont) : option A :=
  match s with
  | c :: s' =>
      if p c then
        match star p s' caps false k with
        | Some a => Some a
        | None => k bol s caps
        end
      else k bol s caps
  | [] => k bol s caps
  end.

Fixpoint rmatch (r : regex) (bol : bool) (s : jsstring)
    (caps : captures) (k : cont) : option A :=
  match r with
  | Chr p =>
      match s with
      | c :: s' => if p c then k false s' caps else None
      | [] => None
      end
  | Bol => if bol then k bol s caps else None
  | Eol => match s with [] => k bol s caps | _ => None end
  | Eps => k bol s caps
  | Cat r1 r2 =>
      rmatch r1 bol s caps (fun b s' c => rmatch r2 b s' c k)
  | Alt r1 r2 =>
      match rmatch r1 bol s caps k with
      | Some a => Some a
      | None => rmatch r2 bol s caps k
      end
  | Star p => star p s caps bol k
  | Opt r1 =>
      match rmatch r1 bol s caps k with
      | Some a => Some a
      | None => k bol s caps
      end
  | Grp i r1 =>
      rmatch r1 bol s caps
        (fun b s' c => k b s' (<[i := take (length s - length s') s]> c))
  end.
End Matcher.

(** What it means for [r] to match, without the order in which the
    matcher tries the ways to match: from the input [s], at index 0 or
    not ([bol]), with captures [caps], the regex can consume input down
    to [s'] and leave the captures [caps']. *)
Fixpoint matches (r : regex) (bol : bool) (s : jsstring) (caps : captures)
    (bol' : bool) (s' : jsstring) (caps' : captures) : Prop :=
  match r with
  | Chr p =>
      exists c, s = c :: s' /\ p c = true /\ bol' = false /\ caps' = caps
  | Bol => bol = true /\ bol' = bol /\ s' = s /\ caps' = caps
  | Eol => s = [] /\ bol' = bol /\ s' = s /\ caps' = caps
  | Eps => bol' = bol /\ s' = s /\ caps' = caps
  | Cat r1 r2 =>
      exists b1 s1 c1,
        matches r1 bol s caps b1 s1 c1 /\ matches r2 b1 s1 c1 bol' s' caps'
  | Alt r1 r2 =>
      matches r1 bol s caps bol' s' caps' \/ matches r2 bol s caps bol' s' caps'
  | Star p =>
      exists run,
        s = run ++ s' /\ forallb p run = true /\
        bol' = (if run is [] then bol else false) /\ caps' = caps
  | Opt r1 =>
      matches r1 bol s caps bol' s' caps' \/
      (bol' = bol /\ s' = s /\ caps' = caps)
  | Grp i r1 =>
      exists c1,
        matches r1 bol s caps bol' s' c1 /\
        caps' = <[i := take (length s - length s') s]> c1
  end.

(** Result of [RegExp.prototype.exec] on a regex without the g and y
    flags: the index of the leftmost match, the matched text and the
    captures. *)
Record rmatch_result : Type := MatchResult {
  m_index : nat;
  m_text : jsstring;
  m_caps : captures
}.

Definition matchAt (r : regex) (bol : bool) (s : jsstring)
    : option (jsstring * captures) :=
  rmatch r bol s ∅ (fun _ s' c => Some (s', c)).

Fixpoint search (r : regex) (bol : bool) (idx : nat) (s : jsstring)
    : option rmatch_result :=
  match matchAt r bol s with
  | Some (s', c) => Some (MatchResult idx (take (length s - length s') s) c)
  | None =>
      match s with
      | [] => None
      | _ :: s' => search r false (S idx) s'
      end
  end.

(** [s.match(r)] *)
Definition exec (r : regex) (s : jsstring) : option rmatch_result :=
  search r true 0 s.

(** [s.replace(r, repl)] where [repl] has no [$] pattern. *)
Definition replace (r : regex) (repl s : jsstring) : jsstring :=
  match exec r s with
  | None => s
  | Some m =>
      take (m_index m) s ++ repl ++ drop (m_index m + length (m_text m)) s
  end.

End Re.

Import Re.

(** ** Exceptions

    What a [throw] carries: an [Error] with its message, or an error
    of the runtime carrying a [code] property (NodeJS.ErrnoException). *)

Module Exc.

Inductive exn : Type :=
| Error (message : jsstring)
| ErrnoException (code : jsstring).

Inductive result (A : Type) : Type :=
| Ok (a : A)
| Throw (e : exn).
Arguments Ok {A} a.
Arguments Throw {A} e.

End Exc.

Import Exc.

(** ** spec/utils.ts: the checklist document *)

Module Spec.

Record Task : Type := mkTask {
  id : jsstring;
  title : jsstring;
  description : jsstring;
  completed : bool;
  requirements : list jsstring;
  subtasks : list jsstring
}.

Record TaskSection : Type := mkSection {
  sec_title : jsstring;
  tasks : list Task
}.

(** [/^- \[\s*([ x])\s*\] (\d+\. )?(.+)$/] *)
Definition taskLineRe : regex :=
  Cat Bol (Cat (lit (u16 "- ["))
    (Cat (Star isSpace)
      (Cat (Grp 1 (Chr (fun c => (c =? 32) || (c =? 120))))
        (Cat (Star isSpace)
          (Cat (lit (u16 "] "))
            (Cat (Opt (Grp 2 (Cat (Plus isDigit) (lit (u16 ". ")))))
              (Cat (Grp 3 (Plus isDot)) Eol))))))).

(** [/^  /] *)
Definition indentRe : regex := Cat Bol (lit (u16 "  ")).

(** [/^_Requirements:\s*/] *)
Definition reqPrefixRe : regex :=
  Cat Bol (Cat (lit (u16 "_Requirements:")) (Star isSpace)).

(** [/_$/] *)
Definition underscoreEndRe : regex := Cat (lit (u16 "_")) Eol.

(** The three variables of the loop of [parseTasks].  [currentSection]
    is a reference to the object last pushed onto [sections], and tasks
    are pushed through that reference: the object it points to is kept
    in the field [currentSection], the sections pushed before it in
    [closed], and the array [sections] of the source is
    [closed ++ currentSection]. *)
Record pstate : Type := mkPState {
  closed : list TaskSection;
  currentSection : option TaskSection;
  currentTask : option Task
}.

Definition sectionsOf (st : pstate) : list TaskSection :=
  closed st ++ option_list (currentSection st).

(** [currentSection?.tasks.push(t)] *)
Definition pushTask (sec : option TaskSection) (t : Task)
    : option TaskSection :=
  match sec with
  | Some s => Some (mkSection (sec_title s) (tasks s ++ [t]))
  | None => None
  end.

(** [if (currentTask) currentSection?.tasks.push(currentTask)] *)
Definition flushTask (st : pstate) : option TaskSection :=
  match currentTask st with
  | Some t => pushTask (currentSection st) t
  | None => currentSection st
  end.

(** The task object built from the captures of a task line. *)
Definition newTask (completedCap : jsstring) (numberPrefix : option jsstring)
    (titleText : jsstring) : Task :=
  let np := match numberPrefix with Some p => p | None => [] end in
  let taskId :=
    if truthy np then trim (replaceStr (u16 ".") [] np)
    else
      let w := hd [] (split 32 titleText) in
      if truthy w then w else titleText in
  let fullTitle := if truthy np then np ++ titleText else titleText in
  mkTask taskId (trim fullTitle) [] (jseq completedCap (u16 "x")) [] [].

(** The string of one line feed. *)
Definition newline : jsstring := u16 (String "010" EmptyString).

(** The body of [if (currentTask && line.match(/^  /))]. *)
Definition continuation (t : Task) (line : jsstring) : Task :=
  let trimmedLine := trim line in
  if startsWith (u16 "_Requirements:") trimmedLine then
    let reqText :=
      replace underscoreEndRe [] (replace reqPrefixRe [] trimmedLine) in
    mkTask (id t) (title t) (description t) (completed t)
      (List.map trim (split 44 reqText)) (subtasks t)
  else if startsWith (u16 "- ") trimmedLine
          && negb (startsWith (u16 "- _") trimmedLine) then
    mkTask (id t) (title t) (description t) (completed t)
      (requirements t) (subtasks t ++ [substring 2 trimmedLine])
  else if negb (Nat.eqb (length trimmedLine) 0) then
    mkTask (id t) (title t)
      (if truthy (description t)
       then description t ++ newline ++ trimmedLine
       else trimmedLine)
      (completed t) (requirements t) (subtasks t)
  else t.

(** [line.startsWith("## ")] *)
Definition isHeading (line : jsstring) : bool := startsWith (u16 "## ") line.

(** One iteration of [for (const line of lines)].  When [titleText] is
    falsy the source keeps the task it has just pushed as [currentTask];
    the group [(.+)] never captures the empty string, so this does not
    happen (lemma [taskLine_title] below). *)
Definition parseLine (st : pstate) (line : jsstring) : pstate :=
  if isHeading line then
    mkPState
      (closed st ++ option_list (flushTask st))
      (Some (mkSection (trim (substring 3 line)) []))
      None
  else
    match exec taskLineRe line with
    | Some m =>
        let sec := flushTask st in
        match m_caps m !! 3%nat with
        | Some titleText =>
            if truthy titleText then
              mkPState (closed st) sec
                (Some (newTask (default [] (m_caps m !! 1%nat))
                               (m_caps m !! 2%nat) titleText))
            else mkPState (closed st) sec (currentTask st)
        | None => mkPState (closed st) sec (currentTask st)
        end
    | None =>
        match currentTask st with
        | Some t =>
            match exec indentRe line with
            | Some _ => mkPState (closed st) (currentSection st)
                          (Some (continuation t line))
            | None => st
            end
        | None => st
        end
    end.

Definition parseLines (st : pstate) (lines : list jsstring) : pstate :=
  fold_left parseLine lines st.

(** After the loop: [if (currentTask && currentSection)
    currentSection.tasks.push(currentTask)], then [return sections]. *)
Definition finish (st : pstate) : list TaskSection :=
  match currentTask st, currentSection st with
  | Some t, Some s => closed st ++ [mkSection (sec_title s) (tasks s ++ [t])]
  | _, _ => sectionsOf st
  end.

(** [parseTasks] once the file is read and split into lines. *)
Definition parseDoc (lines : list jsstring) : list TaskSection :=
  finish (parseLines (mkPState [] None None) lines).

(** [parseTasks], on the content of tasks.md. *)
Definition parseTasks (content : jsstring) : list TaskSection :=
  parseDoc (split 10 content).

(** [getAllTasks] *)
Definition getAllTasks (content : jsstring) : list Task :=
  List.concat (List.map tasks (parseTasks content)).

(** [getNextTask]: the two nested loops return the first task of the
    flattened order that is not completed. *)
Definition getNextTask (content : jsstring) : option Task :=
  List.find (fun t => negb (completed t)) (getAllTasks content).

(** [getTaskById] *)
Definition getTaskById (content taskId : jsstring) : option Task :=
  List.find (fun t => jseq (id t) taskId) (getAllTasks content).

(** [getIncompleteTasks] *)
Definition getIncompleteTasks (content : jsstring) : list Task :=
  List.filter (fun t => negb (completed t)) (getAllTasks content).

(** [/^- \[\s*\s*\] (.+)$/] *)
Definition uncheckedRe : regex :=
  Cat Bol (Cat (lit (u16 "- ["))
    (Cat (Star isSpace) (Cat (Star isSpace)
      (Cat (lit (u16 "] ")) (Cat (Grp 1 (Plus isDot)) Eol))))).

(** [/^(\d+)\./] *)
Definition idRe : regex :=
  Cat Bol (Cat (Grp 1 (Plus isDigit)) (lit (u16 "."))).

(** [/- \[\s*\s*\]/] *)
Definition boxRe : regex :=
  Cat (lit (u16 "- [")) (Cat (Star isSpace) (Cat (Star isSpace) (lit (u16 "]")))).

(** [idMatch ? idMatch[1] : taskTitle.split(' ')[0]] *)
Definition taskIdFromTitle (taskTitle : jsstring) : jsstring :=
  match exec idRe taskTitle with
  | Some im => default [] (m_caps im !! 1%nat)
  | None => hd [] (split 32 taskTitle)
  end.

(** The test made on line [i] by the loop of [markTaskAsCompleted]:
    the line is not empty, it is an unchecked checkbox line, and its
    derived id equals [taskId] or its title contains [taskId]. *)
Definition lineMatches (taskId line : jsstring) : bool :=
  if truthy line then
    match exec uncheckedRe line with
    | Some m =>
        match m_caps m !! 1%nat with
        | Some taskTitle =>
            if truthy taskTitle then
              jseq (taskIdFromTitle taskTitle) taskId
              || includes taskId taskTitle
            else false
        | None => false
        end
    | None => false
    end
  else false.

(** [for (let i = 0; i < lines.length; i++)] with its [break]:
    [rest] is [lines] from index [i] on.  The result is the array after
    the assignment to [lines[i]], or [None] when [modified] stays false. *)
Fixpoint markLoop (taskId : jsstring) (rest : list jsstring) (i : nat)
    (lines : list jsstring) : option (list jsstring) :=
  match rest with
  | [] => None
  | line :: rest' =>
      if lineMatches taskId line
      then Some (<[i := replace boxRe (u16 "- [x]") line]> lines)
      else markLoop taskId rest' (S i) lines
  end.

(** The file tasks.md as [markTaskAsCompleted] sees it: what it holds
    and how many times it was written. *)
Record tasksFile : Type := mkFile {
  content : jsstring;
  writes : nat
}.

(** [markTaskAsCompleted] *)
Definition markTaskAsCompleted (f : tasksFile) (taskId : jsstring)
    : result unit * tasksFile :=
  let lines := split 10 (content f) in
  match markLoop taskId lines 0 lines with
  | None =>
      (Throw (Error (u16 "Task with ID '" ++ taskId
                     ++ u16 "' not found or already completed")), f)
  | Some lines' => (Ok tt, mkFile (join newline lines') (S (writes f)))
  end.

End Spec.

(** ** IEEE 754 binary64 arithmetic

    JavaScript numbers are binary64 floating-point numbers.  The
    operations [getTaskProgress] applies to them are modelled on the
    non-negative finite numbers, exactly: a number is a mantissa and an
    exponent, every operation rounds its exact rational result to the
    nearest representable number, ties to the even mantissa.  The
    exponent range is not bounded; the quotients and products below
    stay far inside it (array lengths are below 2^32). *)

Module Float64.

Local Open Scope Z_scope.

(** The number [mant * 2^expo]. *)
Record f64 : Type := F64 { mant : Z; expo : Z }.

Definition zero : f64 := F64 0 0.

(** Numerator and denominator of the value of a number. *)
Definition num (x : f64) : Z := mant x * 2 ^ Z.max (expo x) 0.
Definition den (x : f64) : Z := 2 ^ Z.max (- expo x) 0.

(** [n / (d * 2^e)] as a numerator and a denominator. *)
Definition scaled (n d e : Z) : Z * Z :=
  if 0 <=? e then (n, d * 2 ^ e) else (n * 2 ^ (- e), d).

(** The exponent [e] for which [n / (d * 2^e)] has 53 bits before the
    point. *)
Definition exponent (n d : Z) : Z :=
  let k := Z.log2 n - Z.log2 d in
  let '(a, b) := scaled n d (k - 52) in
  if 2 ^ 52 <=? a / b then k - 52 else k - 53.

(** The integer nearest to [a / b], ties to even. *)
Definition nearest (a b : Z) : Z :=
  let q := a / b in
  let r := a mod b in
  if 2 * r <? b then q
  else if b <? 2 * r then q + 1
  else if Z.even q then q else q + 1.

(** The representable number nearest to [n / d], for [0 <= n] and
    [0 < d]: a mantissa of 53 bits, ties to even. *)
Definition round_nearest_even (n d : Z) : f64 :=
  if n =? 0 then zero
  else
    let e := exponent n d in
    let '(a, b) := scaled n d e in
    F64 (nearest a b) e.

(** An integer as a number (exact below 2^53). *)
Definition of_Z (z : Z) : f64 := round_nearest_even z 1.

(** [x / y] for [y] different from zero *)
Definition div (x y : f64) : f64 :=
  round_nearest_even (num x * den y) (den x * num y).

(** [x * y] *)
Definition mul (x y : f64) : f64 :=
  round_nearest_even (num x * num y) (den x * den y).

(** [Math.round(x)]: the integer nearest to [x], ties towards
    +infinity, computed exactly. *)
Definition Math_round (x : f64) : Z :=
  (2 * num x + den x) / (2 * den x).

End Float64.

Module Progress.
Import Spec.

Record progress : Type := mkProgress {
  p_completed : nat;
  p_total : nat;
  p_percentage : Z
}.

(** [getTaskProgress] *)
Definition getTaskProgress (content : jsstring) : progress :=
  let tasks := getAllTasks content in
  let completed := length (List.filter Spec.completed tasks) in
  let total := length tasks in
  let percentage :=
    if (0 <? total)%nat then
      Float64.Math_round
        (Float64.mul
           (Float64.div (Float64.of_Z (Z.of_nat completed))
                        (Float64.of_Z (Z.of_nat total)))
           (Float64.of_Z 100))
    else 0%Z in
  mkProgress completed total percentage.

End Progress.


(** ** spec/utils.ts: resolution of the spec directory *)

Module Resolve.

(** Built-ins of the runtime the resolution calls and whose
    definitions are not part of the sources: [String.prototype.toLowerCase],
    the functions of Node's [path] module and [process.cwd()]. *)
Record Platform : Type := mkPlatform {
  toLowerCase : jsstring -> jsstring;
  path_join : jsstring -> jsstring -> jsstring;
  path_isAbsolute : jsstring -> bool;
  path_resolve : jsstring -> jsstring -> jsstring;
  path_dirname : jsstring -> jsstring;
  path_basename : jsstring -> jsstring;
  cwd : jsstring
}.

Record Stats : Type := mkStats {
  isFile : bool;
  isDirectory : bool
}.

(** The file system as [fs.readdir] and [fs.stat] show it. *)
Record FileSystem : Type := mkFS {
  readdir : jsstring -> result (list jsstring);
  stat : jsstring -> result Stats
}.

Definition ENOENT : jsstring := u16 "ENOENT".

(** The body of the [try] of [fuzzyMatchSpec]. *)
Definition fuzzyMatchBody (pf : Platform) (fs : FileSystem)
    (searchTerm specsDir : jsstring) : result (option jsstring) :=
  match readdir fs specsDir with
  | Throw e => Throw e
  | Ok entries =>
      let lowerSearchTerm := toLowerCase pf searchTerm in
      let directories :=
        List.filter
          (fun entry =>
             match stat fs (path_join pf specsDir entry) with
             | Ok st => isDirectory st
             | Throw _ => false
             end) entries in
      let exactMatch := List.find (fun dir => jseq dir searchTerm) directories in
      if truthyOpt exactMatch
      then Ok (Some (path_join pf specsDir (default [] exactMatch)))
      else
        let caseInsensitiveMatch :=
          List.find (fun dir => jseq (toLowerCase pf dir) lowerSearchTerm)
                    directories in
        if truthyOpt caseInsensitiveMatch
        then Ok (Some (path_join pf specsDir (default [] caseInsensitiveMatch)))
        else
          let fuzzyMatches :=
            List.filter
              (fun dir =>
                 includes lowerSearchTerm (toLowerCase pf dir)
                 || includes (toLowerCase pf dir) lowerSearchTerm)
              directories in
          match fuzzyMatches with
          | [m] =>
              if truthy m then Ok (Some (path_join pf specsDir m))
              else Ok None
          | [] => Ok None
          | _ :: _ :: _ =>
              Throw (Error (u16 "Multiple specs found matching '" ++ searchTerm
                            ++ u16 "': " ++ join (u16 ", ") fuzzyMatches))
          end
  end.

(** [fuzzyMatchSpec]: the [catch] turns ENOENT into [null] and throws
    everything else again. *)
Definition fuzzyMatchSpec (pf : Platform) (fs : FileSystem)
    (searchTerm specsDir : jsstring) : result (option jsstring) :=
  match fuzzyMatchBody pf fs searchTerm specsDir with
  | Throw (ErrnoException code) =>
      if jseq code ENOENT then Ok None else Throw (ErrnoException code)
  | r => r
  end.

(** Letters of a pattern under the i flag: each matches itself and its
    capital (without the u flag no other code unit is equivalent to an
    ASCII letter). *)
Fixpoint ilit (s : jsstring) : regex :=
  match s with
  | [] => Eps
  | c :: s' => Cat (Chr (fun x => (x =? c) || (x =? c - 32))) (ilit s')
  end.

(** [/\.(md|txt|yaml|yml|json)$/i] *)
Definition extRe : regex :=
  Cat (lit (u16 "."))
    (Cat (Grp 1 (Alt (ilit (u16 "md")) (Alt (ilit (u16 "txt"))
            (Alt (ilit (u16 "yaml")) (Alt (ilit (u16 "yml")) (ilit (u16 "json")))))))
         Eol).

Definition specsRoot (pf : Platform) : jsstring :=
  path_join pf (path_join pf (cwd pf) (u16 ".usta")) (u16 "specs").

(** First strategy of [getSpecPath]: an absolute path that exists. *)
Definition absoluteStrategy (pf : Platform) (fs : FileSystem)
    (specName : jsstring) : option jsstring :=
  if path_isAbsolute pf specName then
    match stat fs specName with
    | Ok stats =>
        if isFile stats then
          let dir := path_dirname pf specName in
          match stat fs dir with
          | Ok dirStats => if isDirectory dirStats then Some dir else None
          | Throw _ => None
          end
        else if isDirectory stats then Some specName
        else None
    | Throw _ => None
    end
  else None.

(** Second strategy: a path relative to the working directory. *)
Definition relativeStrategy (pf : Platform) (fs : FileSystem)
    (specName : jsstring) : option jsstring :=
  if includes (u16 "/") specName || includes (u16 "\") specName then
    let relativePath := path_resolve pf (cwd pf) specName in
    match stat fs relativePath with
    | Ok stats =>
        if isDirectory stats then Some relativePath
        else if isFile stats then Some (path_dirname pf relativePath)
        else None
    | Throw _ => None
    end
  else None.

Definition notFound (specName : jsstring) : exn :=
  Error (u16 "Spec not found: " ++ specName
         ++ u16 ". Searched in standard location and current directory.").

(** [getSpecPath] *)
Definition getSpecPath (pf : Platform) (fs : FileSystem)
    (specName : option jsstring) : result jsstring :=
  match specName with
  | None => Throw (Error (u16 "spec_name input is required"))
  | Some specName =>
      if negb (truthy specName)
      then Throw (Error (u16 "spec_name input is required"))
      else
        match absoluteStrategy pf fs specName with
        | Some p => Ok p
        | None =>
            match relativeStrategy pf fs specName with
            | Some p => Ok p
            | None =>
                let cleanSpecName := replace extRe [] specName in
                let baseName := path_basename pf cleanSpecName in
                match fuzzyMatchSpec pf fs baseName (specsRoot pf) with
                | Throw e => Throw e
                | Ok fuzzyMatch =>
                    if truthyOpt fuzzyMatch then Ok (default [] fuzzyMatch)
                    else Throw (notFound specName)
                end
            end
        end
  end.

(** A platform to run examples on: POSIX paths without [.] or [..]
    segments and names made of ASCII characters. *)
Definition asciiLower (c : N) : N :=
  if (65 <=? c) && (c <=? 90) then c + 32 else c.

Definition lastSegment (p : jsstring) : jsstring :=
  List.last (split 47 p) [].

Definition parentOf (p : jsstring) : jsstring :=
  join (u16 "/") (List.removelast (split 47 p)).

Definition posix (workdir : jsstring) : Platform :=
  mkPlatform (List.map asciiLower)
    (fun a b => a ++ u16 "/" ++ b)
    (startsWith (u16 "/"))
    (fun a b => if startsWith (u16 "/") b then b else a ++ u16 "/" ++ b)
    parentOf lastSegment workdir.

End Resolve.

(** ** pr-context.ts *)

Module PRCtx.

Local Open Scope Z_scope.

Record PRContext : Type := mkPRContext {
  number : Z;
  branch : jsstring;
  commentId : option jsstring;
  isEnabled : bool
}.

(** [process.env]: a variable is a string or is not set. *)
Abbreviation environment := (gmap string (list N)) (only parsing).

Fixpoint digitsValue (acc : Z) (s : jsstring) : Z :=
  match s with
  | c :: s' =>
      if isDigit c then digitsValue (10 * acc + (Z.of_N c - 48)) s' else acc
  | [] => acc
  end.

(** [parseInt(s, 10)]: leading white space is skipped, then a sign and
    the longest run of decimal digits are read; [None] is NaN.  The
    result is the integer the digits denote (the Number of the language
    is the binary64 nearest to it, and -0 for "-0"). *)
Definition parseInt (s : jsstring) : option Z :=
  let s1 := dropWhile isSpace s in
  let '(sign, s2) :=
    match s1 with
    | 43%N :: r => (1, r)
    | 45%N :: r => (-1, r)
    | _ => (1, s1)
    end in
  match s2 with
  | c :: _ => if isDigit c then Some (sign * digitsValue 0 s2) else None
  | [] => None
  end.

(** [x || d] on an environment variable *)
Definition orElse (o : option jsstring) (d : jsstring) : jsstring :=
  match o with
  | Some s => if truthy s then s else d
  | None => d
  end.

Inductive console : Type :=
| Warn (line : jsstring).

Definition missingContext : jsstring :=
  u16 "PR mode enabled but missing PR context".

Definition disabled : PRContext := mkPRContext 0 [] None false.

(** [getPRContext]: the context and what it printed. *)
Definition getPRContext (env : environment) : PRContext * list console :=
  let isPRMode :=
    match env !! "USTA_PR_MODE"%string with
    | Some v => jseq v (u16 "true")
    | None => false
    end in
  if negb isPRMode then (disabled, [])
  else
    let prNumber := parseInt (orElse (env !! "USTA_PR_NUMBER"%string) (u16 "0")) in
    let prBranch := orElse (env !! "USTA_PR_BRANCH"%string) [] in
    let commentId := env !! "USTA_COMMENT_ID"%string in
    match prNumber with
    | Some n =>
        if (n =? 0) || negb (truthy prBranch)
        then (disabled, [Warn missingContext])
        else (mkPRContext n prBranch commentId true, [])
    | None => (disabled, [Warn missingContext])
    end.

End PRCtx.

(** ** The class CommentManager: the progress reporter *)

Module Reporter.
Import PRCtx.

Inductive Status : Type := pending | working | testing | completed | failed.

Inductive Overall : Type := running | allCompleted | runFailed.

(** A [Date] is its time value. *)
Record TaskProgress : Type := mkTaskProgress {
  taskId : jsstring;
  title : jsstring;
  status : Status;
  startTime : option N;
  endTime : option N;
  attempt : nat;
  completedOnAttempt : option nat
}.

Record CommentState : Type := mkCommentState {
  specName : jsstring;
  tasks : list TaskProgress;
  overallStatus : Overall;
  runStart : N;
  runEnd : option N
}.

Record CommentManager : Type := mkManager {
  context : PRContext;
  state : CommentState
}.

Definition status_eqb (a b : Status) : bool :=
  match a, b with
  | pending, pending | working, working | testing, testing
  | completed, completed | failed, failed => true
  | _, _ => false
  end.

Definition orNow (t : option N) (now : N) : option N :=
  match t with Some _ => t | None => Some now end.

(** The assignments [updateTaskStatus] makes to the task it found;
    [now] is the time [new Date()] reads. *)
Definition transition (now : N) (st : Status) (att : option nat)
    (task : TaskProgress) : TaskProgress :=
  let attempt' := match att with Some a => a | None => attempt task end in
  match st with
  | working =>
      mkTaskProgress (taskId task) (title task) st
        (orNow (startTime task) now) (endTime task) attempt'
        (completedOnAttempt task)
  | completed =>
      mkTaskProgress (taskId task) (title task) st
        (startTime task) (orNow (endTime task) now) attempt'
        (Some (if Nat.eqb attempt' 0 then 1%nat else attempt'))
  | failed =>
      mkTaskProgress (taskId task) (title task) st
        (startTime task) (orNow (endTime task) now) attempt'
        (completedOnAttempt task)
  | _ =>
      mkTaskProgress (taskId task) (title task) st
        (startTime task) (endTime task) attempt' (completedOnAttempt task)
  end.

(** [tasks.find(t => t.taskId === taskId)] followed by assignments to
    the object found: the first task with that id is changed in place. *)
Fixpoint updateFound (taskIdArg : jsstring) (f : TaskProgress -> TaskProgress)
    (l : list TaskProgress) : list TaskProgress :=
  match l with
  | [] => []
  | t :: l' =>
      if jseq (taskId t) taskIdArg then f t :: l'
      else t :: updateFound taskIdArg f l'
  end.

Definition withState (m : CommentManager) (s : CommentState) : CommentManager :=
  mkManager (context m) s.

(** [updateTaskStatus] *)
Definition updateTaskStatus (now : N) (taskIdArg : jsstring) (st : Status)
    (att : option nat) (m : CommentManager) : CommentManager :=
  let s := state m in
  withState m
    (mkCommentState (specName s)
       (updateFound taskIdArg (transition now st att) (tasks s))
       (overallStatus s) (runStart s) (runEnd s)).

(** [setOverallStatus] *)
Definition setOverallStatus (now : N) (o : Overall) (m : CommentManager)
    : CommentManager :=
  let s := state m in
  withState m
    (mkCommentState (specName s) (tasks s) o (runStart s)
       (match o with
        | running => runEnd s
        | _ => orNow (runEnd s) now
        end)).

(** How the [curl] process spawned by [callGitHubAPI] ends: it closes
    with an exit code, or it emits [error]. *)
Inductive CurlOutcome : Type :=
| CurlClose (code : Z) (stdout stderr : jsstring)
| CurlError (e : exn).

Inductive event : Type :=
| ApiRequest (method endpoint body : jsstring)   (* curl was spawned *)
| LogUpdated                                     (* console.log of updateComment *)
| LogUpdateFailed (e : exn).                     (* console.error of updateComment *)

(** What the reporter reads besides its own state: [process.env], the
    outcome of the request it may send, and [generateCommentBody].  The
    body is built with template literals, [filter], [reduce] and
    arithmetic on the state, [Date.now()] and [process.env]; it has no
    [throw] and calls nothing that throws, and its text is not looked
    at here. *)
Record Host : Type := mkHost {
  env : environment;
  generateCommentBody : CommentState -> jsstring
}.

(** [callGitHubAPI] *)
Definition callGitHubAPI (h : Host) (curl : CurlOutcome)
    (method endpoint data : jsstring) : result jsstring * list event :=
  if truthy (orElse (env h !! "GITHUB_TOKEN"%string) []) then
    match curl with
    | CurlClose code stdout stderr =>
        if (code =? 0)%Z then (Ok stdout, [ApiRequest method endpoint data])
        else (Throw (Error (u16 "GitHub API call failed: " ++ stderr)),
              [ApiRequest method endpoint data])
    | CurlError e => (Throw e, [ApiRequest method endpoint data])
    end
  else (Throw (Error (u16 "GITHUB_TOKEN not available")), []).

Definition commentEndpoint (h : Host) (cid : jsstring) : jsstring :=
  u16 "/repos/" ++ default (u16 "undefined") (env h !! "GITHUB_REPOSITORY"%string)
  ++ u16 "/issues/comments/" ++ cid.

(** [updateComment] *)
Definition updateComment (h : Host) (curl : CurlOutcome) (m : CommentManager)
    : result unit * list event :=
  if negb (isEnabled (context m)) || negb (truthyOpt (commentId (context m)))
  then (Ok tt, [])
  else
    let commentBody := generateCommentBody h (state m) in
    match callGitHubAPI h curl (u16 "PATCH")
            (commentEndpoint h (default [] (commentId (context m))))
            commentBody with
    | (Ok _, evs) => (Ok tt, evs ++ [LogUpdated])
    | (Throw e, evs) => (Ok tt, evs ++ [LogUpdateFailed e])
    end.

(** The progress entries [createCommentManager] builds and the
    constructor of [CommentManager]; [now] is the time the constructor
    reads. *)
Definition newManager (now : N) (ctx : PRContext)
    (name : jsstring) (allTasks : list Spec.Task) : CommentManager :=
  mkManager ctx
    (mkCommentState name
       (List.map
          (fun t =>
             mkTaskProgress (Spec.id t) (Spec.title t)
               (if Spec.completed t then completed else pending)
               None None 1
               (if Spec.completed t then Some 1%nat else None))
          allTasks)
       running now None).

(** [createCommentManager]: the manager, and what the first
    [updateComment] did when the context is enabled. *)
Definition createCommentManager (h : Host) (curl : CurlOutcome) (now : N)
    (ctx : PRContext) (name : jsstring) (allTasks : list Spec.Task)
    : CommentManager * list event :=
  let manager := newManager now ctx name allTasks in
  (manager,
   if isEnabled ctx then snd (updateComment h curl manager) else []).

End Reporter.

(** ** run-usta.ts: the retry loop *)

Module Orchestrator.
Import PRCtx Reporter.

(** [__TEST_SUCCESS_PHARESE] of prepare-prompt.ts *)
Definition __TEST_SUCCESS_PHARESE : jsstring := u16 "__TASK_TEST_COMPLETED__".

(** [class TestOutputCapture] *)
Record TestOutputCapture : Type := mkCapture { output : jsstring }.

Definition write (data : jsstring) (c : TestOutputCapture) : TestOutputCapture :=
  mkCapture (output c ++ data).

Definition containsTestSuccess (c : TestOutputCapture) : bool :=
  includes __TEST_SUCCESS_PHARESE (output c).

Definition clear (c : TestOutputCapture) : TestOutputCapture := mkCapture [].

(** What the collaborators of the loop do in one run, call site by call
    site; the sites inside the retry loop are indexed by the value of
    [tries] at the call.  [runClaudeTest] gives the pieces of output the
    agent hands to the capture and how the run ends; [curl] and [date]
    are indexed by the number of earlier calls. *)
Record Script : Type := mkScript {
  commitBefore : result unit;
  preparePrompt : nat -> result unit;
  runClaudeWork : nat -> result unit;
  createManualTestPrompt : nat -> result unit;
  runClaudeTest : nat -> list jsstring * result unit;
  commitComplete : nat -> result unit;
  rollbackAfterTest : nat -> result unit;
  rollbackAfterError : nat -> result unit;
  curl : nat -> CurlOutcome;
  date : nat -> N
}.

Inductive action : Type :=
| Attempt (tries : nat)                        (* console.log of "Attempt n/3" *)
| Rollback                                     (* gitRollback() *)
| CommitAndPush (message branchName : jsstring) (* gitCommitAndPush(...) *)
| Report (e : event)                           (* what updateComment did *)
| SetFailed (e : exn).                         (* core.setFailed(...) *)

Record World : Type := mkWorld {
  manager : CommentManager;
  publishes : nat;     (* calls of updateComment so far *)
  reads : nat;         (* readings of the clock so far *)
  trace : list action
}.

(** How a computation ends: normally, with an exception on its way
    up, with [process.exit(code)], or not within the bound on the
    number of loop iterations. *)
Inductive outcome (A : Type) : Type :=
| Done (a : A)
| Raise (e : exn)
| Exit (code : Z)
| OutOfFuel.
Arguments Done {A} a.
Arguments Raise {A} e.
Arguments Exit {A} code.
Arguments OutOfFuel {A}.

Definition M (A : Type) : Type := World -> outcome A * World.

Definition ret {A : Type} (a : A) : M A := fun w => (Done a, w).

Definition bind {A B : Type} (m : M A) (k : A -> M B) : M B :=
  fun w =>
    match m w with
    | (Done a, w') => k a w'
    | (Raise e, w') => (Raise e, w')
    | (Exit c, w') => (Exit c, w')
    | (OutOfFuel, w') => (OutOfFuel, w')
    end.

Notation "'let!' x ':=' m 'in' k" := (bind m (fun x => k))
  (at level 10, x name, m at level 100, k at level 200).
Notation "m ;;; k" := (bind m (fun _ => k))
  (at level 100, k at level 200, right associativity).

(** [try { body } catch (error) { handler }] *)
Definition tryCatch {A : Type} (body : M A) (handler : exn -> M A) : M A :=
  fun w =>
    match body w with
    | (Raise e, w') => handler e w'
    | r => r
    end.

(** [await] of a collaborator whose outcome the script gives. *)
Definition await (r : result unit) : M unit :=
  fun w => match r with Ok _ => (Done tt, w) | Throw e => (Raise e, w) end.

(** The world after one more line of the trace. *)
Definition logged (a : action) (w : World) : World :=
  mkWorld (manager w) (publishes w) (reads w) (trace w ++ [a]).

Definition tell (a : action) : M unit := fun w => (Done tt, logged a w).

Definition exit {A : Type} (code : Z) : M A := fun w => (Exit code, w).

(** The world after [commentManager.updateTaskStatus(...)]; the clock
    is read once. *)
Definition withStatus (s : Script) (tid : jsstring) (st : Status)
    (att : option nat) (w : World) : World :=
  mkWorld (updateTaskStatus (date s (reads w)) tid st att (manager w))
    (publishes w) (S (reads w)) (trace w).

Definition setStatus (s : Script) (tid : jsstring) (st : Status)
    (att : option nat) : M unit :=
  fun w => (Done tt, withStatus s tid st att w).

(** The world after [commentManager.setOverallStatus(...)]. *)
Definition withOverall (s : Script) (o : Overall) (w : World) : World :=
  mkWorld (setOverallStatus (date s (reads w)) o (manager w))
    (publishes w) (S (reads w)) (trace w).

Definition setOverall (s : Script) (o : Overall) : M unit :=
  fun w => (Done tt, withOverall s o w).

(** The world after [await commentManager.updateComment()]. *)
Definition published (h : Host) (s : Script) (w : World) : World :=
  mkWorld (manager w) (S (publishes w)) (reads w)
    (trace w
     ++ List.map Report
          (snd (updateComment h (curl s (publishes w)) (manager w)))).

Definition publish (h : Host) (s : Script) : M unit :=
  fun w =>
    match fst (updateComment h (curl s (publishes w)) (manager w)) with
    | Ok _ => (Done tt, published h s w)
    | Throw e => (Raise e, published h s w)
    end.

(** [await gitRollback()] *)
Definition gitRollback (r : result unit) : M unit :=
  tell Rollback ;;; await r.

(** [await gitCommitAndPush(message, prContext.branch)] *)
Definition gitCommitAndPush (message : jsstring) (r : result unit) : M unit :=
  fun w =>
    (tell (CommitAndPush message (branch (context (manager w)))) ;;; await r) w.

(** The capture after the verification run: created, cleared, then
    written to by the run. *)
Definition captured (chunks : list jsstring) : TestOutputCapture :=
  fold_left (fun c d => write d c) chunks (clear (mkCapture [])).

(** The [try] block of one attempt; its value is [taskCompleted]. *)
Definition attemptBody (h : Host) (s : Script) (task : Spec.Task)
    (tries : nat) : M bool :=
  await (preparePrompt s tries) ;;;
  await (runClaudeWork s tries) ;;;
  setStatus s (Spec.id task) testing None ;;;
  publish h s ;;;
  await (createManualTestPrompt s tries) ;;;
  let testCapture := captured (fst (runClaudeTest s tries)) in
  await (snd (runClaudeTest s tries)) ;;;
  let hasTestSuccess := containsTestSuccess testCapture in
  if hasTestSuccess then
    gitCommitAndPush (u16 "Complete task: " ++ Spec.title task)
      (commitComplete s tries) ;;;
    setStatus s (Spec.id task) completed None ;;;
    publish h s ;;;
    ret true
  else
    gitRollback (rollbackAfterTest s tries) ;;;
    ret false.

(** The [catch] block of one attempt. *)
Definition attemptHandler (s : Script) (tries : nat) (e : exn) : M bool :=
  gitRollback (rollbackAfterError s tries) ;;;
  ret false.

(** [while (tries < 3 && !taskCompleted)]; the value is the pair of
    [tries] and [taskCompleted] when the loop is left. *)
Fixpoint retryLoop (fuel : nat) (h : Host) (s : Script) (task : Spec.Task)
    (tries : nat) (taskCompleted : bool) : M (nat * bool) :=
  match fuel with
  | O => fun w => (OutOfFuel, w)
  | S fuel' =>
      if (tries <? 3)%nat && negb taskCompleted then
        let tries := S tries in
        tell (Attempt tries) ;;;
        setStatus s (Spec.id task) working (Some tries) ;;;
        publish h s ;;;
        let! done := tryCatch (attemptBody h s task tries)
                              (attemptHandler s tries) in
        retryLoop fuel' h s task tries done
      else ret (tries, taskCompleted)
  end.

(** [if (!taskCompleted) { ... process.exit(1) }] *)
Definition settle (h : Host) (s : Script) (task : Spec.Task)
    (taskCompleted : bool) : M unit :=
  if negb taskCompleted then
    setStatus s (Spec.id task) failed None ;;;
    setOverall s runFailed ;;;
    publish h s ;;;
    exit 1
  else ret tt.

(** From [let tries = 0] to the end of [if (!taskCompleted)]: the
    retry loop of one task and what follows it. *)
Definition attempts (fuel : nat) (h : Host) (s : Script) (task : Spec.Task)
    : M unit :=
  let! r := retryLoop fuel h s task 0 false in
  settle h s task (snd r).

(** The body of [while (task != null)] up to the call of
    [markTaskAsCompleted]. *)
Definition runTask (fuel : nat) (h : Host) (s : Script) (task : Spec.Task)
    : M unit :=
  setStatus s (Spec.id task) working None ;;;
  publish h s ;;;
  gitCommitAndPush (u16 "Before starting task: " ++ Spec.title task)
    (commitBefore s) ;;;
  attempts fuel h s task.

(** The [try] ... [catch] around the body of [runUsta]. *)
Definition guarded (m : M unit) : M unit :=
  tryCatch m (fun e => tell (SetFailed e) ;;; exit 1).

(** Observations on a run. *)
Definition attemptsOf (tr : list action) : list nat :=
  omap (fun a => match a with Attempt n => Some n | _ => None end) tr.

Definition isRollback (a : action) : bool :=
  match a with Rollback => true | _ => false end.

Definition rollbacksOf (tr : list action) : nat :=
  length (List.filter isRollback tr).

Definition progressOf (tid : jsstring) (w : World) : option TaskProgress :=
  List.find (fun t => jseq (taskId t) tid) (tasks (state (manager w))).

Definition overallOf (w : World) : Overall := overallStatus (state (manager w)).

(** The verification run of attempt [n] ends without the marker in
    the captured output. *)
Definition markerAbsent (s : Script) (n : nat) : Prop :=
  containsTestSuccess (captured (fst (runClaudeTest s n))) = false.

(** Attempt [n] runs to the end of verification without an exception. *)
Definition runsThrough (s : Script) (n : nat) : Prop :=
  preparePrompt s n = Ok tt /\ runClaudeWork s n = Ok tt /\
  createManualTestPrompt s n = Ok tt /\ snd (runClaudeTest s n) = Ok tt.

(** Verification fails on attempt [n]: marker absent, no exception. *)
Definition verificationFails (s : Script) (n : nat) : Prop :=
  runsThrough s n /\ markerAbsent s n /\ rollbackAfterTest s n = Ok tt.

(** Verification succeeds on attempt [n]. *)
Definition verificationSucceeds (s : Script) (n : nat) : Prop :=
  runsThrough s n /\
  containsTestSuccess (captured (fst (runClaudeTest s n))) = true.

(** The run of the retry loop and what follows it ends the process
    with a code other than 0 after the attempts 1, 2 and 3, the task
    and the run marked failed. *)
Definition failsAfterThree (fuel : nat) (h : Host) (s : Script)
    (task : Spec.Task) (w : World) : Prop :=
  exists code w',
    guarded (attempts fuel h s task) w = (Exit code, w') /\
    code <> 0%Z /\
    attemptsOf (trace w') = attemptsOf (trace w) ++ [1; 2; 3]%nat /\
    overallOf w' = runFailed /\
    exists tp, progressOf (Spec.id task) w' = Some tp /\ status tp = failed.

(** The task ends completed on attempt 3 after exactly two rollbacks. *)
Definition completesOnThird (fuel : nat) (h : Host) (s : Script)
    (task : Spec.Task) (w : World) : Prop :=
  exists w',
    guarded (attempts fuel h s task) w = (Done tt, w') /\
    rollbacksOf (trace w') = (rollbacksOf (trace w) + 2)%nat /\
    exists tp,
      progressOf (Spec.id task) w' = Some tp /\
      status tp = completed /\ completedOnAttempt tp = Some 3%nat.

(** Examples: one task, ["1"], and a reporter that knows it; the
    context is disabled. *)
Definition task1 : Spec.Task :=
  Spec.mkTask (u16 "1") (u16 "1. Do X") [] false [] [].

Definition host0 : Host := mkHost ∅ (fun _ => []).

Definition world0 : World :=
  mkWorld
    (fst (createCommentManager host0 (CurlClose 0 [] []) 0 disabled
            (u16 "demo") [task1]))
    0 0 [].

Definition gitBroken : result unit := Throw (Error (u16 "git reset failed with code 128")).

Definition pushRejected : result unit := Throw (Error (u16 "git push failed with code 1")).

Definition quiet (marker : nat -> bool) : Script :=
  mkScript (Ok tt) (fun _ => Ok tt) (fun _ => Ok tt) (fun _ => Ok tt)
    (fun n => (if marker n
               then [u16 "All good. __TASK_TEST_"; u16 "COMPLETED__"]
               else [u16 "The task is not complete: the build fails."],
               Ok tt))
    (fun _ => Ok tt) (fun _ => Ok tt) (fun _ => Ok tt)
    (fun _ => CurlClose 0 [] []) (fun n => N.of_nat n).

(** The agent never emits the marker and [git reset] fails. *)
Definition brokenRollback : Script :=
  let q := quiet (fun _ => false) in
  mkScript (commitBefore q) (preparePrompt q) (runClaudeWork q)
    (createManualTestPrompt q) (runClaudeTest q) (commitComplete q)
    (fun _ => gitBroken) (fun _ => gitBroken) (curl q) (date q).

(** Verification fails twice and succeeds on attempt 3, where the push
    of the completed task is rejected. *)
Definition rejectedPush : Script :=
  let q := quiet (fun n => Nat.eqb n 3) in
  mkScript (commitBefore q) (preparePrompt q) (runClaudeWork q)
    (createManualTestPrompt q) (runClaudeTest q) (fun _ => pushRejected)
    (rollbackAfterTest q) (rollbackAfterError q) (curl q) (date q).

End Orchestrator.

(** ** Notions used in the statements *)

Module Doc.
Import Spec.

(** An unchecked checkbox line as [markTaskAsCompleted] reads it:
    ["- ["], white space only, ["] "], then the title, which is not
    empty and has no line terminator. *)
Definition UncheckedBox (line ws taskTitle : jsstring) : Prop :=
  line = u16 "- [" ++ ws ++ u16 "] " ++ taskTitle /\
  forallb isSpace ws = true /\
  taskTitle <> [] /\ forallb isDot taskTitle = true.

(** The same line with its box checked. *)
Definition checkedLine (taskTitle : jsstring) : jsstring :=
  u16 "- [x] " ++ taskTitle.

(** A checkbox bullet line, for either of the two functions that read
    such lines. *)
Definition isCheckbox (line : jsstring) : bool :=
  bool_decide (is_Some (exec taskLineRe line))
  || bool_decide (is_Some (exec uncheckedRe line)).

(** No checkbox line comes before the first section heading: every
    task of the document belongs to a section. *)
Fixpoint tasksInSections (lines : list jsstring) : bool :=
  match lines with
  | [] => true
  | l :: rest =>
      if isHeading l then true
      else negb (isCheckbox l) && tasksInSections rest
  end.

Definition validChecklist (content : jsstring) : bool :=
  tasksInSections (split 10 content).

Definition completedCount (ts : list Task) : nat :=
  length (List.filter completed ts).

(** The tasks a parser state holds: those of the sections and the one
    being read. *)
Definition stateTasks (st : pstate) : list Task :=
  List.concat (List.map tasks (sectionsOf st)) ++ option_list (currentTask st).

(** The task a task line starts, from the captures of its match. *)
Definition taskOfMatch (m : rmatch_result) : Task :=
  newTask (default [] (m_caps m !! 1%nat)) (m_caps m !! 2%nat)
          (default [] (m_caps m !! 3%nat)).

(** A task with this id and this state of the checkbox starts at one
    of the lines. *)
Definition startsAt (lines : list jsstring) (taskId : jsstring) (done : bool)
    : Prop :=
  exists line m,
    In line lines /\ exec taskLineRe line = Some m /\
    taskId = id (taskOfMatch m) /\ done = completed (taskOfMatch m).

(** What a line adds to the number of completed tasks of the result:
    it counts when it is the line of a checked task and a section is
    open. *)
Definition gain (inSection : bool) (line : jsstring) : nat :=
  if isHeading line then 0%nat
  else match exec taskLineRe line with
       | Some m => if inSection && completed (taskOfMatch m) then 1%nat else 0%nat
       | None => 0%nat
       end.

Fixpoint gains (inSection : bool) (lines : list jsstring) : nat :=
  match lines with
  | [] => 0%nat
  | l :: rest => (gain inSection l + gains (inSection || isHeading l) rest)%nat
  end.

Definition hasSection (st : pstate) : bool :=
  match currentSection st with Some _ => true | None => false end.

Definition countOf (st : pstate) : nat :=
  completedCount (List.concat (List.map tasks (finish st))).

(** The document of the parsing scenario. *)
Definition scenario : jsstring :=
  join newline
    [u16 "## A"; u16 ""; u16 "- [ ] 1. Do X"; u16 "  - sub one";
     u16 "  - sub two"; u16 "  _Requirements: 1.1, 1.2_"; u16 ""].

(** A document with a task before any heading. *)
Definition orphaned : jsstring :=
  join newline [u16 "- [ ] 1. orphan"; u16 "## A"; u16 "- [ ] 2. kept"].

(** Some lines of the sample of the tests of spec/utils.ts: task 2 is
    checked, task 3 is not. *)
Definition sample : jsstring :=
  join newline
    [u16 "## Core Changes"; u16 "";
     u16 "- [x] 2. Add simple file finder";
     u16 "  - Create basic file resolution with exact path matching";
     u16 "- [ ] 3. Simplify Claude Code execution";
     u16 "  - _Requirements: 2.8, 2.10_"].

(** [SAMPLE_TASKS_CONTENT] of the tests of spec/utils.ts. *)
Definition SAMPLE_TASKS_CONTENT : jsstring :=
  u16 "# Implementation Plan

## Core Changes

- [  ] 1. Update trigger detection for PR descriptions
  - Modify `src/github/validation/trigger.ts` to parse PR body text
  - Add `@usta execute <file_path>` pattern matching
  - Support multiple triggers in PR descriptions
  - _Requirements: 1.1, 1.2, 1.3_

- [x] 2. Add simple file finder
  - Create basic file resolution with exact path matching
  - Add fuzzy matching for partial paths
  - Return null if file not found or ambiguous
  - _Requirements: 2.1, 2.2, 2.3_

- [ ] 3. Simplify Claude Code execution
  - Update `src/create-prompt/index.ts` to pass file path only
  - Remove complex prompt generation logic
  - Execute with `/execute <file_path>` command
  - _Requirements: 2.8, 2.10_

## Cleanup

- [x] 4. Remove issue support
  - Remove issue event handling from triggers
  - Clean up issue-related code paths
  - _Requirements: 6.1_

- [ ] 5. Remove assignee/label triggers
  - Remove assignee and label trigger logic
  - _Requirements: 6.2_

## Testing

- [ ] 6. Add basic tests
  - Test trigger parsing for PR descriptions
  - Test file resolution logic
  - Test simplified execution flow
  - _Requirements: All_
".

(** Two tasks with the id "1", the first of them before any heading. *)
Definition orphanedTwin : jsstring :=
  join newline [u16 "- [ ] 1. orphan"; u16 "## A"; u16 "- [ ] 1. kept"].

(** Forty tasks in one section, the first 23 of them checked. *)
Definition fortyTasks : jsstring :=
  join newline
    (u16 "## Plan"
     :: List.repeat (u16 "- [x] done") 23 ++ List.repeat (u16 "- [ ] todo") 17).

(** [100 * completed / total] rounded to the nearest integer, in exact
    arithmetic (halves go up, as with [Math.round]). *)
Definition exactPercentage (completed total : nat) : Z :=
  ((2 * (100 * Z.of_nat completed) + Z.of_nat total)
   / (2 * Z.of_nat total))%Z.

End Doc.

(** ** Environments used in the examples *)

Module Envs.

(** PR mode is requested and the number is not set. *)
Definition numberUnset : gmap string (list N) :=
  <["USTA_PR_MODE"%string := u16 "true"]>
    (<["USTA_PR_BRANCH"%string := u16 "feature-branch"]> ∅).

(** PR mode is requested and number and branch are set. *)
Definition complete : gmap string (list N) :=
  <["USTA_PR_MODE"%string := u16 "true"]>
    (<["USTA_PR_NUMBER"%string := u16 "123"]>
       (<["USTA_PR_BRANCH"%string := u16 "feature-branch"]>
          (<["USTA_COMMENT_ID"%string := u16 "456"]> ∅))).

End Envs.

(** ** Resolution: notions used in the statements, and examples *)

Module Specs.
Import Resolve.

(** The entries of the specs root that [fuzzyMatchSpec] keeps. *)
Definition directoriesOf (pf : Platform) (fs : FileSystem)
    (entries : list jsstring) : list jsstring :=
  List.filter
    (fun entry =>
       match stat fs (path_join pf (specsRoot pf) entry) with
       | Ok st => isDirectory st
       | Throw _ => false
       end) entries.

(** The term looked for under the specs root. *)
Definition searchTermOf (pf : Platform) (specName : jsstring) : jsstring :=
  path_basename pf (replace extRe [] specName).

(** A name resolved by the third strategy only. *)
Definition bareName (pf : Platform) (specName : jsstring) : Prop :=
  truthy specName = true /\ path_isAbsolute pf specName = false /\
  includes (u16 "/") specName = false /\ includes (u16 "\") specName = false.

Definition exactFails (pf : Platform) (term : jsstring)
    (dirs : list jsstring) : Prop :=
  List.find (fun dir => jseq dir term) dirs = None /\
  List.find (fun dir => jseq (toLowerCase pf dir) (toLowerCase pf term)) dirs
    = None.

(** The directories whose name contains the term (letter case apart). *)
Definition containing (pf : Platform) (term : jsstring)
    (dirs : list jsstring) : list jsstring :=
  List.filter
    (fun dir => includes (toLowerCase pf term) (toLowerCase pf dir)) dirs.

(** The directories the source takes as fuzzy matches: the name
    contains the term, or the term contains the name. *)
Definition candidates (pf : Platform) (term : jsstring)
    (dirs : list jsstring) : list jsstring :=
  List.filter
    (fun dir =>
       includes (toLowerCase pf term) (toLowerCase pf dir)
       || includes (toLowerCase pf dir) (toLowerCase pf term)) dirs.

Definition multiple (term : jsstring) (found : list jsstring) : exn :=
  Error (u16 "Multiple specs found matching '" ++ term ++ u16 "': "
         ++ join (u16 ", ") found).

(** The outcome of fuzzy resolution when the matches are [found]. *)
Definition resolvesBy (pf : Platform) (fs : FileSystem)
    (specName : jsstring) (found : list jsstring) : Prop :=
  match found with
  | [] => getSpecPath pf fs (Some specName) = Throw (notFound specName)
  | [d] =>
      getSpecPath pf fs (Some specName) = Ok (path_join pf (specsRoot pf) d)
  | _ :: _ :: _ =>
      getSpecPath pf fs (Some specName)
      = Throw (multiple (searchTermOf pf specName) found)
  end.

(** The statement on fuzzy resolution with "contains the search term"
    as the only way to be a match. *)
Definition resolvesByContainment (pf : Platform) (fs : FileSystem)
    (specName : jsstring) : Prop :=
  forall entries,
    bareName pf specName ->
    readdir fs (specsRoot pf) = Ok entries ->
    exactFails pf (searchTermOf pf specName) (directoriesOf pf fs entries) ->
    resolvesBy pf fs specName
      (containing pf (searchTermOf pf specName) (directoriesOf pf fs entries)).

(** A working directory /repo whose specs root holds the directories
    [names] and nothing else. *)
Definition repo : Platform := posix (u16 "/repo").

Definition disk (names : list jsstring) : FileSystem :=
  mkFS
    (fun p =>
       if jseq p (u16 "/repo/.usta/specs") then Ok names
       else Throw (ErrnoException ENOENT))
    (fun p =>
       if existsb (fun n => jseq p (u16 "/repo/.usta/specs/" ++ n)) names
       then Ok (mkStats false true)
       else Throw (ErrnoException ENOENT)).

End Specs.

(** ** Checkbox lines: notions used in the further statements *)

Module Boxes.
Import Spec Doc.

(** What [taskLineRe] has after the checkbox: [(\d+\. )?(.+)$]. *)
Definition taskTailRe : regex :=
  Cat (Opt (Grp 2 (Cat (Plus isDigit) (lit (u16 ". ")))))
      (Cat (Grp 3 (Plus isDot)) Eol).

(** What [taskLineRe] has after ["- ["] and the white space:
    [([ x])\s*\] (\d+\. )?(.+)$]. *)
Definition boxRestRe : regex :=
  Cat (Grp 1 (Chr (fun c => (c =? 32) || (c =? 120))))
      (Cat (Star isSpace) (Cat (lit (u16 "] ")) taskTailRe)).

(** The task with its checkbox checked. *)
Definition setCompleted (t : Task) : Task :=
  mkTask (id t) (title t) (description t) true (requirements t) (subtasks t).

(** Two capture arrays that agree on every group but the first. *)
Definition sameButBox (c1 c2 : gmap nat jsstring) : Prop :=
  forall i : nat, i <> 1%nat -> c1 !! i = c2 !! i.

(** Two results of the matcher that agree on the rest of the input
    and on every group but the first. *)
Definition sameResult (o1 o2 : option (jsstring * gmap nat jsstring)) : Prop :=
  match o1, o2 with
  | Some (s1, d1), Some (s2, d2) => s1 = s2 /\ sameButBox d1 d2
  | None, None => True
  | _, _ => False
  end.

(** The regex has no group 1. *)
Fixpoint noBoxGroup (r : regex) : bool :=
  match r with
  | Cat r1 r2 | Alt r1 r2 => noBoxGroup r1 && noBoxGroup r2
  | Opt r1 => noBoxGroup r1
  | Grp i r1 => negb (Nat.eqb i 1) && noBoxGroup r1
  | _ => true
  end.

(** Two states of the parser that differ in one task only, which is
    unchecked in the first and checked in the second; [before] are the
    tasks read before that task. *)
Inductive oneChecked (before : list Task) : pstate -> pstate -> Prop :=
| checked_current (cl : list TaskSection) (sec : TaskSection) (t : Task) :
    completed t = false ->
    before = List.concat (List.map tasks cl) ++ tasks sec ->
    oneChecked before
      (mkPState cl (Some sec) (Some t))
      (mkPState cl (Some sec) (Some (setCompleted t)))
| checked_in_section (cl : list TaskSection) (ti : jsstring)
    (a : list Task) (t : Task) (b : list Task) (ct : option Task) :
    completed t = false ->
    before = List.concat (List.map tasks cl) ++ a ->
    oneChecked before
      (mkPState cl (Some (mkSection ti (a ++ t :: b))) ct)
      (mkPState cl (Some (mkSection ti (a ++ setCompleted t :: b))) ct)
| checked_in_closed (ca : list TaskSection) (ti : jsstring)
    (a : list Task) (t : Task) (b : list Task) (cb : list TaskSection)
    (cs : option TaskSection) (ct : option Task) :
    completed t = false ->
    before = List.concat (List.map tasks ca) ++ a ->
    oneChecked before
      (mkPState (ca ++ mkSection ti (a ++ t :: b) :: cb) cs ct)
      (mkPState (ca ++ mkSection ti (a ++ setCompleted t :: b) :: cb) cs ct).

(** Every line whose box [markTaskAsCompleted] can check is a line
    the parser reads as a task line: between the brackets there is one
    space at least, not only tabs or nothing. *)
Definition boxesAreTasks (content : jsstring) : bool :=
  forallb
    (fun l =>
       implb (bool_decide (is_Some (exec uncheckedRe l)))
             (bool_decide (is_Some (exec taskLineRe l))))
    (split 10 content).

End Boxes.

(** ** The class CommentManager: calls in sequence *)

Module Calls.
Import PRCtx Reporter.

(** [addTask] *)
Definition addTask (task : TaskProgress) (m : CommentManager)
    : CommentManager :=
  let s := state m in
  withState m
    (mkCommentState (specName s) (tasks s ++ [task]) (overallStatus s)
       (runStart s) (runEnd s)).

(** A call of one of the three methods that change the state of the
    manager; [now] is the time the clock shows during the call. *)
Inductive call : Type :=
| UpdateTaskStatus (now : N) (taskIdArg : jsstring) (st : Status)
    (att : option nat)
| SetOverallStatus (now : N) (o : Overall)
| AddTask (task : TaskProgress).

Definition perform (m : CommentManager) (c : call) : CommentManager :=
  match c with
  | UpdateTaskStatus now taskIdArg st att =>
      updateTaskStatus now taskIdArg st att m
  | SetOverallStatus now o => setOverallStatus now o m
  | AddTask task => addTask task m
  end.

Definition performAll (m : CommentManager) (cs : list call) : CommentManager :=
  fold_left perform cs m.



(** What an entry keeps through every call: its id and title, and its
    start and end time once they are set. *)
Definition keeps (t t' : TaskProgress) : Prop :=
  taskId t' = taskId t /\ title t' = title t /\
  (forall x, startTime t = Some x -> startTime t' = Some x) /\
  (forall y, endTime t = Some y -> endTime t' = Some y).

End Calls.

(** ** output-capture.ts: the class SimpleOutputCapture *)

Module Captures.

(** The private [buffer], and what the object has written to
    [process.stdout]. *)
Record SimpleOutputCapture : Type := mkSimple {
  buffer : jsstring;
  stdout : jsstring
}.

Definition write (data : jsstring) (c : SimpleOutputCapture)
    : SimpleOutputCapture :=
  mkSimple (buffer c ++ data) (stdout c ++ data).

(** The check mark is U+2713, one code unit. *)
Definition containsTestSuccess (c : SimpleOutputCapture) : bool :=
  includes [0x2713] (buffer c)
  || includes (u16 "passed") (buffer c)
  || includes (u16 "Test passed") (buffer c)
  || includes (u16 "All tests passed") (buffer c).

Definition clear (c : SimpleOutputCapture) : SimpleOutputCapture :=
  mkSimple [] (stdout c).

Definition getBuffer (c : SimpleOutputCapture) : jsstring := buffer c.

End Captures.

(** ** prepare-prompt.ts *)

Module Prompts.
Import Spec.

(** The files under /tmp: path to content. *)
Abbreviation tmpFiles := (gmap (list N) (list N)) (only parsing).

Record PreparePromptConfig : Type := mkConfig {
  specPath : jsstring;
  taskId : jsstring
}.

(** [crateTemporaryPromptFile]; [failure] is the error [writeFileSync]
    throws, if it throws. *)
Definition crateTemporaryPromptFile (failure : option exn)
    (prompt taskId : jsstring) (files : tmpFiles)
    : result jsstring * tmpFiles :=
  let fileName := u16 "prompt-" ++ taskId ++ u16 ".txt" in
  let filePath := u16 "/tmp/" ++ fileName in
  match failure with
  | Some e => (Throw e, files)
  | None => (Ok filePath, <[filePath := prompt]> files)
  end.

Definition taskNotFound (config : PreparePromptConfig) : exn :=
  Error (u16 "Task with ID " ++ taskId config ++ u16 " not found in spec "
         ++ specPath config).

(** The template of [preparePrompt]; [isoDate] is
    [new Date().toISOString()]. *)
Definition workPrompt (taskTitle specPath isoDate : jsstring) : jsstring :=
  u16 "You are working on "
    ++ taskTitle
    ++ u16 " in "
    ++ specPath
    ++ u16 ".
- Must read requirements.md, design.md, tasks, CLAUDE.md before executing
- Execute only ONE task at a time
- Focus only on requested task, not others
- Stop after completing task

current date: "
    ++ isoDate
    ++ u16 "
  ".

(** The template of [createManualTestPrompt]. *)
Definition testPrompt (taskTitle specPath isoDate : jsstring) : jsstring :=
  u16 "The coding agent has finished the task "
    ++ taskTitle
    ++ u16 " in "
    ++ specPath
    ++ u16 ".

You must the task using <DEVELOPER PERSPECTIVE>
- Respond exactly with "
    ++ [34]
    ++ Orchestrator.__TEST_SUCCESS_PHARESE
    ++ [34]
    ++ u16 " if the task is complete
- If the exact text of "
    ++ [34]
    ++ Orchestrator.__TEST_SUCCESS_PHARESE
    ++ [34]
    ++ u16 " is not found in your response, then the task will be considered as non-complete
- Respond with the reason if the task is not complete

<DEVELOPER PERSPECTIVE>
- Take a step back, try to use the feature from a fresh perspective
- You must read requirements.md, design.md, tasks, CLAUDE.md, README.md before executing
- Check for configs/environment variables
- Build/Run the project
- Test the features end-to-end using <MANUAL TESTING>
</DEVELOPER PERSPECTIVE>

<MANUAL TESTING>
It is testing from a user's perspective. So that user can use the feature right away.

- If the task is a UI feature, utilize playwright mcp to test it
  - If it needs access to a protected route login or create a new account
  - Take screenshots when needed
  - Test the feature as a user would
  - If the task is not ready to be used by real users, then it is not complete
- If the task is a Server related feature, use the commands like "
    ++ [34]
    ++ u16 "curl"
    ++ [34]
    ++ u16 " to test it
  - If it needs access to a protected route, create a new user or use an existing one to get a token
  - Verify that the API works as expected
  - If the task is not ready to be used by real users, then it is not complete
</MANUAL TESTING>

current date: "
    ++ isoDate
    ++ u16 "
  ".

(** [preparePrompt]; [content] is what tasks.md under [specPath]
    holds when [getTaskById] reads it. *)
Definition preparePrompt (content isoDate : jsstring) (failure : option exn)
    (config : PreparePromptConfig) (files : tmpFiles)
    : result jsstring * tmpFiles :=
  match getTaskById content (taskId config) with
  | None => (Throw (taskNotFound config), files)
  | Some task =>
      crateTemporaryPromptFile failure
        (workPrompt (title task) (specPath config) isoDate) (id task) files
  end.

(** [createManualTestPrompt] *)
Definition createManualTestPrompt (content isoDate : jsstring)
    (failure : option exn) (config : PreparePromptConfig) (files : tmpFiles)
    : result jsstring * tmpFiles :=
  match getTaskById content (taskId config) with
  | None => (Throw (taskNotFound config), files)
  | Some task =>
      crateTemporaryPromptFile failure
        (testPrompt (title task) (specPath config) isoDate)
        (u16 "test-" ++ id task) files
  end.

End Prompts.

(** ** The loop over the tasks of [runUsta] *)

Module Session.
Import Spec PRCtx Reporter Orchestrator.

(** What a run meets.  For the iteration [i] of [while (task != null)],
    [pass i] is what the collaborators do during it, and [leaves i] is
    what the agent's runs and the git commands of the iteration leave
    of tasks.md, from what it held when the iteration began.
    [closing] gives the clock and the GitHub API after the loop. *)
Record Plan : Type := mkPlan {
  pass : nat -> Script;
  leaves : nat -> jsstring -> jsstring;
  closing : Script
}.

(** How a run ends, what it did, and tasks.md at that time. *)
Definition Ending : Type := (outcome unit * World * tasksFile)%type.

(** [while (task != null) { ... }]: the body runs the task, then
    [markTaskAsCompleted(specPath, task.id)], then
    [task = await getNextTask(specPath)].  [fuel] bounds the number of
    iterations and [inner] those of the retry loop. *)
Fixpoint taskLoop (fuel inner : nat) (h : Host) (plan : Plan) (i : nat)
    (task : option Task) (f : tasksFile) (w : World) : Ending :=
  match fuel with
  | O => (OutOfFuel, w, f)
  | S fuel' =>
      match task with
      | None => (Done tt, w, f)
      | Some t =>
          let f1 := mkFile (leaves plan i (content f)) (writes f) in
          match runTask inner h (pass plan i) t w with
          | (Done _, w1) =>
              match markTaskAsCompleted f1 (id t) with
              | (Ok _, f2) =>
                  taskLoop fuel' inner h plan (S i)
                    (getNextTask (content f2)) f2 w1
              | (Throw e, f2) => (Raise e, w1, f2)
              end
          | (o, w1) => (o, w1, f1)
          end
      end
  end.

(** [catch (error) { core.setFailed(...); ...; process.exit(1) }] *)
Definition caught (e : exn) (w : World) (f : tasksFile) : Ending :=
  let (o, w') := (tell (SetFailed e) ;;; exit 1) w in (o, w', f).

(** [runUsta] from [let task = await getNextTask(specPath)] to the
    end, on a tasks.md that can be read. *)
Definition runTasks (fuel inner : nat) (h : Host) (plan : Plan)
    (f : tasksFile) (w : World) : Ending :=
  match taskLoop fuel inner h plan 0 (getNextTask (content f)) f w with
  | (Done _, w1, f1) =>
      match (setOverall (closing plan) allCompleted ;;;
             publish h (closing plan)) w1 with
      | (Raise e, w2) => caught e w2 f1
      | (o, w2) => (o, w2, f1)
      end
  | (Raise e, w1, f1) => caught e w1 f1
  | r => r
  end.

(** The agent and the git commands leave tasks.md as it is. *)
Definition untouched (plan : Plan) : Prop :=
  forall (i : nat) (c : jsstring), leaves plan i c = c.

(** Every task passes verification on its first attempt, and no
    commit fails. *)
Definition allGreen (plan : Plan) : Prop :=
  forall i : nat,
    commitBefore (pass plan i) = Ok tt /\
    verificationSucceeds (pass plan i) 1 /\
    commitComplete (pass plan i) 1 = Ok tt.

(** No line is an unchecked checkbox line for [markTaskAsCompleted]. *)
Definition noUncheckedBox (content : jsstring) : bool :=
  forallb (fun l => negb (bool_decide (is_Some (exec uncheckedRe l))))
          (split 10 content).

(** Example: the agent passes every task at once and leaves tasks.md
    alone. *)
Definition greenPlan : Plan :=
  mkPlan (fun _ => quiet (fun _ => true)) (fun _ c => c)
         (quiet (fun _ => true)).

(** Example: the first attempt of every task fails, the second
    passes. *)
Definition secondTryPlan : Plan :=
  mkPlan (fun _ => quiet (fun n => Nat.eqb n 2)) (fun _ c => c)
         (quiet (fun _ => true)).

(** Example: a checklist with one task, which is incomplete. *)
Definition onePending : jsstring :=
  join newline [u16 "## Plan"; u16 "- [ ] 1. Do X"].

(** Example: the agent passes every task at once and checks the first
    open box of tasks.md itself. *)
Definition eagerPlan : Plan :=
  mkPlan (fun _ => quiet (fun _ => true))
         (fun _ c => replace boxRe (u16 "- [x]") c)
         (quiet (fun _ => true)).

End Session.

(** * Properties *)

(** ** Strings *)

Lemma startsWith_app (p s : list N) : startsWith p (p ++ s) = true.
Proof.
  induction p as [|a p IH]; simpl; [reflexivity|].
  rewrite N.eqb_refl. exact IH.
Qed.

Lemma startsWith_spec (p s : list N) :
  startsWith p s = true <-> exists t, s = p ++ t.
Proof.
  split.
  - revert s. induction p as [|a p IH]; intros s H.
    + exists s. reflexivity.
    + destruct s as [|b s]; simpl in H; [discriminate|].
      apply andb_true_iff in H as [Hab Hp]. apply N.eqb_eq in Hab. subst b.
      destruct (IH _ Hp) as [t ->]. exists t. reflexivity.
  - intros [t ->]. apply startsWith_app.
Qed.

Lemma includes_cons (p : list N) (c : N) (s : list N) :
  includes p (c :: s) = startsWith p (c :: s) || includes p s.
Proof. reflexivity. Qed.

Lemma includes_startsWith (p s : list N) :
  startsWith p s = true -> includes p s = true.
Proof. intros H. destruct s; simpl in *; rewrite H; reflexivity. Qed.

Lemma includes_app (p a b : list N) : includes p (a ++ p ++ b) = true.
Proof.
  induction a as [|c a IH].
  - change ([] ++ p ++ b) with (p ++ b).
    apply includes_startsWith, startsWith_app.
  - simpl app. rewrite includes_cons, IH. apply orb_true_r.
Qed.

Lemma includes_prefix (p b : list N) : includes p (p ++ b) = true.
Proof. apply (includes_app p [] b). Qed.

Lemma includes_refl (p : list N) : includes p p = true.
Proof. rewrite <- (app_nil_r p) at 2. apply includes_prefix. Qed.

(** ** The matcher finds a match exactly when there is one *)

Lemma star_sound {A} (p : N -> bool) (s : list N) (caps : gmap nat (list N))
    (bol : bool) (k : bool -> list N -> gmap nat (list N) -> option A) (a : A) :
  star p s caps bol k = Some a ->
  exists run s',
    s = run ++ s' /\ forallb p run = true /\
    k (if run is [] then bol else false) s' caps = Some a.
Proof.
  revert bol. induction s as [|c s IH]; intros bol H; simpl in H.
  - exists [], []. auto.
  - destruct (p c) eqn:Hp.
    + destruct (star p s caps false k) eqn:Hs.
      * injection H as <-. destruct (IH _ Hs) as (run & s' & -> & Hrun & Hk).
        exists (c :: run), s'. simpl. rewrite Hp, Hrun.
        destruct run; auto.
      * exists [], (c :: s). auto.
    + exists [], (c :: s). auto.
Qed.

Lemma star_complete {A} (p : N -> bool) (run s' : list N)
    (caps : gmap nat (list N)) (bol : bool)
    (k : bool -> list N -> gmap nat (list N) -> option A) :
  forallb p run = true ->
  is_Some (k (if run is [] then bol else false) s' caps) ->
  is_Some (star p (run ++ s') caps bol k).
Proof.
  revert bol. induction run as [|c run IH]; intros bol Hrun Hk; simpl in *.
  - destruct s' as [|c s']; simpl; [exact Hk|].
    destruct (p c); [|exact Hk].
    destruct (star p s' caps false k); [eauto | exact Hk].
  - apply andb_true_iff in Hrun as [Hc Hrun]. rewrite Hc.
    assert (Hs : is_Some (star p (run ++ s') caps false k)).
    { apply IH; [exact Hrun|]. destruct run; exact Hk. }
    destruct Hs as [a ->]. eauto.
Qed.

Lemma rmatch_sound {A} (r : regex) :
  forall (bol : bool) (s : list N) (caps : gmap nat (list N))
         (k : bool -> list N -> gmap nat (list N) -> option A) (a : A),
  rmatch r bol s caps k = Some a ->
  exists b' s' c', matches r bol s caps b' s' c' /\ k b' s' c' = Some a.
Proof.
  induction r as [p| | | |r1 IH1 r2 IH2|r1 IH1 r2 IH2|p|r1 IH1|i r1 IH1];
    intros bol s caps k a H; simpl in H.
  - destruct s as [|c s]; [discriminate|]. destruct (p c) eqn:Hp; [|discriminate].
    exists false, s, caps. simpl. eauto 10.
  - destruct bol; [|discriminate]. exists true, s, caps. simpl. auto.
  - destruct s; [|discriminate]. exists bol, [], caps. simpl. auto.
  - exists bol, s, caps. simpl. auto.
  - apply IH1 in H as (b1 & s1 & c1 & H1 & H).
    apply IH2 in H as (b2 & s2 & c2 & H2 & H).
    exists b2, s2, c2. simpl. eauto 10.
  - destruct (rmatch r1 bol s caps k) eqn:E.
    + injection H as <-. apply IH1 in E as (b & s' & c & ? & ?).
      exists b, s', c. simpl. auto.
    + apply IH2 in H as (b & s' & c & ? & ?). exists b, s', c. simpl. auto.
  - apply star_sound in H as (run & s' & -> & Hrun & Hk).
    exists (if run is [] then bol else false), s', caps. simpl. eauto 10.
  - destruct (rmatch r1 bol s caps k) eqn:E.
    + injection H as <-. apply IH1 in E as (b & s' & c & ? & ?).
      exists b, s', c. simpl. auto.
    + exists bol, s, caps. simpl. auto.
  - apply IH1 in H as (b & s' & c & ? & ?).
    exists b, s', (<[i := take (length s - length s') s]> c). simpl. eauto.
Qed.

Lemma rmatch_complete {A} (r : regex) :
  forall (bol : bool) (s : list N) (caps : gmap nat (list N))
         (k : bool -> list N -> gmap nat (list N) -> option A)
         (b' : bool) (s' : list N) (c' : gmap nat (list N)),
  matches r bol s caps b' s' c' ->
  is_Some (k b' s' c') ->
  is_Some (rmatch r bol s caps k).
Proof.
  induction r as [p| | | |r1 IH1 r2 IH2|r1 IH1 r2 IH2|p|r1 IH1|i r1 IH1];
    intros bol s caps k b' s' c' M Hk; simpl in M |- *.
  - destruct M as (c & -> & Hp & -> & ->). rewrite Hp. exact Hk.
  - destruct M as (-> & -> & -> & ->). exact Hk.
  - destruct M as (-> & -> & -> & ->). exact Hk.
  - destruct M as (-> & -> & ->). exact Hk.
  - destruct M as (b1 & s1 & c1 & M1 & M2).
    eapply IH1; [exact M1|]. eapply IH2; eauto.
  - destruct M as [M|M].
    + destruct (IH1 _ _ _ _ _ _ _ M Hk) as [a ->]. eauto.
    + destruct (rmatch r1 bol s caps k); [eauto|]. eapply IH2; eauto.
  - destruct M as (run & -> & Hrun & -> & ->). apply star_complete; assumption.
  - destruct M as [M|(-> & -> & ->)].
    + destruct (IH1 _ _ _ _ _ _ _ M Hk) as [a ->]. eauto.
    + destruct (rmatch r1 bol s caps k); [eauto | exact Hk].
  - destruct M as (c1 & M & ->). eapply IH1; [exact M|]. exact Hk.
Qed.

Lemma matches_lit (t : list N) :
  forall bol s caps b' s' c',
  matches (lit t) bol s caps b' s' c' <->
  s = t ++ s' /\ b' = (if t is [] then bol else false) /\ c' = caps.
Proof.
  induction t as [|a t IH]; intros bol s caps b' s' c'; simpl.
  - intuition congruence.
  - split.
    + intros (b1 & s1 & c1 & (c & -> & Hc & -> & ->) & H2).
      apply N.eqb_eq in Hc. subst c.
      apply IH in H2 as (-> & -> & ->).
      repeat split. destruct t; reflexivity.
    + intros (-> & -> & ->).
      exists false, (t ++ s'), caps. split.
      * exists a. rewrite N.eqb_refl. auto.
      * apply IH. repeat split. destruct t; reflexivity.
Qed.

Lemma matches_plus (p : N -> bool) :
  forall bol s caps b' s' c',
  matches (Plus p) bol s caps b' s' c' <->
  exists run, run <> [] /\ s = run ++ s' /\ forallb p run = true /\
              b' = false /\ c' = caps.
Proof.
  intros bol s caps b' s' c'. unfold Plus. simpl. split.
  - intros (b1 & s1 & c1 & (c & -> & Hc & -> & ->) & run & -> & Hrun & -> & ->).
    exists (c :: run). simpl. rewrite Hc, Hrun.
    repeat split; [discriminate | destruct run; reflexivity].
  - intros (run & Hne & -> & Hrun & -> & ->).
    destruct run as [|c run]; [congruence|]. simpl in Hrun.
    apply andb_true_iff in Hrun as [Hc Hrun].
    exists false, (run ++ s'), caps. split; [eauto 10|].
    exists run. repeat split; [exact Hrun | destruct run; reflexivity].
Qed.

(** Every match consumes a prefix of the input. *)
Lemma matches_suffix (r : regex) :
  forall bol s caps b' s' c',
  matches r bol s caps b' s' c' -> exists used, s = used ++ s'.
Proof.
  induction r as [p| | | |r1 IH1 r2 IH2|r1 IH1 r2 IH2|p|r1 IH1|i r1 IH1];
    intros bol s caps b' s' c' M; simpl in M.
  - destruct M as (c & -> & _). exists [c]. reflexivity.
  - destruct M as (_ & _ & -> & _). exists []. reflexivity.
  - destruct M as (_ & _ & -> & _). exists []. reflexivity.
  - destruct M as (_ & -> & _). exists []. reflexivity.
  - destruct M as (b1 & s1 & c1 & M1 & M2).
    apply IH1 in M1 as [u1 ->]. apply IH2 in M2 as [u2 ->].
    exists (u1 ++ u2). rewrite <- app_assoc. reflexivity.
  - destruct M as [M|M]; eauto.
  - destruct M as (run & -> & _). eauto.
  - destruct M as [M|(_ & -> & _)]; [eauto | exists []; reflexivity].
  - destruct M as (c1 & M & _). eauto.
Qed.

Lemma take_used (used s' : list N) :
  take (length (used ++ s') - length s') (used ++ s') = used.
Proof.
  rewrite length_app.
  replace (length used + length s' - length s')%nat with (length used) by lia.
  apply take_app_length.
Qed.

Lemma drop_used (used s' : list N) :
  drop (length (used ++ s') - length s') (used ++ s') = s'.
Proof.
  rewrite length_app.
  replace (length used + length s' - length s')%nat with (length used) by lia.
  apply drop_app_length.
Qed.

(** A regex that starts with [^] matches at index 0 or nowhere. *)
Lemma search_anchored (r : regex) (s : list N) (idx : nat) :
  search (Cat Bol r) false idx s = None.
Proof.
  revert idx. induction s as [|c s IH]; intros idx; simpl; [reflexivity|].
  apply IH.
Qed.

Lemma exec_anchored (r : regex) (s : list N) :
  exec (Cat Bol r) s =
  match matchAt (Cat Bol r) true s with
  | Some (s', c) => Some (MatchResult 0 (take (length s - length s') s) c)
  | None => None
  end.
Proof.
  unfold exec. destruct s as [|c s]; simpl.
  - destruct (matchAt (Cat Bol r) true []) as [[s' c']|]; reflexivity.
  - destruct (matchAt (Cat Bol r) true (c :: s)) as [[s' c']|]; [reflexivity|].
    apply search_anchored.
Qed.

Lemma exec_anchored_sound (r : regex) (s : list N) (m : rmatch_result) :
  exec (Cat Bol r) s = Some m ->
  exists b' used s',
    s = used ++ s' /\ matches r true s ∅ b' s' (m_caps m) /\
    m_index m = 0%nat /\ m_text m = used.
Proof.
  rewrite exec_anchored. unfold matchAt.
  destruct (rmatch (Cat Bol r) true s ∅ (fun _ s' c => Some (s', c)))
    as [[s' c']|] eqn:E; [|discriminate].
  intros [= <-]. apply rmatch_sound in E as (b1 & s1 & c1 & M & [= -> ->]).
  simpl in M. destruct M as (b0 & s0 & c0 & (_ & -> & -> & ->) & M).
  destruct (matches_suffix _ _ _ _ _ _ _ M) as [used ->].
  exists b1, used, s'. simpl. rewrite take_used. auto.
Qed.

Lemma exec_anchored_complete (r : regex) (s : list N) b' s' c' :
  matches r true s ∅ b' s' c' -> is_Some (exec (Cat Bol r) s).
Proof.
  intros M. rewrite exec_anchored. unfold matchAt.
  destruct (rmatch_complete (A := list N * gmap nat (list N)) (Cat Bol r)
              true s ∅ (fun _ s' c => Some (s', c)) b' s' c') as [[s1 c1] ->].
  - simpl. exists true, s, ∅. auto.
  - eauto.
  - eauto.
Qed.

(** The first element outside a class fixes where a run of the class
    ends. *)
Lemma span_unique (p : N -> bool) (a a' b b' : list N) (x x' : N) :
  forallb p a = true -> forallb p a' = true ->
  p x = false -> p x' = false ->
  a ++ x :: b = a' ++ x' :: b' ->
  a = a' /\ x = x' /\ b = b'.
Proof.
  revert a'. induction a as [|c a IH]; intros a' Ha Ha' Hx Hx' E.
  - destruct a' as [|c' a']; simpl in *.
    + injection E as -> ->. auto.
    + injection E as -> _. apply andb_true_iff in Ha' as [Hc _]. congruence.
  - destruct a' as [|c' a']; simpl in *.
    + injection E as -> _. apply andb_true_iff in Ha as [Hc _]. congruence.
    + injection E as -> E. apply andb_true_iff in Ha as [_ Ha].
      apply andb_true_iff in Ha' as [_ Ha'].
      destruct (IH a' Ha Ha' Hx Hx' E) as (-> & -> & ->). auto.
Qed.

(** ** The parser *)

Import Spec Doc.

Example scenario_text :
  scenario = u16 "## A

- [ ] 1. Do X
  - sub one
  - sub two
  _Requirements: 1.1, 1.2_
".
Proof. reflexivity. Qed.

(** What the tests of spec/utils.ts expect of the sample. *)
Example sample_sections :
  List.map (fun sec => (sec_title sec, List.map id (tasks sec)))
           (parseTasks SAMPLE_TASKS_CONTENT)
  = [(u16 "Core Changes", [u16 "1"; u16 "2"; u16 "3"]);
     (u16 "Cleanup", [u16 "4"; u16 "5"]);
     (u16 "Testing", [u16 "6"])].
Proof. vm_compute. reflexivity. Qed.

Example sample_first_task :
  hd_error (getAllTasks SAMPLE_TASKS_CONTENT)
  = Some (mkTask (u16 "1")
            (u16 "1. Update trigger detection for PR descriptions")
            (u16 "- _Requirements: 1.1, 1.2, 1.3_") false []
            [u16 "Modify `src/github/validation/trigger.ts` to parse PR body text";
             u16 "Add `@usta execute <file_path>` pattern matching";
             u16 "Support multiple triggers in PR descriptions"]).
Proof. vm_compute. reflexivity. Qed.

Example sample_incomplete :
  List.map id (getIncompleteTasks SAMPLE_TASKS_CONTENT)
  = [u16 "1"; u16 "3"; u16 "5"; u16 "6"] /\
  option_map id (getNextTask SAMPLE_TASKS_CONTENT) = Some (u16 "1") /\
  option_map title (getTaskById SAMPLE_TASKS_CONTENT (u16 "3"))
  = Some (u16 "3. Simplify Claude Code execution") /\
  getTaskById SAMPLE_TASKS_CONTENT (u16 "999") = None.
Proof. repeat split; vm_compute; reflexivity. Qed.

Example empty_file : parseTasks [] = [].
Proof. reflexivity. Qed.

Example tasks_without_numbers :
  List.map id
    (getAllTasks
       (join newline [u16 "## Section"; u16 "";
                      u16 "- [ ] Task without number"; u16 "- [x] Another task"]))
  = [u16 "Task"; u16 "Another"].
Proof. vm_compute. reflexivity. Qed.

(** C4: the scenario document parses to exactly one section titled "A"
    holding exactly one task, with id "1", title "1. Do X", not
    completed, the subtasks "sub one" and "sub two" and the
    requirements "1.1" and "1.2" (and an empty description). *)
Theorem C4_scenario_parse :
  parseTasks scenario =
  [mkSection (u16 "A")
     [mkTask (u16 "1") (u16 "1. Do X") [] false
        [u16 "1.1"; u16 "1.2"] [u16 "sub one"; u16 "sub two"]]].
Proof. vm_compute. reflexivity. Qed.

Lemma parseLines_app (st : pstate) (l1 l2 : list (list N)) :
  parseLines st (l1 ++ l2) = parseLines (parseLines st l1) l2.
Proof. apply fold_left_app. Qed.

(** While no heading has been read there is no section, open or
    closed. *)
Lemma parseLine_no_section (ct : option Task) (line : list N) :
  isHeading line = false ->
  exists ct', parseLine (mkPState [] None ct) line = mkPState [] None ct'.
Proof.
  intros H. unfold parseLine. rewrite H.
  destruct (exec taskLineRe line) as [m|].
  - simpl. destruct ct; simpl;
      destruct (m_caps m !! 3%nat) as [tt|]; try destruct (truthy tt); eauto.
  - simpl. destruct ct as [t|]; [|eauto].
    destruct (exec indentRe line); eauto.
Qed.

Lemma parseLines_no_section (pre : list (list N)) :
  forall ct,
  forallb (fun l => negb (isHeading l)) pre = true ->
  exists ct', parseLines (mkPState [] None ct) pre = mkPState [] None ct'.
Proof.
  induction pre as [|l pre IH]; intros ct H; simpl in *; [eauto|].
  apply andb_true_iff in H as [Hl Hpre]. apply negb_true_iff in Hl.
  destruct (parseLine_no_section ct l Hl) as [ct1 ->]. apply IH, Hpre.
Qed.

(** A heading read while there is no section starts from scratch,
    whatever task was being read. *)
Lemma parseLine_first_heading (ct : option Task) (h : list N) :
  isHeading h = true ->
  parseLine (mkPState [] None ct) h = parseLine (mkPState [] None None) h.
Proof.
  intros H. unfold parseLine. rewrite H. destruct ct; reflexivity.
Qed.

Lemma parseDoc_drops_prefix (pre rest : list (list N)) :
  forallb (fun l => negb (isHeading l)) pre = true ->
  match rest with [] => True | h :: _ => isHeading h = true end ->
  parseDoc (pre ++ rest) = parseDoc rest.
Proof.
  intros Hpre Hrest. unfold parseDoc. rewrite parseLines_app.
  destruct (parseLines_no_section pre None Hpre) as [ct ->].
  destruct rest as [|h rest]; simpl.
  - unfold finish, sectionsOf. simpl. destruct ct; reflexivity.
  - rewrite parseLine_first_heading by exact Hrest. reflexivity.
Qed.

(** C10: the lines before the first section heading leave no trace in
    the parse result.  When the lines of a document are [pre ++ rest],
    with no heading in [pre] and [rest] empty or starting with a
    heading, the parser returns what it returns for [rest] alone: a
    task whose checkbox line is in [pre] is in no section, and so it is
    not among the tasks that [getAllTasks], [getNextTask] and
    [getTaskById] look through. *)
Theorem C10_tasks_before_first_heading_dropped :
  forall (content : list N) (pre rest : list (list N)),
    split 10 content = pre ++ rest ->
    forallb (fun l => negb (isHeading l)) pre = true ->
    match rest with [] => True | h :: _ => isHeading h = true end ->
    parseTasks content = parseDoc rest /\
    getAllTasks content = List.concat (List.map tasks (parseDoc rest)) /\
    getNextTask content =
      List.find (fun t => negb (completed t))
                (List.concat (List.map tasks (parseDoc rest))) /\
    (forall taskId,
       getTaskById content taskId =
         List.find (fun t => jseq (id t) taskId)
                   (List.concat (List.map tasks (parseDoc rest)))).
Proof.
  intros content pre rest Hsplit Hpre Hrest.
  assert (E : parseTasks content = parseDoc rest).
  { unfold parseTasks. rewrite Hsplit. apply parseDoc_drops_prefix; assumption. }
  unfold getNextTask, getTaskById, getAllTasks. rewrite E. auto.
Qed.

Lemma C10_witness :
  parseTasks orphaned = parseDoc [u16 "## A"; u16 "- [ ] 2. kept"] /\
  getAllTasks orphaned =
    [mkTask (u16 "2") (u16 "2. kept") [] false [] []].
Proof.
  destruct (C10_tasks_before_first_heading_dropped orphaned
              [u16 "- [ ] 1. orphan"] [u16 "## A"; u16 "- [ ] 2. kept"])
    as (H1 & H2 & _); [reflexivity | reflexivity | reflexivity |].
  split; [exact H1|]. rewrite H2. vm_compute. reflexivity.
Defined.

(** ** Checkbox lines *)

Lemma isSpace_rbracket : isSpace 93 = false.
Proof. reflexivity. Qed.

Lemma unchecked_sound (line : list N) (m : rmatch_result) :
  exec uncheckedRe line = Some m ->
  exists ws taskTitle,
    UncheckedBox line ws taskTitle /\ m_caps m !! 1%nat = Some taskTitle.
Proof.
  intros H. apply exec_anchored_sound in H as (b' & used & s' & _ & M & _).
  cbn [matches] in M.
  destruct M as (b1 & s1 & c1 & M1 & b2 & s2 & c2 & M2 & b3 & s3 & c3 & M3
                 & b4 & s4 & c4 & M4 & b5 & s5 & c5 & (c6 & M5 & E5) & M6).
  apply matches_lit in M1 as (E1 & _ & ->).
  apply matches_lit in M4 as (E4 & _ & ->).
  apply matches_plus in M5 as (run & Hne & E & Hrun & _ & ->).
  destruct M2 as (r2 & E2 & Hr2 & _ & ->).
  destruct M3 as (r3 & E3 & Hr3 & _ & ->).
  destruct M6 as (E6 & _ & _ & E7). subst.
  exists (r2 ++ r3), run. split.
  - unfold UncheckedBox. rewrite forallb_app, Hr2, Hr3.
    rewrite app_nil_r, <- !app_assoc. auto.
  - rewrite E7, take_used. apply lookup_insert_eq.
Qed.

Lemma unchecked_unique (line ws ws' t t' : list N) :
  UncheckedBox line ws t -> UncheckedBox line ws' t' -> ws = ws' /\ t = t'.
Proof.
  intros (E & Hws & _) (E' & Hws' & _). rewrite E in E'.
  apply app_inv_head in E'.
  change (u16 "] ") with ([93; 32] : list N) in E'. simpl in E'.
  destruct (span_unique isSpace ws ws' (32 :: t) (32 :: t') 93 93
              Hws Hws' isSpace_rbracket isSpace_rbracket E') as (-> & _ & [= ->]).
  auto.
Qed.

Lemma unchecked_complete (line ws taskTitle : list N) :
  UncheckedBox line ws taskTitle ->
  exists m, exec uncheckedRe line = Some m /\
            m_caps m !! 1%nat = Some taskTitle.
Proof.
  intros U.
  assert (S : is_Some (exec uncheckedRe line)).
  { destruct U as (-> & Hws & Hne & Hdot).
    apply (exec_anchored_complete _ _ false [] (<[1%nat := taskTitle]> ∅)).
    cbn [matches].
    exists false, (ws ++ u16 "] " ++ taskTitle), ∅. split.
    { apply matches_lit. auto. }
    exists false, (u16 "] " ++ taskTitle), ∅.
    split. { exists ws. repeat split; [exact Hws | destruct ws; reflexivity]. }
    exists false, (u16 "] " ++ taskTitle), ∅.
    split. { exists []. repeat split. }
    exists false, taskTitle, ∅. split. { apply matches_lit. auto. }
    exists false, [], (<[1%nat := taskTitle]> ∅). split.
    - exists ∅. split.
      + apply matches_plus. exists taskTitle. rewrite app_nil_r. auto.
      + simpl length. rewrite Nat.sub_0_r, firstn_all. reflexivity.
    - auto. }
  destruct S as [m Hm]. exists m. split; [exact Hm|].
  destruct (unchecked_sound _ _ Hm) as (ws' & t' & U' & Hc).
  destruct (unchecked_unique _ _ _ _ _ U U') as (_ & ->). exact Hc.
Qed.

(** The test of the loop of [markTaskAsCompleted], read off the line. *)
Lemma lineMatches_spec (taskId line : list N) :
  lineMatches taskId line = true <->
  exists ws taskTitle,
    UncheckedBox line ws taskTitle /\
    (taskIdFromTitle taskTitle = taskId \/ includes taskId taskTitle = true).
Proof.
  unfold lineMatches. split.
  - destruct (truthy line); [|discriminate].
    destruct (exec uncheckedRe line) as [m|] eqn:E; [|discriminate].
    destruct (unchecked_sound _ _ E) as (ws & t & U & ->).
    destruct (truthy t); [|discriminate].
    intros H. exists ws, t. split; [exact U|].
    apply orb_true_iff in H as [H|H]; [left|right; exact H].
    unfold jseq in H. apply bool_decide_eq_true in H. exact H.
  - intros (ws & t & U & H).
    assert (Hline : truthy line = true) by (destruct U as (-> & _); reflexivity).
    rewrite Hline.
    destruct (unchecked_complete _ _ _ U) as (m & -> & ->).
    assert (Ht : truthy t = true).
    { destruct U as (_ & _ & Hne & _). destruct t; [congruence|reflexivity]. }
    rewrite Ht. apply orb_true_iff. destruct H as [H|H]; [left|right; exact H].
    unfold jseq. apply bool_decide_eq_true. exact H.
Qed.

(** ** Marking a task *)

Lemma markLoop_none (taskId : list N) (rest : list (list N)) :
  forall i lines,
  (forall line, In line rest -> lineMatches taskId line = false) ->
  markLoop taskId rest i lines = None.
Proof.
  induction rest as [|l rest IH]; intros i lines H; simpl; [reflexivity|].
  rewrite (H l) by (left; reflexivity).
  apply IH. intros line Hin. apply H. right. exact Hin.
Qed.

(** C5: when no unchecked checkbox line of the document matches the
    id (its derived id is another one and its title does not contain
    the id), [markTaskAsCompleted] throws "Task with ID ... not found or
    already completed" and the file is as it was: same content, no
    write. *)
Theorem C5_mark_unmatched_fails :
  forall (f : tasksFile) (taskId : list N),
    (forall line ws taskTitle,
       In line (split 10 (content f)) ->
       UncheckedBox line ws taskTitle ->
       taskIdFromTitle taskTitle <> taskId /\
       includes taskId taskTitle = false) ->
    markTaskAsCompleted f taskId =
    (Throw (Error (u16 "Task with ID '" ++ taskId
                   ++ u16 "' not found or already completed")), f).
Proof.
  intros f taskId H. unfold markTaskAsCompleted.
  rewrite markLoop_none; [reflexivity|].
  intros line Hin. apply not_true_is_false. intros Hm.
  apply lineMatches_spec in Hm as (ws & t & U & Hid).
  destruct (H line ws t Hin U) as (Hne & Hinc).
  destruct Hid as [Hid|Hid]; congruence.
Qed.

Lemma no_match_from_test (taskId : list N) (lines : list (list N)) :
  forallb (fun l => negb (lineMatches taskId l)) lines = true ->
  forall line ws taskTitle,
    In line lines -> UncheckedBox line ws taskTitle ->
    taskIdFromTitle taskTitle <> taskId /\ includes taskId taskTitle = false.
Proof.
  intros H line ws t Hin U.
  rewrite forallb_forall in H. specialize (H line Hin).
  apply negb_true_iff in H.
  split.
  - intros E. rewrite (proj2 (lineMatches_spec taskId line)) in H;
      [discriminate | eauto].
  - apply not_true_is_false. intros E.
    rewrite (proj2 (lineMatches_spec taskId line)) in H;
      [discriminate | eauto].
Qed.

Lemma C5_witness :
  markTaskAsCompleted (mkFile sample 0) (u16 "2") =
    (Throw (Error (u16 "Task with ID '2' not found or already completed")),
     mkFile sample 0) /\
  markTaskAsCompleted (mkFile sample 0) (u16 "999") =
    (Throw (Error (u16 "Task with ID '999' not found or already completed")),
     mkFile sample 0).
Proof.
  split.
  - apply (C5_mark_unmatched_fails (mkFile sample 0) (u16 "2")).
    apply no_match_from_test. vm_compute. reflexivity.
  - apply (C5_mark_unmatched_fails (mkFile sample 0) (u16 "999")).
    apply no_match_from_test. vm_compute. reflexivity.
Defined.

(** ** Task lines *)

Lemma isSpace_x : isSpace 120 = false.
Proof. reflexivity. Qed.

Lemma isDot_digit (c : N) : isDigit c = true -> isDot c = true.
Proof.
  unfold isDigit, isDot, isLineTerminator. intros H.
  apply andb_true_iff in H as [H1 H2].
  apply N.leb_le in H1. apply N.leb_le in H2.
  repeat match goal with
         | |- context [?a =? ?b] =>
             destruct (N.eqb_spec a b); [lia|]
         end.
  reflexivity.
Qed.

Lemma isSpace_digit (c : N) : isDigit c = true -> isSpace c = false.
Proof.
  unfold isDigit, isSpace. intros H.
  apply andb_true_iff in H as [H1 H2].
  apply N.leb_le in H1. apply N.leb_le in H2.
  repeat match goal with
         | |- context [?a =? ?b] =>
             destruct (N.eqb_spec a b); [lia|]
         end.
  destruct (N.leb_spec 0x2000 c); [lia|]. reflexivity.
Qed.

(** The shape of a line that [taskLineRe] matches, and its captures. *)
Lemma taskLine_sound (line : list N) (m : rmatch_result) :
  exec taskLineRe line = Some m ->
  exists w1 c w2 np titleText,
    line = u16 "- [" ++ w1 ++ [c] ++ w2 ++ u16 "] " ++ np ++ titleText /\
    forallb isSpace w1 = true /\ (c = 32 \/ c = 120) /\
    forallb isSpace w2 = true /\
    m_caps m !! 1%nat = Some [c] /\
    m_caps m !! 3%nat = Some titleText /\
    titleText <> [] /\ forallb isDot titleText = true /\
    ((np = [] /\ m_caps m !! 2%nat = None) \/
     (exists ds, ds <> [] /\ forallb isDigit ds = true /\
                 np = ds ++ u16 ". " /\ m_caps m !! 2%nat = Some np)).
Proof.
  intros H. apply exec_anchored_sound in H as (b' & used & s' & _ & M & _).
  cbn [matches] in M.
  destruct M as (b1 & s1 & c1 & M1 & b2 & s2 & c2 & M2 & b3 & s3 & c3 & M3
                 & b4 & s4 & c4 & M4 & b5 & s5 & c5 & M5 & b6 & s6 & c6 & M6
                 & b7 & s7 & c7 & M7 & M8).
  apply matches_lit in M1 as (E1 & _ & ->).
  destruct M2 as (w1 & E2 & Hw1 & _ & ->).
  destruct M3 as (c3' & (c & E3 & Hc & _ & ->) & ->).
  destruct M4 as (w2 & E4 & Hw2 & _ & ->).
  apply matches_lit in M5 as (E5 & _ & ->).
  destruct M7 as (c7' & M7 & ->).
  apply matches_plus in M7 as (tt & Hne & E7 & Htt & _ & ->).
  destruct M8 as (E8 & _ & _ & E9).
  assert (Hc' : c = 32 \/ c = 120).
  { apply orb_true_iff in Hc as [Hc|Hc]; apply N.eqb_eq in Hc; auto. }
  assert (Ecap1 : take (length s2 - length s3) s2 = [c]).
  { rewrite E3. simpl length.
    replace (S (length s3) - length s3)%nat with 1%nat by lia. reflexivity. }
  rewrite Ecap1 in *. subst s7. rewrite app_nil_r in E7.
  assert (Ecap3 : take (length s6 - length (@nil N)) s6 = tt).
  { rewrite E7. simpl length. rewrite Nat.sub_0_r. apply firstn_all. }
  rewrite Ecap3 in E9.
  destruct M6 as [M6 | (_ & E6 & ->)].
  - destruct M6 as (c6' & (bx & sx & cx & M6a & M6b) & ->).
    apply matches_plus in M6a as (ds & Hds & E6a & Hdig & _ & ->).
    apply matches_lit in M6b as (E6b & _ & ->).
    assert (Ecap2 : take (length s5 - length s6) s5 = ds ++ u16 ". ").
    { rewrite E6a, E6b. rewrite (app_assoc ds). apply take_used. }
    rewrite Ecap2 in E9.
    exists w1, c, w2, (ds ++ u16 ". "), tt.
    rewrite E9. subst. rewrite <- !app_assoc. simplify_map_eq.
    repeat split; auto. right. exists ds. auto.
  - exists w1, c, w2, [], tt.
    rewrite E9. subst. simplify_map_eq.
    repeat split; auto.
Qed.

Lemma completed_taskOfMatch (m : rmatch_result) (c : N) :
  m_caps m !! 1%nat = Some [c] ->
  completed (taskOfMatch m) = bool_decide (c = 120).
Proof.
  intros H. unfold taskOfMatch, newTask. rewrite H. simpl. unfold jseq.
  change (u16 "x") with [120]. apply bool_decide_ext.
  split; [intros [= ->]; reflexivity | intros ->; reflexivity].
Qed.

(** A checked line is the line of a completed task. *)
Lemma taskLine_checked (taskTitle : list N) :
  taskTitle <> [] -> forallb isDot taskTitle = true ->
  exists m, exec taskLineRe (checkedLine taskTitle) = Some m /\
            completed (taskOfMatch m) = true.
Proof.
  intros Hne Hdot.
  assert (S : is_Some (exec taskLineRe (checkedLine taskTitle))).
  { apply (exec_anchored_complete _ _ false []
             (<[3%nat := taskTitle]> (<[1%nat := [120]]> ∅))).
    cbn [matches].
    exists false, (u16 "x] " ++ taskTitle), ∅. split.
    { apply matches_lit. auto. }
    exists false, (u16 "x] " ++ taskTitle), ∅. split.
    { exists []. auto. }
    exists false, (u16 "] " ++ taskTitle), (<[1%nat := [120]]> ∅). split.
    { exists ∅. split; [exists 120; auto|]. f_equal.
      change (u16 "x] " ++ taskTitle) with ([120] ++ (u16 "] " ++ taskTitle)).
      symmetry. apply take_used. }
    exists false, (u16 "] " ++ taskTitle), (<[1%nat := [120]]> ∅). split.
    { exists []. auto. }
    exists false, taskTitle, (<[1%nat := [120]]> ∅). split.
    { apply matches_lit. auto. }
    exists false, taskTitle, (<[1%nat := [120]]> ∅). split.
    { right. auto. }
    exists false, [], (<[3%nat := taskTitle]> (<[1%nat := [120]]> ∅)). split.
    - exists (<[1%nat := [120]]> ∅). split.
      + apply matches_plus. exists taskTitle. rewrite app_nil_r. auto.
      + simpl length. rewrite Nat.sub_0_r, firstn_all. reflexivity.
    - auto. }
  destruct S as [m Hm]. exists m. split; [exact Hm|].
  destruct (taskLine_sound _ _ Hm)
    as (w1 & c & w2 & np & tt & E & Hw1 & Hc & _ & Hc1 & _).
  rewrite (completed_taskOfMatch m c Hc1). apply bool_decide_eq_true.
  unfold checkedLine in E. change (u16 "- [x] ") with (u16 "- [" ++ [120; 93; 32]) in E.
  rewrite <- app_assoc in E. apply app_inv_head in E.
  destruct w1 as [|a w1]; simpl in E.
  - injection E as <- _. reflexivity.
  - injection E as <- _. simpl in Hw1. discriminate Hw1.
Qed.

(** An unchecked line is not the line of a completed task. *)
Lemma unchecked_not_completed (line ws taskTitle : list N) (m : rmatch_result) :
  UncheckedBox line ws taskTitle ->
  exec taskLineRe line = Some m ->
  completed (taskOfMatch m) = false.
Proof.
  intros (E & Hws & _) Hm.
  destruct (taskLine_sound _ _ Hm)
    as (w1 & c & w2 & np & tt & E' & Hw1 & Hc & _ & Hc1 & _).
  rewrite (completed_taskOfMatch m c Hc1). apply bool_decide_eq_false.
  intros ->. rewrite E in E'. apply app_inv_head in E'.
  change (u16 "] ") with [93; 32] in E'. simpl in E'.
  destruct (span_unique isSpace ws w1 _ _ 93 120 Hws Hw1
              isSpace_rbracket isSpace_x E') as (_ & [=] & _).
Qed.

Lemma replaceStr_dot (ds rest : list N) :
  forallb isDigit ds = true ->
  replaceStr (u16 ".") [] (ds ++ u16 "." ++ rest) = ds ++ rest.
Proof.
  intros H. induction ds as [|d ds IH]; [reflexivity|].
  simpl in H. apply andb_true_iff in H as [Hd Hds].
  change ((d :: ds) ++ u16 "." ++ rest) with (d :: (ds ++ u16 "." ++ rest)).
  cbn [replaceStr].
  assert (Hsw : startsWith (u16 ".") (d :: ds ++ u16 "." ++ rest) = false).
  { change (u16 ".") with [46]. cbn [startsWith].
    destruct (N.eqb_spec 46 d) as [<-|]; [discriminate Hd|reflexivity]. }
  rewrite Hsw, IH by exact Hds. reflexivity.
Qed.

Lemma dropWhile_head (p : N -> bool) (c : N) (s : list N) :
  p c = false -> dropWhile p (c :: s) = c :: s.
Proof. intros H. simpl. rewrite H. reflexivity. Qed.

Lemma trim_digits (ds : list N) :
  ds <> [] -> forallb isDigit ds = true -> trim (ds ++ u16 " ") = ds.
Proof.
  intros Hne H. unfold trim.
  assert (E1 : dropWhile isSpace (ds ++ u16 " ") = ds ++ [32]).
  { destruct ds as [|d ds]; [congruence|].
    simpl in H. apply andb_true_iff in H as [Hd _].
    apply (dropWhile_head isSpace d (ds ++ [32])), isSpace_digit, Hd. }
  rewrite E1, rev_app_distr.
  change (rev [32] ++ rev ds) with (32 :: rev ds).
  remember (rev ds) as X eqn:EX.
  assert (E2 : dropWhile isSpace (32 :: X) = X).
  { destruct X as [|e r]; [reflexivity|].
    assert (He : isSpace e = false).
    { apply isSpace_digit. rewrite forallb_forall in H. apply H.
      apply in_rev. rewrite <- EX. left. reflexivity. }
    cbn [dropWhile]. change (isSpace 32) with true. cbv iota. rewrite He.
    reflexivity. }
  rewrite E2, EX. apply rev_involutive.
Qed.

Lemma split_hd_prefix (sep : N) (s : list N) :
  exists rest, s = hd [] (split sep s) ++ rest.
Proof.
  induction s as [|c s IH]; simpl.
  - exists []. reflexivity.
  - destruct (N.eqb_spec c sep).
    + exists (c :: s). reflexivity.
    + destruct IH as [rest IH]. destruct (split sep s) as [|p ps]; simpl in *.
      * exists s. reflexivity.
      * exists rest. rewrite <- IH. reflexivity.
Qed.

(** The id the parser gives to the task of a line occurs in the title
    [markTaskAsCompleted] reads on that line. *)
Lemma taskLine_open_matches (line : list N) (m : rmatch_result) :
  exec taskLineRe line = Some m ->
  completed (taskOfMatch m) = false ->
  lineMatches (id (taskOfMatch m)) line = true.
Proof.
  intros Hm Hopen.
  destruct (taskLine_sound _ _ Hm)
    as (w1 & c & w2 & np & tt & E & Hw1 & Hc & Hw2 & Hc1 & Hc3 & Hne & Hdot & Hnp).
  rewrite (completed_taskOfMatch m c Hc1) in Hopen.
  apply bool_decide_eq_false in Hopen.
  destruct Hc as [-> | ->]; [|congruence].
  apply lineMatches_spec. exists (w1 ++ [32] ++ w2), (np ++ tt). split.
  - unfold UncheckedBox. rewrite E, <- !app_assoc. split; [reflexivity|].
    rewrite !forallb_app, Hw1, Hw2. split; [reflexivity|].
    split; [destruct np; [exact Hne | discriminate]|].
    rewrite Hdot, andb_true_r.
    destruct Hnp as [(-> & _)|(ds & _ & Hds & -> & _)]; [reflexivity|].
    rewrite forallb_app, andb_true_iff. split; [|reflexivity].
    rewrite forallb_forall in Hds |- *. intros x Hx. apply isDot_digit, Hds, Hx.
  - right. unfold taskOfMatch, newTask. rewrite Hc3. simpl default.
    destruct Hnp as [(-> & ->) | (ds & Hdne & Hds & -> & ->)].
    + simpl truthy. cbv iota. simpl app.
      destruct (split_hd_prefix 32 tt) as [rest Hrest].
      destruct (truthy (hd [] (split 32 tt))); simpl id.
      * rewrite Hrest at 2. apply includes_prefix.
      * apply includes_refl.
    + assert (Htr : truthy (ds ++ u16 ". ") = true)
        by (destruct ds; [congruence|reflexivity]).
      rewrite Htr. simpl id.
      change (u16 ". ") with (u16 "." ++ u16 " ").
      rewrite replaceStr_dot by exact Hds.
      rewrite trim_digits by assumption.
      rewrite <- app_assoc. apply includes_prefix.
Qed.

(** ** Counting the completed tasks of a document *)

Lemma completedCount_app (a b : list Task) :
  completedCount (a ++ b) = (completedCount a + completedCount b)%nat.
Proof. unfold completedCount. rewrite List.filter_app. apply length_app. Qed.

Lemma tasks_app (a b : list TaskSection) :
  List.concat (List.map tasks (a ++ b))
  = List.concat (List.map tasks a) ++ List.concat (List.map tasks b).
Proof. rewrite List.map_app. apply List.concat_app. Qed.

Lemma countOf_eq (st : pstate) :
  countOf st =
  (completedCount (List.concat (List.map tasks (closed st)))
   + match currentSection st with
     | Some sec =>
         completedCount (tasks sec)
         + match currentTask st with
           | Some t => if completed t then 1 else 0
           | None => 0
           end
     | None => 0
     end)%nat.
Proof.
  unfold countOf, finish, sectionsOf.
  destruct (currentTask st) as [t|], (currentSection st) as [sec|];
    rewrite tasks_app, completedCount_app; simpl;
    rewrite ?app_nil_r, ?completedCount_app; unfold completedCount; simpl;
    try destruct (completed t); simpl; lia.
Qed.

Lemma taskLine_title (line : list N) (m : rmatch_result) :
  exec taskLineRe line = Some m ->
  exists tt, m_caps m !! 3%nat = Some tt /\ truthy tt = true.
Proof.
  intros H. destruct (taskLine_sound _ _ H)
    as (w1 & c & w2 & np & tt & _ & _ & _ & _ & _ & H3 & Hne & _).
  exists tt. split; [exact H3|]. destruct tt; [congruence|reflexivity].
Qed.

(** What the loop does with a task line. *)
Lemma parseLine_task (st : pstate) (line : list N) (m : rmatch_result) :
  isHeading line = false ->
  exec taskLineRe line = Some m ->
  parseLine st line = mkPState (closed st) (flushTask st) (Some (taskOfMatch m)).
Proof.
  intros Hh Hm. unfold parseLine. rewrite Hh, Hm.
  destruct (taskLine_title _ _ Hm) as (tt & H3 & Ht).
  unfold taskOfMatch. rewrite H3, Ht. reflexivity.
Qed.

Lemma continuation_completed (t : Task) (line : list N) :
  completed (continuation t line) = completed t /\
  id (continuation t line) = id t.
Proof.
  unfold continuation.
  destruct (startsWith (u16 "_Requirements:") (trim line)); [auto|].
  destruct (startsWith (u16 "- ") (trim line)
            && negb (startsWith (u16 "- _") (trim line))); [auto|].
  destruct (negb (Nat.eqb (length (trim line)) 0)); auto.
Qed.

Lemma parseLine_count (st : pstate) (line : list N) :
  countOf (parseLine st line) = (countOf st + gain (hasSection st) line)%nat /\
  hasSection (parseLine st line) = hasSection st || isHeading line.
Proof.
  unfold gain. destruct (isHeading line) eqn:Hh.
  - unfold parseLine. rewrite Hh. rewrite !countOf_eq. unfold hasSection.
    simpl. rewrite orb_true_r. split; [|reflexivity].
    rewrite tasks_app, completedCount_app. unfold flushTask, pushTask.
    destruct (currentTask st) as [t|], (currentSection st) as [sec|]; simpl;
      rewrite ?app_nil_r, ?completedCount_app; unfold completedCount; simpl;
      try destruct (completed t); simpl; lia.
  - rewrite orb_false_r.
    destruct (exec taskLineRe line) as [m|] eqn:Hm.
    + rewrite (parseLine_task st line m Hh Hm). rewrite !countOf_eq.
      unfold hasSection, flushTask, pushTask. simpl.
      destruct (currentTask st) as [t|], (currentSection st) as [sec|]; simpl;
        rewrite ?completedCount_app; unfold completedCount; simpl;
        try destruct (completed t); destruct (completed (taskOfMatch m));
        simpl; auto with lia.
    + unfold parseLine. rewrite Hh, Hm.
      destruct (currentTask st) as [t|] eqn:Ht; [|split; [lia|reflexivity]].
      destruct (exec indentRe line); [|split; [lia|reflexivity]].
      rewrite !countOf_eq. unfold hasSection. simpl. rewrite Ht.
      destruct (continuation_completed t line) as [-> _].
      split; [lia|reflexivity].
Qed.

Lemma parseLines_count (lines : list (list N)) :
  forall st,
  countOf (parseLines st lines) = (countOf st + gains (hasSection st) lines)%nat.
Proof.
  induction lines as [|l lines IH]; intros st; simpl; [lia|].
  rewrite IH. destruct (parseLine_count st l) as [-> ->]. lia.
Qed.

(** The number of completed tasks of a document, read off its lines. *)
Lemma completedCount_lines (content : list N) :
  completedCount (getAllTasks content) = gains false (split 10 content).
Proof.
  unfold getAllTasks, parseTasks, parseDoc.
  change (completedCount _) with
    (countOf (parseLines (mkPState [] None None) (split 10 content))).
  rewrite parseLines_count. reflexivity.
Qed.

(** ** Every task of the result starts at a task line *)

Lemma stateTasks_eq (st : pstate) (t : Task) :
  In t (stateTasks st) <->
  In t (List.concat (List.map tasks (closed st))) \/
  (exists sec, currentSection st = Some sec /\ In t (tasks sec)) \/
  currentTask st = Some t.
Proof.
  unfold stateTasks, sectionsOf. rewrite tasks_app, !in_app_iff.
  destruct (currentSection st) as [sec|], (currentTask st) as [t'|]; simpl;
    rewrite ?app_nil_r; split; intros H;
    repeat match goal with
           | H : _ \/ _ |- _ => destruct H
           | H : exists _, _ |- _ => destruct H as (? & ? & ?)
           | H : False |- _ => destruct H
           | H : Some _ = Some _ |- _ => injection H as ->
           | H : None = Some _ |- _ => discriminate H
           end; subst; eauto 6.
Qed.

Lemma flushTask_tasks (st : pstate) (t : Task) (sec : TaskSection) :
  flushTask st = Some sec -> In t (tasks sec) -> In t (stateTasks st).
Proof.
  unfold flushTask, pushTask. intros H Hin. apply stateTasks_eq.
  destruct (currentTask st) as [t'|], (currentSection st) as [sec'|];
    try discriminate; injection H as <-; simpl in Hin.
  - apply in_app_iff in Hin as [Hin|[->|[]]]; eauto.
  - eauto.
Qed.

Lemma parseLine_tasks (st : pstate) (line : list N) (t : Task) :
  In t (stateTasks (parseLine st line)) ->
  (exists t0, In t0 (stateTasks st) /\
              id t = id t0 /\ completed t = completed t0) \/
  (exists m, exec taskLineRe line = Some m /\ t = taskOfMatch m).
Proof.
  intros H. destruct (isHeading line) eqn:Hh.
  - left. exists t. split; [|auto]. unfold parseLine in H. rewrite Hh in H.
    apply stateTasks_eq in H. simpl in H.
    destruct H as [H|[(sec & [= <-] & [])|[=]]].
    rewrite tasks_app, in_app_iff in H. destruct H as [H|H].
    + apply stateTasks_eq. auto.
    + destruct (flushTask st) as [sec|] eqn:Hf; simpl in H; [|destruct H].
      rewrite app_nil_r in H. eapply flushTask_tasks; eauto.
  - destruct (exec taskLineRe line) as [m|] eqn:Hm.
    + rewrite (parseLine_task st line m Hh Hm) in H.
      apply stateTasks_eq in H. simpl in H.
      destruct H as [H|[(sec & Hsec & H)|[= <-]]].
      * left. exists t. split; [apply stateTasks_eq|]; auto.
      * left. exists t. split; [eapply flushTask_tasks; eauto|auto].
      * right. eauto.
    + left. unfold parseLine in H. rewrite Hh, Hm in H.
      destruct (currentTask st) as [t'|] eqn:Ht; [|eauto].
      destruct (exec indentRe line); [|eauto].
      apply stateTasks_eq in H. simpl in H.
      destruct H as [H|[(sec & Hsec & H)|[= <-]]].
      * exists t. split; [apply stateTasks_eq|]; auto.
      * exists t. split; [apply stateTasks_eq|]; eauto.
      * exists t'. split; [apply stateTasks_eq; auto|].
        destruct (continuation_completed t' line). auto.
Qed.

Lemma parseLines_tasks (lines : list (list N)) :
  forall (st : pstate) (t : Task),
  In t (stateTasks (parseLines st lines)) ->
  (exists t0, In t0 (stateTasks st) /\
              id t = id t0 /\ completed t = completed t0) \/
  startsAt lines (id t) (completed t).
Proof.
  induction lines as [|l lines IH]; intros st t H; simpl in H.
  - left. eauto.
  - apply IH in H as [(t0 & H0 & Hid & Hc)|(line & m & Hin & Hm & E1 & E2)].
    + apply parseLine_tasks in H0 as [(t1 & H1 & Hid1 & Hc1)|(m & Hm & ->)].
      * left. exists t1. split; [exact H1|]. split; congruence.
      * right. exists l, m. rewrite Hid, Hc. simpl. auto.
    + right. exists line, m. simpl. auto.
Qed.

Lemma finish_tasks (st : pstate) (t : Task) :
  In t (List.concat (List.map tasks (finish st))) -> In t (stateTasks st).
Proof.
  unfold finish. intros H. apply stateTasks_eq.
  destruct (currentTask st) as [t'|] eqn:Ht, (currentSection st) as [sec|] eqn:Hs;
    unfold sectionsOf in H; rewrite ?Hs in H;
    rewrite tasks_app, in_app_iff in H; simpl in H; rewrite ?app_nil_r in H;
    destruct H as [H|H]; auto; try (destruct H; fail).
  - apply in_app_iff in H as [H|[->|[]]]; eauto.
  - eauto.
Qed.

Lemma getAllTasks_origin (content : list N) (t : Task) :
  In t (getAllTasks content) ->
  startsAt (split 10 content) (id t) (completed t).
Proof.
  intros H. apply finish_tasks, parseLines_tasks in H.
  destruct H as [(t0 & H0 & _)|H]; [|exact H].
  apply stateTasks_eq in H0. simpl in H0.
  destruct H0 as [[]|[(sec & [=] & _)|[=]]].
Qed.

(** ** Lines of a document *)

Lemma split_single (sep : N) (p : list N) :
  ~ In sep p -> split sep p = [p].
Proof.
  induction p as [|c p IH]; intros H; simpl; [reflexivity|].
  destruct (N.eqb_spec c sep) as [->|Hc]; [exfalso; apply H; left; reflexivity|].
  rewrite IH; [reflexivity|]. intros Hin. apply H. right. exact Hin.
Qed.

Lemma split_app_sep (sep : N) (p s : list N) :
  ~ In sep p -> split sep (p ++ sep :: s) = p :: split sep s.
Proof.
  induction p as [|c p IH]; intros H; simpl.
  - rewrite N.eqb_refl. reflexivity.
  - destruct (N.eqb_spec c sep) as [->|Hc]; [exfalso; apply H; left; reflexivity|].
    rewrite IH; [reflexivity|]. intros Hin. apply H. right. exact Hin.
Qed.

Lemma split_join (ls : list (list N)) :
  ls <> [] -> (forall l, In l ls -> ~ In 10 l) ->
  split 10 (join newline ls) = ls.
Proof.
  induction ls as [|p ls IH]; intros Hne H; [congruence|].
  destruct ls as [|q ls].
  - simpl. apply split_single, H. left. reflexivity.
  - change (join newline (p :: q :: ls))
      with (p ++ 10 :: join newline (q :: ls)).
    rewrite split_app_sep by (apply H; left; reflexivity).
    rewrite IH; [reflexivity|discriminate|].
    intros l Hl. apply H. right. exact Hl.
Qed.

Lemma split_no_sep (sep : N) (s : list N) :
  forall l, In l (split sep s) -> ~ In sep l.
Proof.
  induction s as [|c s IH]; simpl; intros l Hl.
  - destruct Hl as [<-|[]]. intros [].
  - destruct (N.eqb_spec c sep) as [->|Hc].
    + destruct Hl as [<-|Hl]; [intros []|apply IH, Hl].
    + destruct (split sep s) as [|p ps] eqn:E.
      * destruct Hl as [<-|[]]. intros [E'|[]]. congruence.
      * destruct Hl as [<-|Hl].
        -- intros [E'|Hin]; [congruence|].
           apply (IH p); [left; reflexivity|exact Hin].
        -- apply IH. right. exact Hl.
Qed.

Lemma isDot_no_newline (s : list N) :
  forallb isDot s = true -> ~ In 10 s.
Proof.
  intros H Hin. rewrite forallb_forall in H. apply H in Hin. discriminate Hin.
Qed.

(** ** Checking the box *)

Lemma matchAt_sound (r : regex) (bol : bool) (s s' : list N)
    (c : gmap nat (list N)) :
  matchAt r bol s = Some (s', c) -> exists b', matches r bol s ∅ b' s' c.
Proof.
  unfold matchAt. intros H.
  apply rmatch_sound in H as (b' & s1 & c1 & M & [= -> ->]). eauto.
Qed.

Lemma matchAt_complete (r : regex) (bol : bool) (s : list N) b' s' c' :
  matches r bol s ∅ b' s' c' -> is_Some (matchAt r bol s).
Proof.
  intros M. unfold matchAt.
  eapply (rmatch_complete r bol s ∅ (fun _ s' c => Some (s', c))); eauto.
Qed.

Lemma search_unfold (r : regex) (bol : bool) (idx : nat) (s : list N) :
  search r bol idx s =
  match matchAt r bol s with
  | Some (s', c) => Some (MatchResult idx (take (length s - length s') s) c)
  | None => match s with
            | [] => None
            | _ :: s' => search r false (S idx) s'
            end
  end.
Proof. destruct s; reflexivity. Qed.

(** [line.replace(/- \[\s*\s*\]/, "- [x]")] on an unchecked line. *)
Lemma replace_box (line ws taskTitle : list N) :
  UncheckedBox line ws taskTitle ->
  replace boxRe (u16 "- [x]") line = checkedLine taskTitle.
Proof.
  intros (E & Hws & Hne & Hdot).
  assert (S : is_Some (matchAt boxRe true line)).
  { apply (matchAt_complete _ _ _ false (32 :: taskTitle) ∅).
    unfold boxRe. cbn [matches].
    exists false, (ws ++ u16 "] " ++ taskTitle), ∅. split.
    { apply matches_lit. rewrite E. auto. }
    exists false, (u16 "] " ++ taskTitle), ∅. split.
    { exists ws. repeat split; [exact Hws | destruct ws; reflexivity]. }
    exists false, (u16 "] " ++ taskTitle), ∅. split.
    { exists []. repeat split. }
    apply matches_lit. auto. }
  destruct S as [[s' c] Hm].
  assert (Es : s' = 32 :: taskTitle).
  { apply matchAt_sound in Hm as (b' & M). unfold boxRe in M. cbn [matches] in M.
    destruct M as (b1 & s1 & c1 & M1 & b2 & s2 & c2 & (r2 & E2 & Hr2 & _)
                   & b3 & s3 & c3 & (r3 & E3 & Hr3 & _) & M4).
    apply matches_lit in M1 as (E1 & _). apply matches_lit in M4 as (E4 & _).
    rewrite E in E1. apply app_inv_head in E1. subst s1 s2 s3.
    change (u16 "] ") with [93; 32] in E2. change (u16 "]") with [93] in E2.
    simpl in E2. rewrite app_assoc in E2.
    assert (Hr : forallb isSpace (r2 ++ r3) = true)
      by (rewrite forallb_app, Hr2, Hr3; reflexivity).
    destruct (span_unique isSpace ws (r2 ++ r3) _ _ 93 93 Hws Hr
                isSpace_rbracket isSpace_rbracket E2) as (_ & _ & <-).
    reflexivity. }
  subst s'.
  unfold replace, exec. rewrite search_unfold, Hm. simpl m_index. simpl m_text.
  assert (El : line = (u16 "- [" ++ ws ++ u16 "]") ++ 32 :: taskTitle).
  { rewrite E, <- !app_assoc. reflexivity. }
  rewrite El at 1 2 3 4. rewrite take_used.
  rewrite Nat.add_0_l, drop_app_length. reflexivity.
Qed.

(** The loop of [markTaskAsCompleted] stops at the first line that
    passes its test. *)
Lemma markLoop_first (taskId : list N) (rest : list (list N)) :
  forall (i : nat) (lines : list (list N)),
  (exists l, In l rest /\ lineMatches taskId l = true) ->
  exists l1 l l2,
    rest = l1 ++ l :: l2 /\ lineMatches taskId l = true /\
    markLoop taskId rest i lines
    = Some (<[(i + length l1)%nat := replace boxRe (u16 "- [x]") l]> lines).
Proof.
  induction rest as [|x rest IH]; intros i lines (l & Hin & Hl).
  - destruct Hin.
  - simpl. destruct (lineMatches taskId x) eqn:Hx.
    + exists [], x, rest. simpl. rewrite Nat.add_0_r. auto.
    + destruct Hin as [->|Hin]; [congruence|].
      destruct (IH (S i) lines) as (l1 & l' & l2 & -> & Hl' & ->); [eauto|].
      exists (x :: l1), l', l2. simpl.
      replace (i + S (length l1))%nat with (S i + length l1)%nat by lia. auto.
Qed.

(** ** Marking a task and parsing again *)

Lemma gains_app (l1 l2 : list (list N)) :
  forall b,
  gains b (l1 ++ l2)
  = (gains b l1 + gains (b || existsb isHeading l1) l2)%nat.
Proof.
  induction l1 as [|a l1 IH]; intros b; simpl.
  - rewrite orb_false_r. reflexivity.
  - rewrite IH, orb_assoc. lia.
Qed.

Lemma heading_before (l1 : list (list N)) (l : list N) (l2 : list (list N)) :
  tasksInSections (l1 ++ l :: l2) = true ->
  isHeading l = false -> isCheckbox l = true ->
  existsb isHeading l1 = true.
Proof.
  intros H Hh Hc. induction l1 as [|a l1 IH]; simpl in *.
  - rewrite Hh, Hc in H. discriminate H.
  - destruct (isHeading a); [reflexivity|].
    apply andb_true_iff in H as [_ H]. apply IH, H.
Qed.

Lemma unchecked_is_checkbox (line ws taskTitle : list N) :
  UncheckedBox line ws taskTitle ->
  isCheckbox line = true /\ isHeading line = false.
Proof.
  intros U. split.
  - unfold isCheckbox. apply orb_true_iff. right. apply bool_decide_eq_true.
    destruct (unchecked_complete _ _ _ U) as (m & -> & _). eauto.
  - destruct U as (-> & _). reflexivity.
Qed.

Lemma gain_unchecked (b : bool) (line ws taskTitle : list N) :
  UncheckedBox line ws taskTitle -> gain b line = 0%nat.
Proof.
  intros U. unfold gain.
  destruct (unchecked_is_checkbox _ _ _ U) as [_ ->].
  destruct (exec taskLineRe line) as [m|] eqn:Hm; [|reflexivity].
  rewrite (unchecked_not_completed _ _ _ _ U Hm), andb_false_r. reflexivity.
Qed.

Lemma gain_checked (taskTitle : list N) :
  taskTitle <> [] -> forallb isDot taskTitle = true ->
  gain true (checkedLine taskTitle) = 1%nat.
Proof.
  intros Hne Hdot. unfold gain.
  change (isHeading (checkedLine taskTitle)) with false. cbv iota.
  destruct (taskLine_checked taskTitle Hne Hdot) as (m & -> & ->). reflexivity.
Qed.

(** C3: in a checklist whose checkbox lines all come after a section
    heading, take a task of the parse result that is not completed and
    call [markTaskAsCompleted] with its id.  The call succeeds and
    writes the file once.  Parsing the new content gives exactly one
    more completed task than before.  The lines of the new content are
    the lines of the old one except at one index [i], where an
    unchecked checkbox line ["- [" ws "] " title] (white space only
    between the brackets) has become ["- [x] " title]. *)
Theorem C3_mark_roundtrip :
  forall (content : list N) (n : nat) (t : Task),
    validChecklist content = true ->
    In t (getAllTasks content) ->
    completed t = false ->
    exists (i : nat) (ws taskTitle content' : list N),
      markTaskAsCompleted (mkFile content n) (id t)
        = (Ok tt, mkFile content' (S n)) /\
      completedCount (getAllTasks content')
        = S (completedCount (getAllTasks content)) /\
      split 10 content !! i = Some (u16 "- [" ++ ws ++ u16 "] " ++ taskTitle) /\
      forallb isSpace ws = true /\
      split 10 content' = <[i := u16 "- [x] " ++ taskTitle]> (split 10 content).
Proof.
  intros content n t Hvalid Hin Hopen.
  destruct (getAllTasks_origin content t Hin) as (line & m & Hline & Hm & Hid & Hc).
  rewrite Hopen in Hc. symmetry in Hc.
  pose proof (taskLine_open_matches line m Hm Hc) as Hmatch.
  rewrite <- Hid in Hmatch.
  destruct (markLoop_first (id t) (split 10 content) 0 (split 10 content))
    as (l1 & l & l2 & Elines & Hl & Hloop); [eauto|].
  apply lineMatches_spec in Hl as (ws & taskTitle & U & _).
  rewrite (replace_box l ws taskTitle U) in Hloop. simpl in Hloop.
  assert (Enew : <[length l1 := checkedLine taskTitle]> (split 10 content)
                 = l1 ++ checkedLine taskTitle :: l2).
  { rewrite Elines. rewrite <- (Nat.add_0_r (length l1)).
    rewrite insert_app_r. reflexivity. }
  assert (Esplit :
    split 10 (join newline (l1 ++ checkedLine taskTitle :: l2))
    = l1 ++ checkedLine taskTitle :: l2).
  { apply split_join; [destruct l1; discriminate|].
    intros x Hx. apply in_app_iff in Hx as [Hx|[<-|Hx]].
    - apply (split_no_sep 10 content). rewrite Elines.
      apply in_app_iff. auto.
    - destruct U as (_ & _ & _ & Hdot). unfold checkedLine.
      intros Hbad. apply in_app_iff in Hbad as [Hbad|Hbad].
      + vm_compute in Hbad. intuition discriminate.
      + revert Hbad. apply isDot_no_newline, Hdot.
    - apply (split_no_sep 10 content). rewrite Elines.
      apply in_app_iff. right. right. exact Hx. }
  exists (length l1), ws, taskTitle,
    (join newline (l1 ++ checkedLine taskTitle :: l2)).
  split; [|split; [|split; [|split]]].
  - unfold markTaskAsCompleted. cbn [Spec.content Spec.writes].
    rewrite Hloop, Enew. reflexivity.
  - rewrite !completedCount_lines, Esplit, Elines, !gains_app. simpl gains.
    destruct (unchecked_is_checkbox _ _ _ U) as [Hcb Hh].
    assert (Hbefore : existsb isHeading l1 = true).
    { apply (heading_before l1 l l2); [|exact Hh|exact Hcb].
      unfold validChecklist in Hvalid. rewrite Elines in Hvalid. exact Hvalid. }
    rewrite Hbefore. simpl orb.
    rewrite (gain_unchecked true l ws taskTitle U).
    destruct U as (_ & _ & Hne & Hdot).
    rewrite (gain_checked taskTitle Hne Hdot). lia.
  - rewrite Elines. rewrite list_lookup_middle by reflexivity.
    destruct U as (-> & _). reflexivity.
  - apply U.
  - rewrite Esplit, <- Enew. reflexivity.
Qed.

Lemma C3_witness :
  exists (i : nat) (ws taskTitle content' : list N),
    markTaskAsCompleted (mkFile sample 0) (u16 "3")
      = (Ok tt, mkFile content' 1) /\
    completedCount (getAllTasks content')
      = S (completedCount (getAllTasks sample)) /\
    split 10 sample !! i = Some (u16 "- [" ++ ws ++ u16 "] " ++ taskTitle) /\
    forallb isSpace ws = true /\
    split 10 content' = <[i := u16 "- [x] " ++ taskTitle]> (split 10 sample).
Proof.
  apply (C3_mark_roundtrip sample 0
           (mkTask (u16 "3") (u16 "3. Simplify Claude Code execution")
              (u16 "- _Requirements: 2.8, 2.10_") false [] [])).
  - vm_compute. reflexivity.
  - vm_compute. right. left. reflexivity.
  - reflexivity.
Defined.

(** What the tests expect of [markTaskAsCompleted] on the sample. *)
Example sample_mark_three :
  exists content',
    markTaskAsCompleted (mkFile SAMPLE_TASKS_CONTENT 0) (u16 "3")
      = (Ok tt, mkFile content' 1) /\
    includes (u16 "- [x] 3. Simplify Claude Code execution") content' = true /\
    includes (u16 "  - Update `src/create-prompt/index.ts`") content' = true /\
    option_map completed (getTaskById content' (u16 "3")) = Some true.
Proof.
  eexists. split; [vm_compute; reflexivity|].
  repeat split; vm_compute; reflexivity.
Qed.

Example sample_mark_missing :
  fst (markTaskAsCompleted (mkFile SAMPLE_TASKS_CONTENT 0) (u16 "999"))
  = Throw (Error (u16 "Task with ID '999' not found or already completed")) /\
  fst (markTaskAsCompleted (mkFile SAMPLE_TASKS_CONTENT 0) (u16 "2"))
  = Throw (Error (u16 "Task with ID '2' not found or already completed")).
Proof. split; vm_compute; reflexivity. Qed.

(** Without the condition on the document the count need not grow:
    here the line that gets checked is the one before the heading, which
    the parser drops, and the task of the result stays unchecked. *)
Lemma mark_before_first_heading :
  getAllTasks orphanedTwin = [mkTask (u16 "1") (u16 "1. kept") [] false [] []] /\
  validChecklist orphanedTwin = false /\
  exists content',
    markTaskAsCompleted (mkFile orphanedTwin 0) (u16 "1")
      = (Ok tt, mkFile content' 1) /\
    split 10 content' = [u16 "- [x] 1. orphan"; u16 "## A"; u16 "- [ ] 1. kept"] /\
    completedCount (getAllTasks content') = 0%nat.
Proof.
  split; [vm_compute; reflexivity|]. split; [vm_compute; reflexivity|].
  eexists. split; [vm_compute; reflexivity|]. split; vm_compute; reflexivity.
Qed.

(** ** Progress *)

Import Progress.

Lemma progress_counts (content : list N) :
  p_completed (getTaskProgress content)
    = length (List.filter completed (getAllTasks content)) /\
  p_total (getTaskProgress content) = length (getAllTasks content).
Proof. split; reflexivity. Qed.

Lemma progress_no_tasks (content : list N) :
  p_total (getTaskProgress content) = 0%nat ->
  p_completed (getTaskProgress content) = 0%nat /\
  p_percentage (getTaskProgress content) = 0%Z.
Proof.
  unfold getTaskProgress. simpl. intros H.
  destruct (getAllTasks content) as [|t ts]; [|discriminate].
  split; reflexivity.
Qed.

Section Binary64.
Import Float64.
Local Open Scope Z_scope.

Lemma den_pos (x : f64) : 0 < den x.
Proof. unfold den. apply Z.pow_pos_nonneg; lia. Qed.

Lemma nearest_close (a b : Z) :
  0 < b -> 0 <= a ->
  2 * Z.abs (nearest a b * b - a) <= b /\ a / b <= nearest a b.
Proof.
  intros Hb Ha. unfold nearest.
  pose proof (Z.div_mod a b ltac:(lia)) as E.
  pose proof (Z.mod_pos_bound a b Hb) as Hr.
  destruct (Z.ltb_spec (2 * (a mod b)) b).
  - split; [ | lia]. replace (a / b * b - a) with (- (a mod b)) by lia. lia.
  - destruct (Z.ltb_spec b (2 * (a mod b))).
    + split; [ | lia].
      replace ((a / b + 1) * b - a) with (b - a mod b) by lia. lia.
    + destruct (Z.even (a / b)).
      * split; [ | lia].
        replace (a / b * b - a) with (- (a mod b)) by lia. lia.
      * split; [ | lia].
        replace ((a / b + 1) * b - a) with (b - a mod b) by lia. lia.
Qed.

Lemma scaled_pos (n d e : Z) :
  0 < n -> 0 < d -> 0 < fst (scaled n d e) /\ 0 < snd (scaled n d e).
Proof.
  intros Hn Hd. unfold scaled. destruct (Z.leb_spec 0 e); cbn [fst snd].
  - split; [lia | ]. apply Z.mul_pos_pos; [lia | ]. apply Z.pow_pos_nonneg; lia.
  - split; [ | lia]. apply Z.mul_pos_pos; [lia | ]. apply Z.pow_pos_nonneg; lia.
Qed.

(** At the exponent chosen the scaled quotient is at least 2^52. *)
Lemma scaled_large (n d : Z) :
  0 < n -> 0 < d ->
  2 ^ 52 * snd (scaled n d (exponent n d)) <= fst (scaled n d (exponent n d)).
Proof.
  intros Hn Hd. unfold exponent.
  set (k := Z.log2 n - Z.log2 d).
  destruct (scaled n d (k - 52)) as [a1 b1] eqn:E1.
  destruct (Z.leb_spec (2 ^ 52) (a1 / b1)) as [Hq|Hq].
  - rewrite E1. cbn [fst snd].
    assert (Hb1 : 0 < b1).
    { pose proof (scaled_pos n d (k - 52) Hn Hd) as H. rewrite E1 in H. apply H. }
    pose proof (Z.mul_div_le a1 b1 Hb1).
    assert (b1 * 2 ^ 52 <= b1 * (a1 / b1))
      by (apply Z.mul_le_mono_nonneg_l; lia).
    lia.
  - clear Hq E1 a1 b1.
    pose proof (Z.log2_spec n Hn) as [Hn1 Hn2].
    pose proof (Z.log2_spec d Hd) as [Hd1 Hd2].
    pose proof (Z.log2_nonneg n) as Hln. pose proof (Z.log2_nonneg d) as Hld.
    unfold scaled. destruct (Z.leb_spec 0 (k - 53)) as [He|He]; cbn [fst snd].
    + assert (E : 2 ^ 52 * 2 ^ (k - 53) = 2 ^ (k - 1)).
      { rewrite <- Z.pow_add_r by lia. f_equal. lia. }
      assert (E' : 2 ^ Z.succ (Z.log2 d) * 2 ^ (k - 1) = 2 ^ Z.log2 n).
      { rewrite <- Z.pow_add_r by lia. f_equal. unfold k. lia. }
      assert (0 < 2 ^ (k - 1)) by (apply Z.pow_pos_nonneg; lia).
      nia.
    + assert (E : 2 ^ Z.log2 n * 2 ^ (- (k - 53))
                  = 2 ^ 52 * 2 ^ Z.succ (Z.log2 d)).
      { rewrite <- !Z.pow_add_r by lia. f_equal. unfold k. lia. }
      assert (0 < 2 ^ (- (k - 53))) by (apply Z.pow_pos_nonneg; lia).
      nia.
Qed.

(** Rounding changes a positive quotient by at most 2^-53 of it. *)
Lemma round_error (n d : Z) :
  0 < n -> 0 < d ->
  2 ^ 53 * Z.abs (num (round_nearest_even n d) * d
                  - n * den (round_nearest_even n d))
  <= n * den (round_nearest_even n d).
Proof.
  intros Hn Hd. unfold round_nearest_even.
  destruct (Z.eqb_spec n 0) as [ | _]; [lia | ].
  pose proof (scaled_large n d Hn Hd) as Hlarge.
  pose proof (scaled_pos n d (exponent n d) Hn Hd) as [Ha Hb].
  set (e := exponent n d) in *.
  destruct (scaled n d e) as [a b] eqn:Es. cbn [fst snd] in *.
  destruct (nearest_close a b Hb ltac:(lia)) as [Hclose _].
  set (m := nearest a b) in *.
  unfold num, den. cbn [mant expo].
  unfold scaled in Es. destruct (Z.leb_spec 0 e) as [He|He].
  - injection Es as <- <-.
    rewrite Z.max_l by lia. rewrite (Z.max_r (- e) 0) by lia.
    change (2 ^ 0) with 1. rewrite !Z.mul_1_r.
    replace (m * 2 ^ e * d - n) with (m * (d * 2 ^ e) - n) by ring.
    change (2 ^ 53) with (2 * 2 ^ 52). lia.
  - injection Es as <- <-.
    rewrite Z.max_r by lia. rewrite (Z.max_l (- e) 0) by lia.
    change (2 ^ 0) with 1. rewrite !Z.mul_1_r.
    change (2 ^ 53) with (2 * 2 ^ 52). lia.
Qed.

Lemma nearest_integer (a : Z) : nearest a 1 = a.
Proof.
  unfold nearest. rewrite Z.mod_1_r, Z.div_1_r. reflexivity.
Qed.

(** Integers below 2^53 are numbers. *)
Lemma of_Z_exact (c : Z) :
  0 < c < 2 ^ 53 -> num (of_Z c) = c * den (of_Z c).
Proof.
  intros [Hc1 Hc2]. unfold of_Z, round_nearest_even.
  destruct (Z.eqb_spec c 0) as [ | _]; [lia | ].
  assert (He : exponent c 1 <= 0).
  { unfold exponent. change (Z.log2 1) with 0. rewrite Z.sub_0_r.
    assert (Z.log2 c < 53) by (apply Z.log2_lt_pow2; lia).
    destruct (scaled c 1 (Z.log2 c - 52)) as [a b].
    destruct (2 ^ 52 <=? a / b); lia. }
  set (e := exponent c 1) in *.
  unfold scaled. destruct (Z.leb_spec 0 e) as [He'|He'].
  - assert (e = 0) by lia. subst e. rewrite H.
    change (1 * 2 ^ 0) with 1. rewrite nearest_integer.
    unfold num, den. cbn [mant expo]. reflexivity.
  - rewrite nearest_integer. unfold num, den. cbn [mant expo].
    rewrite Z.max_r by lia. rewrite Z.max_l by lia.
    change (2 ^ 0) with 1. ring.
Qed.

Lemma abs_mul_pos (k x : Z) : 0 < k -> Z.abs (k * x) = k * Z.abs x.
Proof. intros H. rewrite Z.abs_mul. rewrite (Z.abs_eq k) by lia. reflexivity. Qed.

(** The percentage computed in binary64 is the exact one unless the
    exact one is halfway between two integers. *)
Theorem percentage_exact (c t : Z) :
  0 < t < 2 ^ 32 -> 0 <= c <= t ->
  (200 * c + t) mod (2 * t) <> 0 ->
  Math_round (mul (div (of_Z c) (of_Z t)) (of_Z 100)) = (200 * c + t) / (2 * t).
Proof.
  intros Ht Hc Htie.
  destruct (Z.eq_dec c 0) as [-> | Hc0].
  - change (of_Z 0) with zero. unfold div. change (num zero) with 0.
    rewrite Z.mul_0_l. change (round_nearest_even 0 _) with zero.
    unfold mul. change (num zero) with 0. rewrite Z.mul_0_l.
    change (round_nearest_even 0 _) with zero.
    change (Math_round zero) with 0.
    symmetry. apply Z.div_small. lia.
  - assert (Hc' : 0 < c) by lia.
    assert (H53 : 2 ^ 32 < 2 ^ 53) by (apply Z.pow_lt_mono_r; lia).
    pose proof (of_Z_exact c ltac:(lia)) as Ec.
    pose proof (of_Z_exact t ltac:(lia)) as Et.
    pose proof (den_pos (of_Z c)) as Dc. pose proof (den_pos (of_Z t)) as Dt.
    unfold div. rewrite Ec, Et.
    set (K := den (of_Z c) * den (of_Z t)).
    assert (HK : 0 < K) by (apply Z.mul_pos_pos; assumption).
    replace (c * den (of_Z c) * den (of_Z t)) with (c * K) by (unfold K; ring).
    replace (den (of_Z c) * (t * den (of_Z t))) with (t * K) by (unfold K; ring).
    pose proof (round_error (c * K) (t * K) ltac:(nia) ltac:(nia)) as E1.
    set (x1 := round_nearest_even (c * K) (t * K)) in *.
    pose proof (den_pos x1) as D1.
    set (N1 := num x1) in *. set (D1' := den x1) in *.
    replace (N1 * (t * K) - c * K * D1') with (K * (N1 * t - c * D1')) in E1 by ring.
    rewrite abs_mul_pos in E1 by exact HK.
    assert (E1' : 2 ^ 53 * Z.abs (N1 * t - c * D1') <= c * D1') by nia.
    clear E1.
    assert (HN1 : 0 < N1).
    { destruct (Z_lt_le_dec 0 N1) as [ | Hneg]; [assumption | exfalso].
      assert (c * D1' <= Z.abs (N1 * t - c * D1')) by nia.
      assert (0 < c * D1') by nia. nia. }
    unfold mul. fold N1. fold D1'.
    assert (Eh : num (of_Z 100) = 100 * den (of_Z 100)) by (vm_compute; reflexivity).
    pose proof (den_pos (of_Z 100)) as Dh.
    rewrite Eh. set (H := den (of_Z 100)) in *.
    pose proof (round_error (N1 * (100 * H)) (D1' * H) ltac:(nia) ltac:(nia)) as E2.
    set (x2 := round_nearest_even (N1 * (100 * H)) (D1' * H)) in *.
    pose proof (den_pos x2) as D2.
    set (N2 := num x2) in *. set (D2' := den x2) in *.
    replace (N2 * (D1' * H) - N1 * (100 * H) * D2')
      with (H * (N2 * D1' - 100 * N1 * D2')) in E2 by ring.
    rewrite abs_mul_pos in E2 by exact Dh.
    assert (E2' : 2 ^ 53 * Z.abs (N2 * D1' - 100 * N1 * D2') <= 100 * N1 * D2')
      by nia.
    clear E2.
    (* the two errors together *)
    assert (E3 : 2 ^ 53 * Z.abs (N2 * t - 100 * c * D2') <= 300 * c * D2').
    { assert (Hid : D1' * (N2 * t - 100 * c * D2')
                    = t * (N2 * D1' - 100 * N1 * D2')
                      + 100 * D2' * (N1 * t - c * D1')) by ring.
      assert (Hn1t : N1 * t <= 2 * (c * D1')).
      { assert (0 <= 2 ^ 53) by (apply Z.pow_nonneg; lia).
        assert (0 < 2 ^ 53) by (apply Z.pow_pos_nonneg; lia). nia. }
      assert (Habs : D1' * Z.abs (N2 * t - 100 * c * D2')
                     <= t * Z.abs (N2 * D1' - 100 * N1 * D2')
                        + 100 * D2' * Z.abs (N1 * t - c * D1')).
      { rewrite <- (abs_mul_pos D1') by exact D1. rewrite Hid.
        rewrite <- (abs_mul_pos t) by lia.
        rewrite <- (abs_mul_pos (100 * D2')) by lia.
        apply Z.abs_triangle. }
      assert (Hb1 : 2 ^ 53 * (t * Z.abs (N2 * D1' - 100 * N1 * D2'))
                    <= t * (100 * N1 * D2')) by nia.
      assert (Hb2 : 2 ^ 53 * (100 * D2' * Z.abs (N1 * t - c * D1'))
                    <= 100 * D2' * (c * D1')) by nia.
      assert (Hb3 : t * (100 * N1 * D2') <= 200 * c * D1' * D2') by nia.
      assert (Hall : D1' * (2 ^ 53 * Z.abs (N2 * t - 100 * c * D2'))
                     <= D1' * (300 * c * D2')) by nia.
      apply Z.mul_le_mono_pos_l in Hall; assumption. }
    (* the rounding to an integer *)
    unfold Math_round. fold N2. fold D2'.
    set (X := N2 * t - 100 * c * D2') in *.
    pose proof (Z.div_mod (200 * c + t) (2 * t) ltac:(lia)) as Hdm.
    pose proof (Z.mod_pos_bound (200 * c + t) (2 * t) ltac:(lia)) as Hrho.
    set (P := (200 * c + t) / (2 * t)) in *.
    set (rho := (200 * c + t) mod (2 * t)) in *.
    assert (Hsmall : 2 * Z.abs X < D2').
    { assert (2 ^ 53 * (2 * Z.abs X) <= 600 * t * D2') by nia.
      assert (600 * t < 2 ^ 53).
      { change (2 ^ 53) with (2 ^ 21 * 2 ^ 32). change (2 ^ 21) with 2097152. lia. }
      assert (0 < 2 ^ 53) by (apply Z.pow_pos_nonneg; lia).
      nia. }
    assert (Hkey : (2 * N2 + D2' - 2 * D2' * P) * t = 2 * X + D2' * rho).
    { unfold X. replace (D2' * rho) with (D2' * (200 * c + t - 2 * t * P)) by (f_equal; lia).
      ring. }
    symmetry. apply Z.div_unique_pos with (r := 2 * N2 + D2' - 2 * D2' * P);
      [ | ring].
    split.
    + assert (0 < 2 * X + D2' * rho) by nia. nia.
    + assert (Hup : (2 * D2' - (2 * N2 + D2' - 2 * D2' * P)) * t
                    = D2' * (2 * t - rho) - 2 * X) by (rewrite Z.mul_sub_distr_r, Hkey; ring).
      assert (0 < D2' * (2 * t - rho) - 2 * X) by nia. nia.
Qed.

End Binary64.

(** What [getTaskProgress] computes apart from the halves: with fewer
    than 2^32 tasks (the bound on the length of an array), the
    percentage is the exact quotient rounded to the nearest integer
    whenever that quotient is not exactly halfway between two
    integers. *)
Lemma progress_exact_off_halves (content : list N) :
  (0 < p_total (getTaskProgress content))%nat ->
  (Z.of_nat (p_total (getTaskProgress content)) < 2 ^ 32)%Z ->
  ((200 * Z.of_nat (p_completed (getTaskProgress content))
    + Z.of_nat (p_total (getTaskProgress content)))
   mod (2 * Z.of_nat (p_total (getTaskProgress content))) <> 0)%Z ->
  p_percentage (getTaskProgress content)
  = exactPercentage (p_completed (getTaskProgress content))
                    (p_total (getTaskProgress content)).
Proof.
  unfold getTaskProgress. cbn [p_total p_completed p_percentage].
  set (ts := getAllTasks content).
  intros Hpos Hbound Hhalf.
  assert (Hle : (length (List.filter completed ts) <= length ts)%nat)
    by apply List.filter_length_le.
  apply Nat.ltb_lt in Hpos. rewrite Hpos.
  apply Nat.ltb_lt in Hpos.
  rewrite percentage_exact; [ | lia | lia | exact Hhalf].
  unfold exactPercentage. f_equal. lia.
Qed.

(** The quotients 1/3 and 1/10 as binary64 numbers: the mantissas of
    0x3FD5555555555555 and 0x3FB999999999999A. *)
Example third_binary64 :
  Float64.div (Float64.of_Z 1) (Float64.of_Z 3)
  = Float64.F64 0x15555555555555 (-54).
Proof. vm_compute. reflexivity. Qed.

Example tenth_binary64 :
  Float64.div (Float64.of_Z 1) (Float64.of_Z 10)
  = Float64.F64 0x1999999999999A (-56).
Proof. vm_compute. reflexivity. Qed.

(** On the sample of the tests, 2 tasks of 6, the percentage is the
    rounded one; a file without tasks gives 0. *)
Example sample_progress :
  getTaskProgress SAMPLE_TASKS_CONTENT = mkProgress 2 6 33 /\
  getTaskProgress (u16 "# Empty") = mkProgress 0 0 0.
Proof. split; vm_compute; reflexivity. Qed.

(** C7, at a document where the code departs from it: with 23 of 40
    tasks completed the exact percentage is 57.5, which rounds to 58;
    [getTaskProgress] divides first and multiplies by 100 afterwards, in
    binary64, gets a number just below 57.5 and returns 57. *)
Theorem C7_progress_rounds_below_half :
  getTaskProgress fortyTasks = mkProgress 23 40 57 /\
  exactPercentage 23 40 = 58%Z.
Proof. split; vm_compute; reflexivity. Qed.

(** ** Resolution of the spec directory *)

Section ResolveProps.
Import Resolve Specs.

Lemma bareName_strategies (pf : Platform) (fs : FileSystem) (specName : list N) :
  bareName pf specName ->
  absoluteStrategy pf fs specName = None /\
  relativeStrategy pf fs specName = None.
Proof.
  intros (_ & Habs & Hs & Hb). unfold absoluteStrategy, relativeStrategy.
  rewrite Habs, Hs, Hb. auto.
Qed.

Lemma find_none_falsy (f : list N -> bool) (l : list (list N)) :
  List.find f l = None -> truthyOpt (List.find f l) = false.
Proof. intros ->. reflexivity. Qed.

(** What [fuzzyMatchSpec] returns once the exact and the
    case-insensitive search have failed. *)
Lemma fuzzyMatchSpec_candidates (pf : Platform) (fs : FileSystem)
    (term : list N) (entries : list (list N)) :
  readdir fs (specsRoot pf) = Ok entries ->
  exactFails pf term (directoriesOf pf fs entries) ->
  fuzzyMatchSpec pf fs term (specsRoot pf) =
  match candidates pf term (directoriesOf pf fs entries) with
  | [] => Ok None
  | [d] => if truthy d then Ok (Some (path_join pf (specsRoot pf) d))
           else Ok None
  | found => Throw (multiple term found)
  end.
Proof.
  intros Hdir (Hexact & Hci).
  unfold fuzzyMatchSpec, fuzzyMatchBody. rewrite Hdir.
  fold (directoriesOf pf fs entries).
  rewrite (find_none_falsy _ _ Hexact), (find_none_falsy _ _ Hci).
  fold (candidates pf term (directoriesOf pf fs entries)).
  destruct (candidates pf term (directoriesOf pf fs entries)) as [|d [|d' ds]];
    try reflexivity.
  destruct (truthy d); reflexivity.
Qed.

(** What the tests of spec/utils.ts expect of [getSpecPath]. *)
Example resolve_by_name :
  getSpecPath repo (disk [u16 "test-spec"]) (Some (u16 "test-spec"))
    = Ok (u16 "/repo/.usta/specs/test-spec") /\
  getSpecPath repo (disk [u16 "test-spec"]) (Some (u16 "test-spec.md"))
    = Ok (u16 "/repo/.usta/specs/test-spec") /\
  getSpecPath repo (disk [u16 "test-spec"]) (Some (u16 "TEST-SPEC"))
    = Ok (u16 "/repo/.usta/specs/test-spec") /\
  getSpecPath repo (disk [u16 "test-spec"])
    (Some (u16 "/repo/.usta/specs/test-spec"))
    = Ok (u16 "/repo/.usta/specs/test-spec").
Proof. repeat split; vm_compute; reflexivity. Qed.

Example resolve_failures :
  getSpecPath repo (disk [u16 "test-spec"]) None
    = Throw (Error (u16 "spec_name input is required")) /\
  getSpecPath repo (disk [u16 "test-spec"]) (Some (u16 "non-existent-spec"))
    = Throw (notFound (u16 "non-existent-spec")) /\
  getSpecPath repo
    (disk [u16 "test-spec"; u16 "fuzzy-test-1"; u16 "fuzzy-test-2"])
    (Some (u16 "fuzzy-test"))
    = Throw (multiple (u16 "fuzzy-test") [u16 "fuzzy-test-1"; u16 "fuzzy-test-2"]).
Proof. repeat split; vm_compute; reflexivity. Qed.

(** C6, as the source has it: once the exact and the case-insensitive
    search have failed, the fuzzy matches of a bare name are the
    subdirectories of the specs root whose lower-cased name contains the
    lower-cased term or is contained in it.  With exactly one match the
    resolution returns that subdirectory; with two or more it fails with
    an error that lists all of them; with none it fails with "Spec not
    found". *)
Theorem C6_fuzzy_resolution :
  forall (pf : Platform) (fs : FileSystem) (specName : list N)
         (entries : list (list N)),
    bareName pf specName ->
    readdir fs (specsRoot pf) = Ok entries ->
    exactFails pf (searchTermOf pf specName) (directoriesOf pf fs entries) ->
    (forall d,
       candidates pf (searchTermOf pf specName) (directoriesOf pf fs entries)
         = [d] ->
       truthy d = true /\ truthy (path_join pf (specsRoot pf) d) = true) ->
    resolvesBy pf fs specName
      (candidates pf (searchTermOf pf specName) (directoriesOf pf fs entries)).
Proof.
  intros pf fs specName entries Hbare Hdir Hfail Hname.
  destruct (bareName_strategies pf fs specName Hbare) as [Ha Hr].
  assert (Ht : truthy specName = true) by apply Hbare.
  unfold resolvesBy, getSpecPath. rewrite Ht, Ha, Hr. simpl negb. cbv iota.
  fold (searchTermOf pf specName).
  rewrite (fuzzyMatchSpec_candidates pf fs _ entries Hdir Hfail).
  destruct (candidates pf (searchTermOf pf specName) (directoriesOf pf fs entries))
    as [|d [|d' ds]]; try reflexivity.
  destruct (Hname d eq_refl) as [Hd Hp]. rewrite Hd. simpl. rewrite Hp.
  reflexivity.
Qed.

Lemma C6_witness :
  getSpecPath repo (disk [u16 "test-spec"; u16 "unique-fuzzy-spec"])
    (Some (u16 "fuzzy"))
  = Ok (u16 "/repo/.usta/specs/unique-fuzzy-spec").
Proof.
  apply (C6_fuzzy_resolution repo
           (disk [u16 "test-spec"; u16 "unique-fuzzy-spec"]) (u16 "fuzzy")
           [u16 "test-spec"; u16 "unique-fuzzy-spec"]).
  - repeat split; reflexivity.
  - reflexivity.
  - split; reflexivity.
  - intros d Hd. vm_compute in Hd. injection Hd as <-. split; reflexivity.
Defined.

(** Against the statement with containment of the term only: the specs
    root holds [auth] and [auth-system-v2], the name is [auth-system].
    One directory name contains the term; the term contains the other
    name, so the source finds two matches and fails. *)
Lemma C6_containment_only_fails :
  getSpecPath repo (disk [u16 "auth"; u16 "auth-system-v2"])
    (Some (u16 "auth-system"))
  = Throw (Error (u16 "Multiple specs found matching 'auth-system': auth, auth-system-v2")) /\
  containing repo (u16 "auth-system") [u16 "auth"; u16 "auth-system-v2"]
  = [u16 "auth-system-v2"] /\
  ~ resolvesByContainment repo (disk [u16 "auth"; u16 "auth-system-v2"])
      (u16 "auth-system").
Proof.
  split; [vm_compute; reflexivity|]. split; [vm_compute; reflexivity|].
  intros H.
  specialize (H [u16 "auth"; u16 "auth-system-v2"]).
  assert (B : bareName repo (u16 "auth-system")) by (repeat split; reflexivity).
  assert (F : exactFails repo (searchTermOf repo (u16 "auth-system"))
                (directoriesOf repo (disk [u16 "auth"; u16 "auth-system-v2"])
                   [u16 "auth"; u16 "auth-system-v2"]))
    by (split; reflexivity).
  specialize (H B eq_refl F). vm_compute in H. discriminate H.
Qed.

End ResolveProps.

(** ** The PR context *)

Section PRContextProps.
Import PRCtx.

(** The cases of the tests of [getPRContext]. *)
Example pr_context_cases :
  getPRContext Envs.complete
    = (mkPRContext 123 (u16 "feature-branch") (Some (u16 "456")) true, []) /\
  getPRContext ∅ = (disabled, []) /\
  getPRContext (<["USTA_PR_MODE"%string := u16 "true"]> ∅)
    = (disabled, [Warn missingContext]) /\
  getPRContext (<["USTA_PR_MODE"%string := u16 "false"]> Envs.complete)
    = (disabled, []).
Proof. repeat split; vm_compute; reflexivity. Qed.

(** C8: [getPRContext] returns a context for every environment (it is
    a total function: nothing is thrown).  The context is enabled only
    if USTA_PR_MODE is "true", the PR number parses to an integer other
    than zero and the branch is a non-empty string, and then it carries
    that number and branch.  If the mode is set and the number is not
    set, is zero or is not a number, or the branch is not set or is
    empty, the result is the disabled context and one warning is
    printed. *)
Theorem C8_pr_context :
  forall env : gmap string (list N),
    let prNumber := parseInt (orElse (env !! "USTA_PR_NUMBER"%string) (u16 "0")) in
    let prBranch := orElse (env !! "USTA_PR_BRANCH"%string) [] in
    (isEnabled (fst (getPRContext env)) = true ->
       env !! "USTA_PR_MODE"%string = Some (u16 "true") /\
       (exists n, prNumber = Some n /\ n <> 0%Z /\
                  number (fst (getPRContext env)) = n) /\
       prBranch <> [] /\ branch (fst (getPRContext env)) = prBranch) /\
    (env !! "USTA_PR_MODE"%string = Some (u16 "true") ->
       (env !! "USTA_PR_NUMBER"%string = None \/ prNumber = Some 0%Z \/
        prNumber = None \/
        env !! "USTA_PR_BRANCH"%string = None \/
        env !! "USTA_PR_BRANCH"%string = Some []) ->
       getPRContext env = (disabled, [Warn missingContext])).
Proof.
  intros env. cbv zeta. unfold getPRContext.
  destruct (env !! "USTA_PR_MODE"%string) as [v|] eqn:Hmode.
  - unfold jseq. destruct (bool_decide_reflect (v = u16 "true")) as [->|Hv].
    + simpl negb. cbv iota. split.
      * intros Hen. split; [reflexivity|].
        destruct (parseInt _) as [n|]; [|discriminate Hen].
        destruct (Z.eqb_spec n 0) as [E|Hn]; [discriminate Hen|].
        destruct (orElse (env !! "USTA_PR_BRANCH"%string) []) as [|c b];
          [discriminate Hen|].
        simpl. split; [exists n; auto | split; [discriminate | reflexivity]].
      * intros _ Hmiss.
        assert (Hcase :
          parseInt (orElse (env !! "USTA_PR_NUMBER"%string) (u16 "0")) = None \/
          parseInt (orElse (env !! "USTA_PR_NUMBER"%string) (u16 "0")) = Some 0%Z \/
          orElse (env !! "USTA_PR_BRANCH"%string) [] = []).
        { destruct Hmiss as [H|[H|[H|[H|H]]]]; auto; rewrite H; auto. }
        destruct Hcase as [H | [H | H]]; rewrite H; try reflexivity.
        destruct (parseInt _) as [n|]; [|reflexivity].
        rewrite orb_true_r. reflexivity.
    + simpl. split; [discriminate|]. intros [= E]. congruence.
  - simpl. split; [discriminate|discriminate].
Qed.

Lemma C8_witness :
  getPRContext Envs.numberUnset = (disabled, [Warn missingContext]) /\
  number (fst (getPRContext Envs.complete)) = 123%Z.
Proof.
  split.
  - apply (C8_pr_context Envs.numberUnset); [reflexivity|].
    left. reflexivity.
  - destruct (proj1 (C8_pr_context Envs.complete)) as (_ & (n & Hn & _ & ->) & _).
    + reflexivity.
    + vm_compute in Hn. congruence.
Defined.

End PRContextProps.

(** ** The progress reporter *)

Section ReporterProps.
Import PRCtx Reporter.

Lemma updateComment_resolves (h : Host) (curl : CurlOutcome) (m : CommentManager) :
  fst (updateComment h curl m) = Ok tt.
Proof.
  unfold updateComment.
  destruct (negb (isEnabled (context m))
            || negb (truthyOpt (commentId (context m)))); [reflexivity|].
  destruct (callGitHubAPI _ _ _ _ _) as [[a|e] evs]; reflexivity.
Qed.

(** C9: [updateComment] always resolves.  It does nothing (no request,
    no log line) when the context is disabled or has no comment id.
    Otherwise, whenever [callGitHubAPI] throws, the error is caught and
    logged with [console.error], and [updateComment] resolves;
    [callGitHubAPI] throws when the token is missing, when the [curl]
    process ends with a code other than 0 and when it cannot be
    spawned. *)
Theorem C9_publish_never_throws :
  forall (h : Host) (curl : CurlOutcome) (m : CommentManager),
    fst (updateComment h curl m) = Ok tt /\
    (isEnabled (context m) = false \/
     truthyOpt (commentId (context m)) = false ->
       updateComment h curl m = (Ok tt, [])) /\
    (isEnabled (context m) = true ->
     truthyOpt (commentId (context m)) = true ->
     forall e evs,
       callGitHubAPI h curl (u16 "PATCH")
         (commentEndpoint h (default [] (commentId (context m))))
         (generateCommentBody h (state m)) = (Throw e, evs) ->
       updateComment h curl m = (Ok tt, evs ++ [LogUpdateFailed e])) /\
    (forall method endpoint data,
       (truthy (orElse (env h !! "GITHUB_TOKEN"%string) []) = false ->
        callGitHubAPI h curl method endpoint data =
        (Throw (Error (u16 "GITHUB_TOKEN not available")), [])) /\
       (truthy (orElse (env h !! "GITHUB_TOKEN"%string) []) = true ->
        match curl with
        | CurlClose code stdout stderr =>
            code <> 0%Z ->
            callGitHubAPI h curl method endpoint data =
            (Throw (Error (u16 "GitHub API call failed: " ++ stderr)),
             [ApiRequest method endpoint data])
        | CurlError e =>
            callGitHubAPI h curl method endpoint data =
            (Throw e, [ApiRequest method endpoint data])
        end)).
Proof.
  intros h curl m. split; [apply updateComment_resolves|].
  unfold updateComment. split; [|split].
  - intros [H|H]; rewrite H; simpl; [reflexivity|].
    rewrite orb_true_r. reflexivity.
  - intros Hen Hcid e evs Hcall. rewrite Hen, Hcid. simpl. rewrite Hcall.
    reflexivity.
  - intros method endpoint data. unfold callGitHubAPI. split; intros Htok;
      rewrite Htok; [reflexivity|].
    destruct curl as [code stdout stderr|e]; [|reflexivity].
    intros Hcode. apply Z.eqb_neq in Hcode. rewrite Hcode. reflexivity.
Qed.

End ReporterProps.

(** ** The retry loop *)

Section OrchestratorProps.
Import PRCtx Reporter Orchestrator.

Variables (h : Host) (s : Script) (task : Task).

(** *** One step of a computation *)

Lemma bind_await_ok {B} (k : unit -> M B) (w : World) :
  bind (await (Ok tt)) k w = k tt w.
Proof. reflexivity. Qed.

Lemma bind_await_throw {B} (e : exn) (k : unit -> M B) (w : World) :
  bind (await (Throw e)) k w = (Raise e, w).
Proof. reflexivity. Qed.

Lemma bind_tell {B} (a : action) (k : unit -> M B) (w : World) :
  bind (tell a) k w = k tt (logged a w).
Proof. reflexivity. Qed.

Lemma bind_setStatus {B} tid st att (k : unit -> M B) (w : World) :
  bind (setStatus s tid st att) k w = k tt (withStatus s tid st att w).
Proof. reflexivity. Qed.

Lemma bind_setOverall {B} o (k : unit -> M B) (w : World) :
  bind (setOverall s o) k w = k tt (withOverall s o w).
Proof. reflexivity. Qed.

Lemma publish_done (w : World) : publish h s w = (Done tt, published h s w).
Proof. unfold publish. rewrite updateComment_resolves. reflexivity. Qed.

Lemma bind_publish {B} (k : unit -> M B) (w : World) :
  bind (publish h s) k w = k tt (published h s w).
Proof. unfold bind. rewrite publish_done. reflexivity. Qed.

Lemma bind_rollback {B} (r : result unit) (k : unit -> M B) (w : World) :
  bind (gitRollback r) k w =
  match r with
  | Ok _ => k tt (logged Rollback w)
  | Throw e => (Raise e, logged Rollback w)
  end.
Proof. destruct r as [[]|e]; reflexivity. Qed.

Lemma bind_commit {B} (msg : list N) (r : result unit) (k : unit -> M B)
    (w : World) :
  bind (gitCommitAndPush msg r) k w =
  match r with
  | Ok _ => k tt (logged (CommitAndPush msg (branch (context (manager w)))) w)
  | Throw e =>
      (Raise e, logged (CommitAndPush msg (branch (context (manager w)))) w)
  end.
Proof. destruct r as [[]|e]; reflexivity. Qed.

(** *** What each step leaves of the observations *)

Lemma attemptsOf_app (a b : list action) :
  attemptsOf (a ++ b) = attemptsOf a ++ attemptsOf b.
Proof. apply omap_app. Qed.

Lemma attemptsOf_reports (evs : list event) :
  attemptsOf (List.map Report evs) = [].
Proof. induction evs; simpl; auto. Qed.

Lemma rollbacksOf_app (a b : list action) :
  rollbacksOf (a ++ b) = (rollbacksOf a + rollbacksOf b)%nat.
Proof. unfold rollbacksOf. rewrite List.filter_app. apply length_app. Qed.

Lemma rollbacksOf_reports (evs : list event) :
  rollbacksOf (List.map Report evs) = 0%nat.
Proof. induction evs; simpl; auto. Qed.

Lemma attempts_published (w : World) :
  attemptsOf (trace (published h s w)) = attemptsOf (trace w).
Proof.
  simpl. rewrite attemptsOf_app, attemptsOf_reports. apply app_nil_r.
Qed.

Lemma rollbacks_published (w : World) :
  rollbacksOf (trace (published h s w)) = rollbacksOf (trace w).
Proof. simpl. rewrite rollbacksOf_app, rollbacksOf_reports. lia. Qed.

Lemma attempts_logged (a : action) (w : World) :
  attemptsOf (trace (logged a w)) =
  attemptsOf (trace w) ++ match a with Attempt n => [n] | _ => [] end.
Proof. simpl. rewrite attemptsOf_app. destruct a; reflexivity. Qed.

Lemma rollbacks_logged (a : action) (w : World) :
  rollbacksOf (trace (logged a w)) =
  (rollbacksOf (trace w) + if isRollback a then 1 else 0)%nat.
Proof. simpl. rewrite rollbacksOf_app. destruct a; reflexivity. Qed.

Lemma transition_taskId now st att (t : TaskProgress) :
  taskId (transition now st att t) = taskId t.
Proof. destruct st; reflexivity. Qed.

Lemma find_updateFound (tid : list N) (f : TaskProgress -> TaskProgress)
    (l : list TaskProgress) :
  (forall t, taskId (f t) = taskId t) ->
  List.find (fun t => jseq (taskId t) tid) (updateFound tid f l)
  = option_map f (List.find (fun t => jseq (taskId t) tid) l).
Proof.
  intros Hf. induction l as [|t l IH]; simpl; [reflexivity|].
  destruct (jseq (taskId t) tid) eqn:E; simpl.
  - rewrite Hf, E. reflexivity.
  - rewrite E. exact IH.
Qed.

Lemma progress_withStatus tid st att (w : World) :
  progressOf tid (withStatus s tid st att w)
  = option_map (transition (date s (reads w)) st att) (progressOf tid w).
Proof.
  unfold progressOf. simpl. apply find_updateFound.
  intros t. apply transition_taskId.
Qed.

Lemma progress_logged tid a (w : World) :
  progressOf tid (logged a w) = progressOf tid w.
Proof. reflexivity. Qed.

Lemma progress_published tid (w : World) :
  progressOf tid (published h s w) = progressOf tid w.
Proof. reflexivity. Qed.

Lemma progress_withOverall tid o (w : World) :
  progressOf tid (withOverall s o w) = progressOf tid w.
Proof. reflexivity. Qed.

Lemma overall_logged a (w : World) : overallOf (logged a w) = overallOf w.
Proof. reflexivity. Qed.

Lemma overall_published (w : World) : overallOf (published h s w) = overallOf w.
Proof. reflexivity. Qed.

Lemma overall_withStatus tid st att (w : World) :
  overallOf (withStatus s tid st att w) = overallOf w.
Proof. reflexivity. Qed.

Lemma overall_withOverall o (w : World) : overallOf (withOverall s o w) = o.
Proof. reflexivity. Qed.

Lemma attempts_withStatus tid st att (w : World) :
  attemptsOf (trace (withStatus s tid st att w)) = attemptsOf (trace w).
Proof. reflexivity. Qed.

Lemma attempts_withOverall o (w : World) :
  attemptsOf (trace (withOverall s o w)) = attemptsOf (trace w).
Proof. reflexivity. Qed.

Lemma rollbacks_withStatus tid st att (w : World) :
  rollbacksOf (trace (withStatus s tid st att w)) = rollbacksOf (trace w).
Proof. reflexivity. Qed.

Create Rewrite HintDb run.
Create Rewrite HintDb obs.

Hint Rewrite @bind_await_ok @bind_await_throw @bind_tell @bind_setStatus
  @bind_setOverall @bind_publish @bind_rollback @bind_commit : run.

Hint Rewrite attempts_logged attempts_published attempts_withStatus
  attempts_withOverall rollbacks_logged rollbacks_published
  rollbacks_withStatus progress_logged progress_published progress_withStatus
  progress_withOverall overall_logged overall_published overall_withStatus
  overall_withOverall app_nil_r : obs.

Ltac run := repeat (autorewrite with run; cbv beta).

Lemma is_Some_map {A B} (f : A -> B) (o : option A) :
  is_Some o -> is_Some (option_map f o).
Proof. intros [a ->]. simpl. eauto. Qed.

(** *** An attempt whose verification does not show the marker *)

Lemma attempt_unverified (n : nat) (w : World) :
  markerAbsent s n ->
  rollbackAfterError s n = Ok tt ->
  exists w',
    tryCatch (attemptBody h s task n) (attemptHandler s n) w = (Done false, w') /\
    attemptsOf (trace w') = attemptsOf (trace w) /\
    overallOf w' = overallOf w /\
    (is_Some (progressOf (id task) w) -> is_Some (progressOf (id task) w')).
Proof.
  intros Hm Hr. unfold markerAbsent in Hm.
  unfold tryCatch, attemptBody, attemptHandler. cbv zeta. rewrite Hm.
  destruct (preparePrompt s n) as [[]|e1]; run;
    [|rewrite Hr; eexists; split; [reflexivity|];
      autorewrite with obs; auto].
  destruct (runClaudeWork s n) as [[]|e2]; run;
    [|rewrite Hr; eexists; split; [reflexivity|];
      autorewrite with obs; auto].
  destruct (createManualTestPrompt s n) as [[]|e3]; run;
    [|rewrite Hr; eexists; split; [reflexivity|];
      autorewrite with obs; auto using is_Some_map].
  destruct (snd (runClaudeTest s n)) as [[]|e4]; run;
    [|rewrite Hr; eexists; split; [reflexivity|];
      autorewrite with obs; auto using is_Some_map].
  destruct (rollbackAfterTest s n) as [[]|e5]; run;
    [|rewrite Hr]; (eexists; split; [reflexivity|]);
      autorewrite with obs; auto using is_Some_map.
Qed.

Lemma retry_step_unverified (fuel n : nat) (w : World) :
  (n < 3)%nat ->
  markerAbsent s (S n) ->
  rollbackAfterError s (S n) = Ok tt ->
  exists w',
    retryLoop (S fuel) h s task n false w
      = retryLoop fuel h s task (S n) false w' /\
    attemptsOf (trace w') = attemptsOf (trace w) ++ [S n] /\
    overallOf w' = overallOf w /\
    (is_Some (progressOf (id task) w) -> is_Some (progressOf (id task) w')).
Proof.
  intros Hn Hm Hr. cbn [retryLoop].
  apply Nat.ltb_lt in Hn. rewrite Hn. cbn [andb negb]. run.
  destruct (attempt_unverified (S n)
              (published h s (withStatus s (id task) working (Some (S n))
                                (logged (Attempt (S n)) w))) Hm Hr)
    as (w' & E & Ha & Ho & Hp).
  exists w'. split.
  - unfold bind at 1. rewrite E. reflexivity.
  - rewrite Ha, Ho. autorewrite with obs. repeat split.
    intros Hs. apply Hp. autorewrite with obs. apply is_Some_map, Hs.
Qed.

(** C1, as the source has it: when no verification run of the task
    shows the success marker and the rollback of the error handler does
    not fail on the attempts 1 to 3, the retry loop makes the attempts
    1, 2 and 3 and no other; then the task is marked failed, the run is
    marked failed and the process exits with code 1.  The reporter is
    one that tracks the task. *)
Theorem C1_three_attempts_then_failed :
  forall (fuel : nat) (w : World),
    (4 <= fuel)%nat ->
    (forall n, markerAbsent s n) ->
    (forall n, (1 <= n <= 3)%nat -> rollbackAfterError s n = Ok tt) ->
    is_Some (progressOf (id task) w) ->
    failsAfterThree fuel h s task w.
Proof.
  intros fuel w Hfuel Hm Hr Hp.
  destruct fuel as [|[|[|[|fuel]]]]; try lia.
  destruct (retry_step_unverified (S (S (S fuel))) 0 w)
    as (w1 & E1 & A1 & O1 & P1); [lia | apply Hm | apply Hr; lia |].
  destruct (retry_step_unverified (S (S fuel)) 1 w1)
    as (w2 & E2 & A2 & O2 & P2); [lia | apply Hm | apply Hr; lia |].
  destruct (retry_step_unverified (S fuel) 2 w2)
    as (w3 & E3 & A3 & O3 & P3); [lia | apply Hm | apply Hr; lia |].
  exists 1%Z,
    (published h s
       (withOverall s runFailed (withStatus s (id task) failed None w3))).
  split; [|split; [discriminate|]].
  - unfold guarded, tryCatch, attempts. unfold bind at 1.
    rewrite E1, E2, E3. cbn [retryLoop Nat.ltb Nat.leb andb negb ret snd].
    unfold settle. cbn [negb]. run. reflexivity.
  - autorewrite with obs. rewrite A3, A2, A1, <- !app_assoc.
    split; [reflexivity|]. split; [reflexivity|].
    destruct (P3 (P2 (P1 Hp))) as [tp ->].
    eexists. split; [reflexivity|]. reflexivity.
Qed.

(** *** Verification that fails, verification that succeeds *)

Lemma attempt_fails_cleanly (n : nat) (w : World) :
  verificationFails s n ->
  tryCatch (attemptBody h s task n) (attemptHandler s n) w
  = (Done false,
     logged Rollback (published h s (withStatus s (id task) testing None w))).
Proof.
  intros ((H1 & H2 & H3 & H4) & Hm & Hr). unfold markerAbsent in Hm.
  unfold tryCatch, attemptBody. cbv zeta. rewrite Hm, H1, H2, H3, H4. run.
  rewrite Hr. reflexivity.
Qed.

Lemma attempt_succeeds (n : nat) (w : World) :
  verificationSucceeds s n ->
  commitComplete s n = Ok tt ->
  tryCatch (attemptBody h s task n) (attemptHandler s n) w
  = (Done true,
     published h s
       (withStatus s (id task) completed None
          (logged
             (CommitAndPush (u16 "Complete task: " ++ Spec.title task)
                (branch (context (manager w))))
             (published h s (withStatus s (id task) testing None w))))).
Proof.
  intros ((H1 & H2 & H3 & H4) & Hm) Hc.
  unfold tryCatch, attemptBody. cbv zeta. rewrite Hm, H1, H2, H3, H4. run.
  rewrite Hc. reflexivity.
Qed.

Lemma retry_step (fuel n : nat) (w w' : World) (done : bool) :
  (n < 3)%nat ->
  tryCatch (attemptBody h s task (S n)) (attemptHandler s (S n))
    (published h s
       (withStatus s (id task) working (Some (S n)) (logged (Attempt (S n)) w)))
  = (Done done, w') ->
  retryLoop (S fuel) h s task n false w = retryLoop fuel h s task (S n) done w'.
Proof.
  intros Hn E. cbn [retryLoop].
  apply Nat.ltb_lt in Hn. rewrite Hn. cbn [andb negb]. run.
  unfold bind at 1. rewrite E. reflexivity.
Qed.

(** C2, as the source has it: when verification fails on the attempts
    1 and 2 (no marker, no exception) and succeeds on attempt 3, and the
    commit-and-push of the completed task does not fail, the task ends
    completed with [completedOnAttempt] 3 and the rollback was invoked
    exactly twice.  The reporter is one that tracks the task. *)
Theorem C2_completed_on_third_attempt :
  forall (fuel : nat) (w : World),
    (4 <= fuel)%nat ->
    verificationFails s 1 -> verificationFails s 2 ->
    verificationSucceeds s 3 ->
    commitComplete s 3 = Ok tt ->
    is_Some (progressOf (id task) w) ->
    completesOnThird fuel h s task w.
Proof.
  intros fuel w Hfuel F1 F2 S3 Hc [tp Hp].
  destruct fuel as [|[|[|[|fuel]]]]; try lia.
  eexists. split; [|split].
  - unfold guarded, tryCatch, attempts. unfold bind at 1.
    erewrite retry_step;
      [|lia|apply attempt_fails_cleanly; exact F1].
    erewrite retry_step;
      [|lia|apply attempt_fails_cleanly; exact F2].
    erewrite retry_step;
      [|lia|apply attempt_succeeds; [exact S3|exact Hc]].
    cbn [retryLoop Nat.ltb Nat.leb andb negb ret snd settle]. reflexivity.
  - autorewrite with obs. simpl. lia.
  - autorewrite with obs. rewrite Hp. simpl.
    eexists. split; [reflexivity|]. split; reflexivity.
Qed.

End OrchestratorProps.

Section OrchestratorExamples.
Import PRCtx Reporter Orchestrator.

Lemma C1_witness :
  failsAfterThree 4 host0 (quiet (fun _ => false)) task1 world0.
Proof.
  apply (C1_three_attempts_then_failed host0 (quiet (fun _ => false)) task1
           4 world0).
  - lia.
  - intros n. reflexivity.
  - intros n _. reflexivity.
  - vm_compute. eauto.
Defined.

(** Against C1 without a condition on the rollback: the agent never
    emits the marker and [git reset --hard] fails.  After the first
    verification the rollback throws, the rollback of the handler throws
    too, the exception leaves the loop and the run ends with exit code 1
    after one attempt, the task still marked as testing. *)
Lemma C1_rollback_failure_ends_run_early :
  (forall n, markerAbsent brokenRollback n) /\
  is_Some (progressOf (id task1) world0) /\
  (exists w',
     guarded (attempts 4 host0 brokenRollback task1) world0 = (Exit 1, w') /\
     attemptsOf (trace w') = [1%nat] /\
     option_map status (progressOf (id task1) w') = Some testing /\
     overallOf w' = running) /\
  ~ failsAfterThree 4 host0 brokenRollback task1 world0.
Proof.
  split; [intros n; reflexivity|]. split; [vm_compute; eauto|]. split.
  - eexists. split; [vm_compute; reflexivity|]. repeat split.
  - intros (code & w' & H & _ & Hatt & _).
    vm_compute in H. injection H as _ <-. vm_compute in Hatt. discriminate.
Qed.

Lemma C2_witness :
  completesOnThird 4 host0 (quiet (fun n => Nat.eqb n 3)) task1 world0.
Proof.
  apply (C2_completed_on_third_attempt host0 (quiet (fun n => Nat.eqb n 3))
           task1 4 world0).
  - lia.
  - repeat split.
  - repeat split.
  - repeat split.
  - reflexivity.
  - vm_compute. eauto.
Defined.

(** Against C2 without a condition on the commit: verification fails
    on the attempts 1 and 2 and succeeds on attempt 3, and the push that
    follows is rejected.  The exception is handled as a failed attempt:
    a third rollback, no attempt left, and the task ends failed. *)
Lemma C2_rejected_push_fails_task :
  verificationFails rejectedPush 1 /\ verificationFails rejectedPush 2 /\
  verificationSucceeds rejectedPush 3 /\
  is_Some (progressOf (id task1) world0) /\
  (exists w',
     guarded (attempts 4 host0 rejectedPush task1) world0 = (Exit 1, w') /\
     rollbacksOf (trace w') = 3%nat /\
     option_map status (progressOf (id task1) w') = Some failed) /\
  ~ completesOnThird 4 host0 rejectedPush task1 world0.
Proof.
  split; [repeat split|]. split; [repeat split|]. split; [repeat split|].
  split; [vm_compute; eauto|]. split.
  - eexists. split; [vm_compute; reflexivity|]. split; reflexivity.
  - intros (w' & H & _). vm_compute in H. discriminate H.
Qed.

End OrchestratorExamples.

(** * Further properties *)

(** ** The parser: sections, ids, lines that are skipped *)

Lemma titles_flush (st : pstate) :
  List.map sec_title (option_list (flushTask st))
  = List.map sec_title (option_list (currentSection st)).
Proof.
  unfold flushTask, pushTask.
  destruct (currentTask st), (currentSection st); reflexivity.
Qed.

Lemma parseLine_titles (st : pstate) (line : list N) :
  List.map sec_title (sectionsOf (parseLine st line))
  = List.map sec_title (sectionsOf st)
    ++ (if isHeading line then [trim (substring 3 line)] else []).
Proof.
  unfold parseLine, sectionsOf. destruct (isHeading line).
  - cbn [closed currentSection option_list].
    rewrite !List.map_app, titles_flush, <- !app_assoc. reflexivity.
  - rewrite app_nil_r. destruct (exec taskLineRe line) as [m|].
    + destruct (m_caps m !! 3%nat) as [tt|]; [destruct (truthy tt)|];
        cbn [closed currentSection]; rewrite !List.map_app, titles_flush;
        reflexivity.
    + destruct (currentTask st); [|reflexivity].
      destruct (exec indentRe line); reflexivity.
Qed.

Lemma parseLines_titles (lines : list (list N)) :
  forall st,
  List.map sec_title (sectionsOf (parseLines st lines))
  = List.map sec_title (sectionsOf st)
    ++ List.map (fun l => trim (substring 3 l)) (List.filter isHeading lines).
Proof.
  induction lines as [|l lines IH]; intros st; simpl.
  - rewrite app_nil_r. reflexivity.
  - rewrite IH, parseLine_titles, <- app_assoc.
    destruct (isHeading l); reflexivity.
Qed.

Lemma finish_titles (st : pstate) :
  List.map sec_title (finish st) = List.map sec_title (sectionsOf st).
Proof.
  unfold finish, sectionsOf.
  destruct (currentTask st), (currentSection st); try reflexivity.
  cbn [option_list]. rewrite !List.map_app. reflexivity.
Qed.

(** X1.  The sections of the result are the headings of the document, one
    section for each line that starts with ["## "], in the order of the
    lines; the title of a section is the rest of its line, trimmed.
    Sections without tasks are kept, and nothing else makes a
    section. *)
Theorem sections_follow_headings (content : list N) :
  List.map sec_title (parseTasks content)
  = List.map (fun l => trim (substring 3 l))
             (List.filter isHeading (split 10 content)).
Proof.
  unfold parseTasks, parseDoc. rewrite finish_titles, parseLines_titles.
  reflexivity.
Qed.

Lemma taskOfMatch_id (line : list N) (m : rmatch_result) :
  exec taskLineRe line = Some m -> id (taskOfMatch m) <> [].
Proof.
  intros Hm.
  destruct (taskLine_sound _ _ Hm)
    as (w1 & c & w2 & np & tt & _ & _ & _ & _ & _ & Hc3 & Hne & _ & Hnp).
  unfold taskOfMatch, newTask. rewrite Hc3. simpl default.
  destruct Hnp as [(_ & ->) | (ds & Hdne & Hds & -> & ->)].
  - simpl truthy. cbv iota.
    destruct (hd [] (split 32 tt)) as [|a w] eqn:Hw; simpl; [exact Hne|discriminate].
  - assert (Htr : truthy (ds ++ u16 ". ") = true)
      by (destruct ds; [congruence|reflexivity]).
    rewrite Htr. simpl id.
    change (u16 ". ") with (u16 "." ++ u16 " ").
    rewrite replaceStr_dot by exact Hds.
    rewrite trim_digits by assumption. exact Hdne.
Qed.

(** X2.  No task of the result has the empty string as its id: the id is
    the number of a numbered line, or the first word of the title, or
    the whole title when that word is empty.  So [getTaskById] with the
    empty id finds nothing, whatever the document. *)
Theorem task_ids_not_empty (content : list N) :
  (forall t, In t (getAllTasks content) -> id t <> []) /\
  getTaskById content [] = None.
Proof.
  assert (H : forall t, In t (getAllTasks content) -> id t <> []).
  { intros t Hin.
    destruct (getAllTasks_origin content t Hin) as (line & m & _ & Hm & -> & _).
    exact (taskOfMatch_id line m Hm). }
  split; [exact H|].
  unfold getTaskById.
  destruct (List.find _ _) as [t|] eqn:E; [|reflexivity].
  apply List.find_some in E as [Hin Hid].
  unfold jseq in Hid. apply bool_decide_eq_true in Hid.
  destruct (H t Hin Hid).
Qed.

Lemma indent_none (line : list N) :
  startsWith (u16 "  ") line = false -> exec indentRe line = None.
Proof.
  intros H. destruct (exec indentRe line) as [m|] eqn:E; [|reflexivity].
  apply exec_anchored_sound in E as (b' & used & s' & _ & M & _).
  apply matches_lit in M as (-> & _). rewrite startsWith_app in H.
  discriminate H.
Qed.

Lemma parseLine_skips (st : pstate) (line : list N) :
  isHeading line = false -> exec taskLineRe line = None ->
  startsWith (u16 "  ") line = false ->
  parseLine st line = st.
Proof.
  intros Hh Hm Hi. unfold parseLine. rewrite Hh, Hm, (indent_none line Hi).
  destruct (currentTask st); reflexivity.
Qed.

(** X3.  A line that is no heading, no task line and does not start with
    two spaces is skipped wherever it stands: the result is the one of
    the document without that line.  Blank lines and text at the left
    margin are such lines; in particular they do not end the task
    being read, whose indented lines may go on after them. *)
Theorem unindented_text_is_skipped (l1 l2 : list (list N)) (line : list N) :
  isHeading line = false -> exec taskLineRe line = None ->
  startsWith (u16 "  ") line = false ->
  parseDoc (l1 ++ line :: l2) = parseDoc (l1 ++ l2).
Proof.
  intros Hh Hm Hi. unfold parseDoc.
  rewrite !parseLines_app. simpl.
  rewrite (parseLine_skips _ line Hh Hm Hi). reflexivity.
Qed.

Lemma unindented_text_is_skipped_witness :
  parseDoc ([u16 "## A"; u16 "- [ ] 1. Do X"] ++ [] :: [u16 "  - sub one"])
  = parseDoc ([u16 "## A"; u16 "- [ ] 1. Do X"] ++ [u16 "  - sub one"]) /\
  parseDoc ([u16 "## A"; u16 "- [ ] 1. Do X"] ++ [u16 "  - sub one"])
  = [mkSection (u16 "A")
       [mkTask (u16 "1") (u16 "1. Do X") [] false [] [u16 "sub one"]]].
Proof.
  split.
  - apply (unindented_text_is_skipped
             [u16 "## A"; u16 "- [ ] 1. Do X"] [u16 "  - sub one"] []);
      reflexivity.
  - vm_compute. reflexivity.
Defined.

(** ** The functions that read the parse result *)

Lemma find_head_filter {A} (p : A -> bool) (l : list A) :
  List.find p l = hd_error (List.filter p l).
Proof.
  induction l as [|a l IH]; simpl; [reflexivity|].
  destruct (p a); [reflexivity|exact IH].
Qed.

(** X4.  [getNextTask] returns the first of the tasks that
    [getIncompleteTasks] lists, and [null] exactly when that list is
    empty. *)
Theorem next_is_first_incomplete (content : list N) :
  getNextTask content = hd_error (getIncompleteTasks content) /\
  (getNextTask content = None <-> getIncompleteTasks content = []).
Proof.
  unfold getNextTask, getIncompleteTasks. rewrite find_head_filter.
  split; [reflexivity|].
  destruct (List.filter _ _); simpl; split; congruence.
Qed.

Lemma filter_split_length {A} (p : A -> bool) (l : list A) :
  (length (List.filter p l) + length (List.filter (fun x => negb (p x)) l)
   = length l)%nat.
Proof.
  induction l as [|a l IH]; simpl; [reflexivity|].
  destruct (p a); simpl; lia.
Qed.

(** X5.  The counts of [getTaskProgress] and the list of
    [getIncompleteTasks] add up: completed tasks and incomplete tasks
    together are all the tasks, and the task [getNextTask] returns is
    [null] exactly when completed equals total. *)
Theorem progress_and_incomplete_add_up (content : list N) :
  (p_completed (getTaskProgress content)
   + length (getIncompleteTasks content)
   = p_total (getTaskProgress content))%nat /\
  (getNextTask content = None <->
   p_completed (getTaskProgress content) = p_total (getTaskProgress content)).
Proof.
  unfold getTaskProgress, getIncompleteTasks, getNextTask.
  cbn [p_completed p_total].
  pose proof (filter_split_length completed (getAllTasks content)) as H.
  split; [exact H|].
  rewrite find_head_filter.
  destruct (List.filter (fun t => negb (completed t)) (getAllTasks content));
    simpl in *; split; intros E; try congruence; try lia.
Qed.

(** X6.  The task [getNextTask] returns can be looked up by its id:
    [getTaskById] finds a task with that id which is in the document
    before the next task or is the next task itself.  ([preparePrompt]
    and [createManualTestPrompt] make that lookup and throw when it
    finds nothing.)  The two need not be the same task: when an earlier
    task has the same id, the lookup returns the earlier one. *)
Theorem next_task_is_found_by_id (content : list N) (t : Task) :
  getNextTask content = Some t ->
  exists t' before rest,
    getTaskById content (id t) = Some t' /\ id t' = id t /\
    getAllTasks content = before ++ t :: rest /\
    (t' = t \/ In t' before).
Proof.
  unfold getNextTask, getTaskById.
  induction (getAllTasks content) as [|a l IH]; simpl; [discriminate|].
  destruct (completed a) eqn:Ha; simpl.
  - intros H. destruct (IH H) as (t' & before & rest & Hf & Hid & -> & Hor).
    destruct (jseq (id a) (id t)) eqn:E.
    + exists a, (a :: before), rest.
      unfold jseq in E. apply bool_decide_eq_true in E.
      repeat split; [exact E|]. right. left. reflexivity.
    + exists t', (a :: before), rest. repeat split; try assumption.
      destruct Hor; [left|right; right]; assumption.
  - intros [= ->]. exists t, [], l.
    unfold jseq. rewrite bool_decide_eq_true_2 by reflexivity. auto.
Qed.

Lemma next_task_is_found_by_id_witness :
  exists t' before rest,
    getTaskById sample (id (mkTask (u16 "3")
                              (u16 "3. Simplify Claude Code execution")
                              (u16 "- _Requirements: 2.8, 2.10_") false [] []))
      = Some t' /\
    id t' = u16 "3" /\
    getAllTasks sample
      = before ++ mkTask (u16 "3") (u16 "3. Simplify Claude Code execution")
                    (u16 "- _Requirements: 2.8, 2.10_") false [] [] :: rest /\
    (t' = mkTask (u16 "3") (u16 "3. Simplify Claude Code execution")
            (u16 "- _Requirements: 2.8, 2.10_") false [] [] \/ In t' before).
Proof.
  apply (next_task_is_found_by_id sample). vm_compute. reflexivity.
Defined.

(** ** The percentage, halves included *)

Section Binary64Bounds.
Import Float64.
Local Open Scope Z_scope.

(** The two roundings of [(c / t) * 100] move the result by less than
    [1 / (2 * t)], so that [Math.round] returns the exactly rounded
    percentage or, at a half, possibly the integer below it. *)
Lemma percentage_near (c t : Z) :
  0 < t < 2 ^ 32 -> 0 <= c <= t ->
  (200 * c + t) / (2 * t) - 1
  <= Math_round (mul (div (of_Z c) (of_Z t)) (of_Z 100))
  <= (200 * c + t) / (2 * t).
Proof.
  intros Ht Hc.
  destruct (Z.eq_dec c 0) as [-> | Hc0].
  - change (of_Z 0) with zero. unfold div. change (num zero) with 0.
    rewrite Z.mul_0_l. change (round_nearest_even 0 _) with zero.
    unfold mul. change (num zero) with 0. rewrite Z.mul_0_l.
    change (round_nearest_even 0 _) with zero.
    change (Math_round zero) with 0.
    rewrite (Z.div_small (200 * 0 + t) (2 * t)) by lia. lia.
  - assert (Hc' : 0 < c) by lia.
    assert (H53 : 2 ^ 32 < 2 ^ 53) by (apply Z.pow_lt_mono_r; lia).
    pose proof (of_Z_exact c ltac:(lia)) as Ec.
    pose proof (of_Z_exact t ltac:(lia)) as Et.
    pose proof (den_pos (of_Z c)) as Dc. pose proof (den_pos (of_Z t)) as Dt.
    unfold div. rewrite Ec, Et.
    set (K := den (of_Z c) * den (of_Z t)).
    assert (HK : 0 < K) by (apply Z.mul_pos_pos; assumption).
    replace (c * den (of_Z c) * den (of_Z t)) with (c * K) by (unfold K; ring).
    replace (den (of_Z c) * (t * den (of_Z t))) with (t * K) by (unfold K; ring).
    pose proof (round_error (c * K) (t * K) ltac:(nia) ltac:(nia)) as E1.
    set (x1 := round_nearest_even (c * K) (t * K)) in *.
    pose proof (den_pos x1) as D1.
    set (N1 := num x1) in *. set (D1' := den x1) in *.
    replace (N1 * (t * K) - c * K * D1') with (K * (N1 * t - c * D1')) in E1 by ring.
    rewrite abs_mul_pos in E1 by exact HK.
    assert (E1' : 2 ^ 53 * Z.abs (N1 * t - c * D1') <= c * D1') by nia.
    clear E1.
    assert (HN1 : 0 < N1).
    { destruct (Z_lt_le_dec 0 N1) as [ | Hneg]; [assumption | exfalso].
      assert (c * D1' <= Z.abs (N1 * t - c * D1')) by nia.
      assert (0 < c * D1') by nia. nia. }
    unfold mul. fold N1. fold D1'.
    assert (Eh : num (of_Z 100) = 100 * den (of_Z 100)) by (vm_compute; reflexivity).
    pose proof (den_pos (of_Z 100)) as Dh.
    rewrite Eh. set (H := den (of_Z 100)) in *.
    pose proof (round_error (N1 * (100 * H)) (D1' * H) ltac:(nia) ltac:(nia)) as E2.
    set (x2 := round_nearest_even (N1 * (100 * H)) (D1' * H)) in *.
    pose proof (den_pos x2) as D2.
    set (N2 := num x2) in *. set (D2' := den x2) in *.
    replace (N2 * (D1' * H) - N1 * (100 * H) * D2')
      with (H * (N2 * D1' - 100 * N1 * D2')) in E2 by ring.
    rewrite abs_mul_pos in E2 by exact Dh.
    assert (E2' : 2 ^ 53 * Z.abs (N2 * D1' - 100 * N1 * D2') <= 100 * N1 * D2')
      by nia.
    clear E2.
    assert (E3 : 2 ^ 53 * Z.abs (N2 * t - 100 * c * D2') <= 300 * c * D2').
    { assert (Hid : D1' * (N2 * t - 100 * c * D2')
                    = t * (N2 * D1' - 100 * N1 * D2')
                      + 100 * D2' * (N1 * t - c * D1')) by ring.
      assert (Hn1t : N1 * t <= 2 * (c * D1')).
      { assert (0 <= 2 ^ 53) by (apply Z.pow_nonneg; lia).
        assert (0 < 2 ^ 53) by (apply Z.pow_pos_nonneg; lia). nia. }
      assert (Habs : D1' * Z.abs (N2 * t - 100 * c * D2')
                     <= t * Z.abs (N2 * D1' - 100 * N1 * D2')
                        + 100 * D2' * Z.abs (N1 * t - c * D1')).
      { rewrite <- (abs_mul_pos D1') by exact D1. rewrite Hid.
        rewrite <- (abs_mul_pos t) by lia.
        rewrite <- (abs_mul_pos (100 * D2')) by lia.
        apply Z.abs_triangle. }
      assert (Hb1 : 2 ^ 53 * (t * Z.abs (N2 * D1' - 100 * N1 * D2'))
                    <= t * (100 * N1 * D2')) by nia.
      assert (Hb2 : 2 ^ 53 * (100 * D2' * Z.abs (N1 * t - c * D1'))
                    <= 100 * D2' * (c * D1')) by nia.
      assert (Hb3 : t * (100 * N1 * D2') <= 200 * c * D1' * D2') by nia.
      assert (Hall : D1' * (2 ^ 53 * Z.abs (N2 * t - 100 * c * D2'))
                     <= D1' * (300 * c * D2')) by nia.
      apply Z.mul_le_mono_pos_l in Hall; assumption. }
    unfold Math_round. fold N2. fold D2'.
    set (X := N2 * t - 100 * c * D2') in *.
    pose proof (Z.div_mod (200 * c + t) (2 * t) ltac:(lia)) as Hdm.
    pose proof (Z.mod_pos_bound (200 * c + t) (2 * t) ltac:(lia)) as Hrho.
    set (P := (200 * c + t) / (2 * t)) in *.
    set (rho := (200 * c + t) mod (2 * t)) in *.
    assert (Hsmall : 2 * Z.abs X < D2').
    { assert (2 ^ 53 * (2 * Z.abs X) <= 600 * t * D2') by nia.
      assert (600 * t < 2 ^ 53).
      { change (2 ^ 53) with (2 ^ 21 * 2 ^ 32). change (2 ^ 21) with 2097152. lia. }
      assert (0 < 2 ^ 53) by (apply Z.pow_pos_nonneg; lia).
      nia. }
    assert (Hkey : (2 * N2 + D2' - 2 * D2' * P) * t = 2 * X + D2' * rho).
    { unfold X. replace (D2' * rho) with (D2' * (200 * c + t - 2 * t * P)) by (f_equal; lia).
      ring. }
    split.
    + apply Z.div_le_lower_bound; [lia | ].
      assert (Hlow : (2 * N2 + D2' - 2 * D2' * P + 2 * D2') * t
                     = 2 * X + D2' * rho + 2 * D2' * t)
        by (rewrite Z.mul_add_distr_r, Hkey; ring).
      assert (0 <= D2' * rho) by nia.
      assert (2 * D2' <= 2 * D2' * t) by nia.
      assert (0 < 2 * X + D2' * rho + 2 * D2' * t) by lia.
      nia.
    + apply Z.lt_succ_r. apply Z.div_lt_upper_bound; [lia | ].
      assert (Hup : (2 * D2' * Z.succ P - (2 * N2 + D2')) * t
                    = D2' * (2 * t - rho) - 2 * X).
      { replace (2 * D2' * Z.succ P - (2 * N2 + D2'))
          with (2 * D2' - (2 * N2 + D2' - 2 * D2' * P)) by lia.
        rewrite Z.mul_sub_distr_r, Hkey. ring. }
      assert (D2' <= D2' * (2 * t - rho)) by nia.
      assert (0 < D2' * (2 * t - rho) - 2 * X) by lia.
      nia.
Qed.

End Binary64Bounds.

(** X7.  For every document with fewer than 2^32 tasks, the percentage of
    [getTaskProgress] lies between 0 and 100, is never above the exactly
    rounded percentage and never more than one below it. *)
Theorem percentage_within_one_of_exact (content : list N) :
  (0 < p_total (getTaskProgress content))%nat ->
  (Z.of_nat (p_total (getTaskProgress content)) < 2 ^ 32)%Z ->
  (0 <= p_percentage (getTaskProgress content) <= 100)%Z /\
  (exactPercentage (p_completed (getTaskProgress content))
                   (p_total (getTaskProgress content)) - 1
   <= p_percentage (getTaskProgress content)
   <= exactPercentage (p_completed (getTaskProgress content))
                      (p_total (getTaskProgress content)))%Z.
Proof.
  unfold getTaskProgress. cbn [p_total p_completed p_percentage].
  set (ts := getAllTasks content).
  intros Hpos Hbound.
  assert (Hle : (length (List.filter completed ts) <= length ts)%nat)
    by apply List.filter_length_le.
  apply Nat.ltb_lt in Hpos. rewrite Hpos. apply Nat.ltb_lt in Hpos.
  set (c := Z.of_nat (length (List.filter completed ts))) in *.
  set (t := Z.of_nat (length ts)) in *.
  assert (Hc : (0 <= c <= t)%Z) by (unfold c, t; lia).
  assert (Ht : (0 < t < 2 ^ 32)%Z) by (unfold t; lia).
  pose proof (percentage_near c t Ht Hc) as [Hlo Hhi].
  unfold exactPercentage. fold c. fold t.
  replace (2 * (100 * c) + t)%Z with (200 * c + t)%Z by lia.
  set (R := Float64.Math_round _) in *.
  set (P := ((200 * c + t) / (2 * t))%Z) in *.
  assert (HP : (0 <= P <= 100)%Z).
  { unfold P. split.
    - apply Z.div_pos; lia.
    - apply Z.lt_succ_r. apply Z.div_lt_upper_bound; lia. }
  split; [|lia]. split; [|lia].
  destruct (Z.eq_dec P 0%Z) as [E0|]; [|lia].
  (* below a half the rounding is exact *)
  assert (Hm : ((200 * c + t) mod (2 * t) <> 0)%Z).
  { intros Hm. pose proof (Z.div_mod (200 * c + t) (2 * t) ltac:(lia)) as E.
    fold P in E. rewrite E0, Hm in E. lia. }
  unfold R. rewrite (percentage_exact c t Ht Hc Hm). fold P. lia.
Qed.

Lemma percentage_within_one_of_exact_witness :
  (0 <= p_percentage (getTaskProgress fortyTasks) <= 100)%Z /\
  (exactPercentage 23 40 - 1 <= p_percentage (getTaskProgress fortyTasks)
   <= exactPercentage 23 40)%Z.
Proof.
  apply (percentage_within_one_of_exact fortyTasks).
  - vm_compute. lia.
  - vm_compute. reflexivity.
Defined.

(** X8.  When every task is completed the percentage is 100.  With fewer
    than 200 tasks the converse holds as well: 100 is reported only when
    no task is left.  (With 199 tasks of 200 completed the quotient is
    99.5 percent and 100 is reported, see [one_of_200_left].) *)
Theorem full_percentage_means_all_done (content : list N) :
  (0 < p_total (getTaskProgress content))%nat ->
  (Z.of_nat (p_total (getTaskProgress content)) < 2 ^ 32)%Z ->
  (p_completed (getTaskProgress content) = p_total (getTaskProgress content) ->
   p_percentage (getTaskProgress content) = 100%Z) /\
  ((p_total (getTaskProgress content) < 200)%nat ->
   p_percentage (getTaskProgress content) = 100%Z ->
   p_completed (getTaskProgress content) = p_total (getTaskProgress content)).
Proof.
  unfold getTaskProgress. cbn [p_total p_completed p_percentage].
  set (ts := getAllTasks content).
  intros Hpos Hbound.
  assert (Hle : (length (List.filter completed ts) <= length ts)%nat)
    by apply List.filter_length_le.
  apply Nat.ltb_lt in Hpos. rewrite Hpos. apply Nat.ltb_lt in Hpos.
  set (c := Z.of_nat (length (List.filter completed ts))) in *.
  set (t := Z.of_nat (length ts)) in *.
  assert (Hc : (0 <= c <= t)%Z) by (unfold c, t; lia).
  assert (Ht : (0 < t < 2 ^ 32)%Z) by (unfold t; lia).
  split.
  - intros E. assert (Ect : c = t) by (unfold c, t; lia).
    assert (E201 : (200 * t + t = t + 100 * (2 * t))%Z) by ring.
    rewrite Ect, percentage_exact; [|exact Ht|lia|].
    + rewrite E201, Z.div_add by lia. rewrite Z.div_small by lia. reflexivity.
    + rewrite E201, Z.mod_add by lia. rewrite Z.mod_small by lia. lia.
  - intros Hfew E.
    pose proof (percentage_near c t Ht Hc) as [_ Hhi]. rewrite E in Hhi.
    assert (Hfew' : (t < 200)%Z) by (unfold t; lia).
    assert (H : (100 * (2 * t) <= 200 * c + t)%Z).
    { pose proof (Z.mul_div_le (200 * c + t) (2 * t) ltac:(lia)). nia. }
    assert (c = t) by lia. unfold c, t in *. lia.
Qed.

Example one_of_200_left :
  Float64.Math_round
    (Float64.mul (Float64.div (Float64.of_Z 199) (Float64.of_Z 200))
       (Float64.of_Z 100)) = 100%Z.
Proof. vm_compute. reflexivity. Qed.

Lemma full_percentage_means_all_done_witness :
  p_percentage (getTaskProgress (join newline [u16 "## A"; u16 "- [x] 1. Do X"]))
  = 100%Z.
Proof.
  apply (full_percentage_means_all_done
           (join newline [u16 "## A"; u16 "- [x] 1. Do X"])).
  - vm_compute. lia.
  - vm_compute. reflexivity.
  - vm_compute. reflexivity.
Defined.

(** ** How the matcher runs on a checkbox line *)

Import Boxes.

Lemma taskLineRe_unfold :
  taskLineRe = Cat Bol (Cat (lit (u16 "- [")) (Cat (Star isSpace) boxRestRe)).
Proof. reflexivity. Qed.

Lemma rmatch_bol {A} (r : regex) (s : list N) (caps : gmap nat (list N))
    (k : bool -> list N -> gmap nat (list N) -> option A) :
  rmatch (Cat Bol r) true s caps k = rmatch r true s caps k.
Proof. reflexivity. Qed.

Lemma rmatch_star_cat {A} (p : N -> bool) (r : regex) (bol : bool) (s : list N)
    (caps : gmap nat (list N))
    (k : bool -> list N -> gmap nat (list N) -> option A) :
  rmatch (Cat (Star p) r) bol s caps k
  = star p s caps bol (fun b s' c => rmatch r b s' c k).
Proof. reflexivity. Qed.

(** A literal is matched without any choice. *)
Lemma rmatch_lit_cat {A} (t : list N) (r : regex) (s : list N)
    (caps : gmap nat (list N))
    (k : bool -> list N -> gmap nat (list N) -> option A) :
  forall bol,
  rmatch (Cat (lit t) r) bol (t ++ s) caps k
  = rmatch r (if t is [] then bol else false) s caps k.
Proof.
  induction t as [|a t IH]; intros bol; [reflexivity|].
  simpl. rewrite N.eqb_refl.
  change (rmatch (lit t) false (t ++ s) caps (fun b s' c => rmatch r b s' c k))
    with (rmatch (Cat (lit t) r) false (t ++ s) caps k).
  rewrite IH. destruct t; reflexivity.
Qed.

Lemma rmatch_lit_fail {A} (t : list N) (r : regex) (caps : gmap nat (list N))
    (k : bool -> list N -> gmap nat (list N) -> option A) :
  forall bol s,
  startsWith t s = false -> rmatch (Cat (lit t) r) bol s caps k = None.
Proof.
  induction t as [|a t IH]; intros bol s H; [discriminate H|].
  destruct s as [|b s]; [reflexivity|]. simpl in H |- *.
  destruct (a =? b); [|reflexivity]. simpl in H.
  change (rmatch (lit t) false s caps (fun b s' c => rmatch r b s' c k))
    with (rmatch (Cat (lit t) r) false s caps k).
  apply IH, H.
Qed.

Lemma rmatch_grp_chr {A} (i : nat) (p : N -> bool) (r : regex) (bol : bool)
    (a : N) (s : list N) (caps : gmap nat (list N))
    (k : bool -> list N -> gmap nat (list N) -> option A) :
  rmatch (Cat (Grp i (Chr p)) r) bol (a :: s) caps k
  = if p a then rmatch r false s (<[i := [a]]> caps) k else None.
Proof.
  simpl. destruct (p a); [|reflexivity].
  replace (S (length s) - length s)%nat with 1%nat by lia. reflexivity.
Qed.

Lemma star_stop {A} (p : N -> bool) (x : N) (s : list N)
    (caps : gmap nat (list N)) (bol : bool)
    (k : bool -> list N -> gmap nat (list N) -> option A) :
  p x = false -> star p (x :: s) caps bol k = k bol (x :: s) caps.
Proof. intros H. simpl. rewrite H. reflexivity. Qed.

(** A greedy run followed by something that can only match after the
    whole run. *)
Lemma star_last {A} (K : bool -> list N -> gmap nat (list N) -> option A)
    (R : option A) (x : N) (rest : list N) (caps : gmap nat (list N)) :
  isSpace x = false ->
  (forall b, K b (x :: rest) caps = R) ->
  (forall b a u, isSpace a = true -> K b (a :: u ++ x :: rest) caps = None) ->
  forall run bol,
  forallb isSpace run = true ->
  star isSpace (run ++ x :: rest) caps bol K = R.
Proof.
  intros Hx H0 H1. induction run as [|a run IH]; intros bol Hrun.
  - simpl app. rewrite star_stop by exact Hx. apply H0.
  - simpl in Hrun. apply andb_true_iff in Hrun as [Ha Hrun].
    simpl. rewrite Ha, (IH false Hrun).
    destruct R; [reflexivity|]. apply (H1 bol a run Ha).
Qed.

(** A greedy run of white space followed by something that can match
    only where a space starts what is left of the run. *)
Lemma star_box {A} (K : bool -> list N -> gmap nat (list N) -> option A)
    (R : option A) (x : N) (rest : list N) (caps : gmap nat (list N)) :
  isSpace x = false ->
  (forall b, K b (x :: rest) caps = None) ->
  (forall b a u, isSpace a = true -> forallb isSpace u = true ->
                 K b (a :: u ++ x :: rest) caps = if a =? 32 then R else None) ->
  forall run bol,
  forallb isSpace run = true ->
  star isSpace (run ++ x :: rest) caps bol K
  = if existsb (N.eqb 32) run then R else None.
Proof.
  intros Hx H0 H1. induction run as [|a run IH]; intros bol Hrun.
  - simpl app. rewrite star_stop by exact Hx. apply H0.
  - simpl in Hrun. apply andb_true_iff in Hrun as [Ha Hrun].
    cbn [app star existsb]. rewrite Ha, (IH false Hrun), (H1 bol a run Ha Hrun).
    rewrite (N.eqb_sym 32 a).
    destruct (existsb (N.eqb 32) run), (a =? 32), R; reflexivity.
Qed.

(** What the matcher does with the line of an unchecked box: it goes
    on to the text after the box with a space as its first capture,
    when there is a space between the brackets. *)
Lemma matchAt_unchecked (W S : list N) :
  forallb isSpace W = true ->
  matchAt taskLineRe true (u16 "- [" ++ W ++ u16 "] " ++ S)
  = if existsb (N.eqb 32) W
    then rmatch taskTailRe false S (<[1%nat := [32]]> ∅)
           (fun _ s' c => Some (s', c))
    else None.
Proof.
  intros HW. unfold matchAt.
  rewrite taskLineRe_unfold, rmatch_bol, rmatch_lit_cat, rmatch_star_cat.
  cbv iota. change (u16 "] ") with [93; 32]. simpl app.
  apply star_box; [reflexivity| | |exact HW].
  - intros b. unfold boxRestRe. rewrite rmatch_grp_chr. reflexivity.
  - intros b a u Ha Hu. unfold boxRestRe. rewrite rmatch_grp_chr.
    assert (E : (a =? 120) = false).
    { destruct (N.eqb_spec a 120) as [->|]; [discriminate Ha|reflexivity]. }
    rewrite E, orb_false_r.
    destruct (N.eqb_spec a 32) as [->|]; [|reflexivity].
    rewrite rmatch_star_cat.
    apply star_last; [reflexivity| | |exact Hu].
    + intros b'. apply (rmatch_lit_cat [93; 32]).
    + intros b' a' u' Ha'. apply (rmatch_lit_fail [93; 32]).
      cbn [startsWith app].
      destruct (N.eqb_spec 93 a') as [<-|]; [discriminate Ha'|reflexivity].
Qed.

(** And with the line of the box that [markTaskAsCompleted] writes. *)
Lemma matchAt_checked (S : list N) :
  matchAt taskLineRe true (checkedLine S)
  = rmatch taskTailRe false S (<[1%nat := [120]]> ∅)
      (fun _ s' c => Some (s', c)).
Proof.
  unfold matchAt, checkedLine.
  change (u16 "- [x] ") with (u16 "- [" ++ [120; 93; 32]).
  rewrite <- app_assoc.
  rewrite taskLineRe_unfold, rmatch_bol, rmatch_lit_cat, rmatch_star_cat.
  cbv iota. simpl app. rewrite star_stop by reflexivity.
  unfold boxRestRe. rewrite rmatch_grp_chr. simpl orb. cbv iota.
  rewrite rmatch_star_cat, star_stop by reflexivity.
  apply (rmatch_lit_cat [93; 32]).
Qed.

(** The captures other than the first do not depend on the first. *)
Lemma star_sameButBox (p : N -> bool)
    (K1 K2 : bool -> list N -> gmap nat (list N)
             -> option (list N * gmap nat (list N))) :
  (forall b s' d1 d2, sameButBox d1 d2 -> sameResult (K1 b s' d1) (K2 b s' d2)) ->
  forall s bol c1 c2,
  sameButBox c1 c2 -> sameResult (star p s c1 bol K1) (star p s c2 bol K2).
Proof.
  intros HK. induction s as [|a s IH]; intros bol c1 c2 Hc; simpl.
  - apply HK, Hc.
  - destruct (p a); [|apply HK, Hc].
    pose proof (IH false c1 c2 Hc) as H.
    destruct (star p s c1 false K1) as [[s1 d1]|],
             (star p s c2 false K2) as [[s2 d2]|]; simpl in H;
      try contradiction; [exact H|apply HK, Hc].
Qed.

Lemma rmatch_sameButBox (r : regex) :
  noBoxGroup r = true ->
  forall bol s c1 c2
         (K1 K2 : bool -> list N -> gmap nat (list N)
                  -> option (list N * gmap nat (list N))),
  sameButBox c1 c2 ->
  (forall b s' d1 d2, sameButBox d1 d2 -> sameResult (K1 b s' d1) (K2 b s' d2)) ->
  sameResult (rmatch r bol s c1 K1) (rmatch r bol s c2 K2).
Proof.
  induction r as [p| | | |r1 IH1 r2 IH2|r1 IH1 r2 IH2|p|r1 IH1|i r1 IH1];
    intros Hr bol s c1 c2 K1 K2 Hc HK; simpl in Hr |- *.
  - destruct s as [|c s]; [exact I|]. destruct (p c); [apply HK, Hc|exact I].
  - destruct bol; [apply HK, Hc|exact I].
  - destruct s; [apply HK, Hc|exact I].
  - apply HK, Hc.
  - apply andb_true_iff in Hr as [Hr1 Hr2].
    apply IH1; [exact Hr1|exact Hc|].
    intros b s' d1 d2 Hd. apply IH2; assumption.
  - apply andb_true_iff in Hr as [Hr1 Hr2].
    pose proof (IH1 Hr1 bol s c1 c2 K1 K2 Hc HK) as H.
    destruct (rmatch r1 bol s c1 K1) as [[s1 d1]|],
             (rmatch r1 bol s c2 K2) as [[s2 d2]|]; simpl in H;
      try contradiction; [exact H|].
    apply IH2; assumption.
  - apply star_sameButBox; assumption.
  - pose proof (IH1 Hr bol s c1 c2 K1 K2 Hc HK) as H.
    destruct (rmatch r1 bol s c1 K1) as [[s1 d1]|],
             (rmatch r1 bol s c2 K2) as [[s2 d2]|]; simpl in H;
      try contradiction; [exact H|apply HK, Hc].
  - apply andb_true_iff in Hr as [Hi Hr1].
    apply negb_true_iff, Nat.eqb_neq in Hi.
    apply IH1; [exact Hr1|exact Hc|].
    intros b s' d1 d2 Hd. apply HK. intros j Hj.
    destruct (Nat.eq_dec i j) as [->|Hij].
    + rewrite !lookup_insert_eq. reflexivity.
    + rewrite !lookup_insert_ne by exact Hij. apply Hd, Hj.
Qed.

Lemma tail_captures (S v1 v2 : list N) :
  sameResult
    (rmatch taskTailRe false S (<[1%nat := v1]> ∅) (fun _ s' c => Some (s', c)))
    (rmatch taskTailRe false S (<[1%nat := v2]> ∅) (fun _ s' c => Some (s', c))).
Proof.
  apply rmatch_sameButBox; [reflexivity| |].
  - intros i Hi. rewrite !lookup_insert_ne by congruence. reflexivity.
  - intros b s' d1 d2 Hd. simpl. auto.
Qed.

Lemma exec_taskLine (line : list N) :
  exec taskLineRe line =
  match matchAt taskLineRe true line with
  | Some (s', c) => Some (MatchResult 0 (take (length line - length s') line) c)
  | None => None
  end.
Proof. exact (exec_anchored _ line). Qed.

(** Checking the box of a task line changes nothing but the checkbox
    of the task the parser reads on it: same id, same title. *)
Lemma checking_the_box (line ws taskTitle : list N) (m : rmatch_result) :
  UncheckedBox line ws taskTitle ->
  exec taskLineRe line = Some m ->
  exists m',
    exec taskLineRe (checkedLine taskTitle) = Some m' /\
    taskOfMatch m' = setCompleted (taskOfMatch m).
Proof.
  intros U Hm.
  destruct U as (E & Hws & Hne & Hdot).
  destruct (taskLine_checked taskTitle Hne Hdot) as (m' & Hm' & Hdone).
  exists m'. split; [exact Hm'|].
  rewrite exec_taskLine, matchAt_checked in Hm'.
  rewrite E, exec_taskLine, matchAt_unchecked in Hm by exact Hws.
  destruct (existsb (N.eqb 32) ws); [|discriminate Hm].
  pose proof (tail_captures taskTitle [32] [120]) as Hsame.
  destruct (rmatch taskTailRe false taskTitle (<[1%nat := [32]]> ∅) _)
    as [[s1 d1]|]; [|discriminate Hm].
  destruct (rmatch taskTailRe false taskTitle (<[1%nat := [120]]> ∅) _)
    as [[s2 d2]|]; [|discriminate Hm'].
  destruct Hsame as [_ Hd].
  injection Hm as <-. injection Hm' as <-.
  unfold taskOfMatch, newTask, setCompleted in *. cbn [m_caps] in *.
  cbn [id title description completed requirements subtasks] in *.
  rewrite <- (Hd 2%nat), <- (Hd 3%nat) by discriminate.
  rewrite Hdone. reflexivity.
Qed.

(** ** Parsing a document before and after a box is checked *)

Lemma continuation_setCompleted (t : Task) (line : list N) :
  continuation (setCompleted t) line = setCompleted (continuation t line).
Proof.
  unfold continuation, setCompleted. cbn [id title description completed
                                          requirements subtasks].
  destruct (startsWith (u16 "_Requirements:") (trim line)); [reflexivity|].
  destruct (startsWith (u16 "- ") (trim line)
            && negb (startsWith (u16 "- _") (trim line))); [reflexivity|].
  destruct (negb (Nat.eqb (length (trim line)) 0)); reflexivity.
Qed.

Lemma oneChecked_parseLine (before : list Task) (st st' : pstate)
    (line : list N) :
  oneChecked before st st' ->
  oneChecked before (parseLine st line) (parseLine st' line).
Proof.
  intros H. destruct (isHeading line) eqn:Hh.
  - unfold parseLine. rewrite Hh.
    destruct H as [cl sec t Ht ->|cl ti a t b ct Ht ->|ca ti a t b cb cs ct Ht ->];
      unfold flushTask, pushTask; cbn [closed currentSection currentTask tasks
                                       sec_title option_list].
    + apply (checked_in_closed _ cl (sec_title sec) (tasks sec) t [] []);
        [exact Ht|reflexivity].
    + destruct ct as [t'|]; cbn [option_list]; rewrite <- ?app_assoc;
        cbn [app].
      * apply (checked_in_closed _ cl ti a t (b ++ [t']) []);
          [exact Ht|reflexivity].
      * apply (checked_in_closed _ cl ti a t b []); [exact Ht|reflexivity].
    + rewrite <- !app_assoc. cbn [app].
      apply checked_in_closed; [exact Ht|reflexivity].
  - destruct (exec taskLineRe line) as [m|] eqn:Hm.
    + rewrite (parseLine_task st line m Hh Hm), (parseLine_task st' line m Hh Hm).
      destruct H as [cl sec t Ht ->|cl ti a t b ct Ht ->|ca ti a t b cb cs ct Ht ->];
        unfold flushTask, pushTask; cbn [closed currentSection currentTask tasks
                                         sec_title].
      * apply (checked_in_section _ cl (sec_title sec) (tasks sec) t []);
          [exact Ht|reflexivity].
      * destruct ct as [t'|]; rewrite <- ?app_assoc; cbn [app];
          apply checked_in_section; (exact Ht || reflexivity).
      * apply checked_in_closed; [exact Ht|reflexivity].
    + unfold parseLine. rewrite Hh, Hm.
      destruct H as [cl sec t Ht ->|cl ti a t b ct Ht ->|ca ti a t b cb cs ct Ht ->];
        cbn [closed currentSection currentTask].
      * destruct (exec indentRe line).
        -- rewrite continuation_setCompleted. apply checked_current; [|reflexivity].
           destruct (continuation_completed t line) as [-> _]. exact Ht.
        -- apply checked_current; [exact Ht|reflexivity].
      * destruct ct as [t'|]; [destruct (exec indentRe line)|];
          apply checked_in_section; (exact Ht || reflexivity).
      * destruct ct as [t'|]; [destruct (exec indentRe line)|];
          apply checked_in_closed; (exact Ht || reflexivity).
Qed.

Lemma oneChecked_parseLines (before : list Task) (lines : list (list N)) :
  forall st st',
  oneChecked before st st' ->
  oneChecked before (parseLines st lines) (parseLines st' lines).
Proof.
  induction lines as [|l lines IH]; intros st st' H; simpl; [exact H|].
  apply IH, oneChecked_parseLine, H.
Qed.

Lemma tasks_middle (ca cb : list TaskSection) (ti : list N) (l : list Task) :
  List.concat (List.map tasks (ca ++ mkSection ti l :: cb))
  = List.concat (List.map tasks ca) ++ l ++ List.concat (List.map tasks cb).
Proof. rewrite tasks_app. reflexivity. Qed.

Lemma finish_split (cs : option TaskSection) (ct : option Task) :
  exists tail, forall cl, finish (mkPState cl cs ct) = cl ++ tail.
Proof.
  unfold finish, sectionsOf. cbn [closed currentSection currentTask].
  destruct ct, cs; eexists; intros cl; reflexivity.
Qed.

Lemma oneChecked_finish (before : list Task) (st st' : pstate) :
  oneChecked before st st' ->
  exists t rest,
    completed t = false /\
    List.concat (List.map tasks (finish st)) = before ++ t :: rest /\
    List.concat (List.map tasks (finish st'))
    = before ++ setCompleted t :: rest.
Proof.
  intros H.
  destruct H as [cl sec t Ht ->|cl ti a t b ct Ht ->|ca ti a t b cb cs ct Ht ->].
  - exists t, []. unfold finish. cbn [closed currentSection currentTask tasks
                                      sec_title].
    rewrite !(tasks_middle cl []). simpl. rewrite !app_nil_r, <- !app_assoc.
    auto.
  - destruct (finish_split (Some (mkSection ti (a ++ t :: b))) ct) as [tl E].
    destruct (finish_split (Some (mkSection ti (a ++ setCompleted t :: b))) ct)
      as [tl' E'].
    rewrite E, E'.
    pose proof (E []) as E0. pose proof (E' []) as E0'.
    unfold finish, sectionsOf in E0, E0'.
    cbn [closed currentSection currentTask tasks sec_title option_list app]
      in E0, E0'.
    destruct ct as [t'|]; subst tl tl'; cbv [option_list option_rect].
    + exists t, (b ++ [t']). rewrite !(tasks_middle cl []). simpl.
      rewrite !app_nil_r, <- !app_assoc. auto.
    + exists t, b. rewrite !(tasks_middle cl []). simpl.
      rewrite !app_nil_r, <- !app_assoc. auto.
  - destruct (finish_split cs ct) as [tl E]. rewrite !E.
    exists t, (b ++ List.concat (List.map tasks (cb ++ tl))).
    rewrite <- !app_assoc. cbn [app]. rewrite !tasks_middle, <- !app_assoc.
    auto.
Qed.

Lemma markLoop_some (taskId : list N) (rest : list (list N)) :
  forall (i : nat) (lines r : list (list N)),
  markLoop taskId rest i lines = Some r ->
  exists l1 l l2,
    rest = l1 ++ l :: l2 /\
    (forall x, In x l1 -> lineMatches taskId x = false) /\
    lineMatches taskId l = true /\
    r = <[(i + length l1)%nat := replace boxRe (u16 "- [x]") l]> lines.
Proof.
  induction rest as [|x rest IH]; intros i lines r H; simpl in H; [discriminate|].
  destruct (lineMatches taskId x) eqn:Hx.
  - injection H as <-. exists [], x, rest. simpl. rewrite Nat.add_0_r.
    repeat split; [intros y []|exact Hx].
  - destruct (IH _ _ _ H) as (l1 & l & l2 & -> & Hno & Hl & ->).
    exists (x :: l1), l, l2. simpl.
    replace (i + S (length l1))%nat with (S i + length l1)%nat by lia.
    repeat split; [|exact Hl]. intros y [<-|Hy]; [exact Hx|apply Hno, Hy].
Qed.

Lemma hasSection_parseLines (lines : list (list N)) :
  forall st,
  hasSection (parseLines st lines) = hasSection st || existsb isHeading lines.
Proof.
  induction lines as [|l lines IH]; intros st; simpl.
  - rewrite orb_false_r. reflexivity.
  - rewrite IH. destruct (parseLine_count st l) as [_ ->].
    rewrite orb_assoc. reflexivity.
Qed.

Lemma tasksInSections_prefix (l1 x y : list (list N)) :
  existsb isHeading l1 = true ->
  tasksInSections (l1 ++ x) = tasksInSections (l1 ++ y).
Proof.
  induction l1 as [|a l1 IH]; simpl; [discriminate|].
  destruct (isHeading a); [reflexivity|]. simpl. intros H.
  rewrite (IH H). reflexivity.
Qed.

Lemma find_app_first {A} (f : A -> bool) (a b : list A) :
  List.find f (a ++ b)
  = match List.find f a with Some x => Some x | None => List.find f b end.
Proof.
  induction a as [|x a IH]; simpl; [reflexivity|].
  destruct (f x); [reflexivity|exact IH].
Qed.

Lemma flushed_tasks (st : pstate) (sec : TaskSection) (x : Task) :
  flushTask st = Some sec ->
  In x (List.concat (List.map tasks (closed st)) ++ tasks sec) ->
  In x (stateTasks st).
Proof.
  intros Hf Hin. apply in_app_iff in Hin as [Hin|Hin].
  - apply stateTasks_eq. left. exact Hin.
  - eapply flushTask_tasks; eauto.
Qed.

(** An unchecked task read from the lines [l1] has its own line among
    them, and that line passes the test of [markTaskAsCompleted] for the
    id of the task. *)
Lemma open_task_has_line (l1 : list (list N)) (x : Task) :
  In x (stateTasks (parseLines (mkPState [] None None) l1)) ->
  completed x = false ->
  exists line, In line l1 /\ lineMatches (id x) line = true.
Proof.
  intros Hin Hopen.
  apply parseLines_tasks in Hin as [(t0 & H0 & _)|(line & m & Hl & Hm & Hid & Hc)].
  - apply stateTasks_eq in H0. simpl in H0.
    destruct H0 as [[]|[(sec & [=] & _)|[=]]].
  - exists line. split; [exact Hl|]. rewrite Hid.
    apply (taskLine_open_matches line m Hm). congruence.
Qed.

(** Marking the task that [getNextTask] returns, in a checklist whose
    checkbox lines all stand in a section and have a space in their box:
    the tasks before the next task are completed, the next task becomes
    completed, nothing else changes, and the new document is again such
    a checklist. *)
Lemma mark_next_core (content : list N) (n : nat) (t : Task) :
  validChecklist content = true ->
  boxesAreTasks content = true ->
  getNextTask content = Some t ->
  exists (content' : list N) (before rest : list Task),
    markTaskAsCompleted (mkFile content n) (id t)
      = (Ok tt, mkFile content' (S n)) /\
    getAllTasks content = before ++ t :: rest /\
    forallb completed before = true /\
    getAllTasks content' = before ++ setCompleted t :: rest /\
    List.map sec_title (parseTasks content')
      = List.map sec_title (parseTasks content) /\
    validChecklist content' = true /\
    boxesAreTasks content' = true.
Proof.
  intros Hvalid Hboxes Hnext.
  pose proof Hnext as Hfind. unfold getNextTask in Hfind.
  destruct (List.find_some _ _ Hfind) as [Hin Hopen].
  apply negb_true_iff in Hopen.
  destruct (getAllTasks_origin content t Hin) as (line & m & Hline & Hm & Hid & Hc).
  rewrite Hopen in Hc. symmetry in Hc.
  pose proof (taskLine_open_matches line m Hm Hc) as Hmatch.
  rewrite <- Hid in Hmatch.
  destruct (markLoop (id t) (split 10 content) 0 (split 10 content))
    as [r|] eqn:Hloop.
  2: { destruct (markLoop_first (id t) (split 10 content) 0 (split 10 content))
         as (k1 & k & k2 & _ & _ & Hsome); [eauto|].
       rewrite Hsome in Hloop. discriminate Hloop. }
  destruct (markLoop_some _ _ _ _ _ Hloop)
    as (l1 & l & l2 & Elines & Hno & Hl & Er).
  apply lineMatches_spec in Hl as (ws & taskTitle & U & _).
  rewrite (replace_box l ws taskTitle U) in Er. simpl in Er.
  assert (Enew : <[length l1 := checkedLine taskTitle]> (split 10 content)
                 = l1 ++ checkedLine taskTitle :: l2).
  { rewrite Elines. rewrite <- (Nat.add_0_r (length l1)).
    rewrite insert_app_r. reflexivity. }
  assert (Esplit :
    split 10 (join newline (l1 ++ checkedLine taskTitle :: l2))
    = l1 ++ checkedLine taskTitle :: l2).
  { apply split_join; [destruct l1; discriminate|].
    intros x Hx. apply in_app_iff in Hx as [Hx|[<-|Hx]].
    - apply (split_no_sep 10 content). rewrite Elines.
      apply in_app_iff. auto.
    - destruct U as (_ & _ & _ & Hdot). unfold checkedLine.
      intros Hbad. apply in_app_iff in Hbad as [Hbad|Hbad].
      + vm_compute in Hbad. intuition discriminate.
      + revert Hbad. apply isDot_no_newline, Hdot.
    - apply (split_no_sep 10 content). rewrite Elines.
      apply in_app_iff. right. right. exact Hx. }
  destruct (unchecked_is_checkbox _ _ _ U) as [Hcb Hh].
  assert (Hbefore : existsb isHeading l1 = true).
  { apply (heading_before l1 l l2); [|exact Hh|exact Hcb].
    unfold validChecklist in Hvalid. rewrite Elines in Hvalid. exact Hvalid. }
  (* the line is a task line *)
  assert (Htask : exists m0, exec taskLineRe l = Some m0).
  { unfold boxesAreTasks in Hboxes. rewrite forallb_forall in Hboxes.
    assert (Hl : In l (split 10 content))
      by (rewrite Elines; apply in_app_iff; right; left; reflexivity).
    specialize (Hboxes l Hl).
    destruct (unchecked_complete _ _ _ U) as (mu & Hmu & _).
    rewrite Hmu in Hboxes.
    rewrite (bool_decide_eq_true_2 (is_Some (Some mu))) in Hboxes by eauto.
    simpl in Hboxes. apply bool_decide_eq_true in Hboxes as [m0 Hm0]. eauto. }
  destruct Htask as [m0 Hm0].
  destruct (checking_the_box l ws taskTitle m0 U Hm0) as (m0' & Hm0' & Et0).
  pose proof (unchecked_not_completed _ _ _ _ U Hm0) as Hopen0.
  (* the two parses *)
  set (st1 := parseLines (mkPState [] None None) l1).
  assert (Hsec : exists sec1, flushTask st1 = Some sec1).
  { pose proof (hasSection_parseLines l1 (mkPState [] None None)) as Hs.
    fold st1 in Hs. rewrite Hbefore, orb_true_r in Hs.
    unfold hasSection in Hs. unfold flushTask, pushTask.
    destruct (currentSection st1); [|discriminate Hs].
    destruct (currentTask st1); eauto. }
  destruct Hsec as [sec1 Hsec1].
  set (P := List.concat (List.map tasks (closed st1)) ++ tasks sec1).
  assert (Hsim : oneChecked P
            (parseLines (mkPState [] None None) (l1 ++ l :: l2))
            (parseLines (mkPState [] None None)
               (l1 ++ checkedLine taskTitle :: l2))).
  { rewrite !parseLines_app. fold st1. simpl.
    apply oneChecked_parseLines.
    rewrite (parseLine_task st1 l m0 Hh Hm0).
    rewrite (parseLine_task st1 (checkedLine taskTitle) m0' eq_refl Hm0').
    rewrite Hsec1, Et0. apply checked_current; [exact Hopen0|reflexivity]. }
  destruct (oneChecked_finish _ _ _ Hsim) as (tf & B & Htf & E1 & E2).
  assert (Eall : getAllTasks content = P ++ tf :: B).
  { unfold getAllTasks, parseTasks, parseDoc. rewrite Elines. exact E1. }
  (* the tasks read before the line are completed, and the task of the
     line is the next task *)
  assert (HP : forall x, In x P -> completed x = false -> id x <> id t).
  { intros x Hx Hxo Exid.
    destruct (open_task_has_line l1 x) as (ln & Hln & Hlm);
      [apply (flushed_tasks st1 sec1 x Hsec1 Hx)|exact Hxo|].
    rewrite Exid, (Hno ln Hln) in Hlm. discriminate Hlm. }
  rewrite Eall, find_app_first in Hfind.
  destruct (List.find (fun t0 => negb (completed t0)) P) as [x0|] eqn:EP.
  { injection Hfind as ->. destruct (List.find_some _ _ EP) as [Hx0 Hx0o].
    apply negb_true_iff in Hx0o. destruct (HP t Hx0 Hx0o eq_refl). }
  simpl in Hfind. rewrite Htf in Hfind. simpl in Hfind. injection Hfind as ->.
  exists (join newline (l1 ++ checkedLine taskTitle :: l2)), P, B.
  split; [|split; [|split; [|split; [|split; [|split]]]]].
  - unfold markTaskAsCompleted. cbn [Spec.content Spec.writes].
    rewrite Hloop, Er, Enew. reflexivity.
  - exact Eall.
  - apply forallb_forall. intros x Hx.
    pose proof (List.find_none _ _ EP x Hx) as Hc0.
    apply negb_false_iff in Hc0. exact Hc0.
  - unfold getAllTasks, parseTasks, parseDoc. rewrite Esplit. exact E2.
  - unfold parseTasks, parseDoc.
    rewrite !finish_titles, !parseLines_titles, Esplit, Elines.
    rewrite !List.filter_app. simpl List.filter. rewrite Hh.
    change (isHeading (checkedLine taskTitle)) with false. reflexivity.
  - unfold validChecklist in *. rewrite Esplit.
    rewrite (tasksInSections_prefix l1 _ (l :: l2) Hbefore), <- Elines.
    exact Hvalid.
  - unfold boxesAreTasks in *. rewrite Esplit. rewrite Elines in Hboxes.
    rewrite forallb_app in Hboxes |- *. simpl in Hboxes |- *.
    apply andb_true_iff in Hboxes as [H1 H2].
    apply andb_true_iff in H2 as [_ H2].
    rewrite H1, H2, Hm0'.
    rewrite (bool_decide_eq_true_2 (is_Some (Some m0'))) by eauto.
    rewrite implb_true_r. reflexivity.
Qed.

Lemma setCompleted_idem (t : Task) :
  setCompleted (setCompleted t) = setCompleted t.
Proof. reflexivity. Qed.

Lemma filter_all_completed (l : list Task) :
  forallb completed l = true ->
  List.filter (fun t => negb (completed t)) l = [] /\
  List.filter completed l = l.
Proof.
  induction l as [|a l IH]; simpl; [auto|]. intros H.
  apply andb_true_iff in H as [Ha Hl]. rewrite Ha. simpl.
  destruct (IH Hl) as [-> ->]. auto.
Qed.

(** X9.  Marking the task that [getNextTask] returns, in a checklist whose
    checkbox lines all stand in a section and have a space in their box.
    The call succeeds and writes the file once.  Reading the new file,
    [getIncompleteTasks] returns what it returned before without its
    first element, which was the task marked; [getTaskProgress] counts
    one more completed task among as many tasks; and the tasks have the
    ids, titles, descriptions, requirements and subtasks they had, in
    the same order and under the same section titles: but for the
    checkboxes the two parse results are equal. *)
Theorem marking_the_next_task (content : list N) (n : nat) (t : Task) :
  validChecklist content = true ->
  boxesAreTasks content = true ->
  getNextTask content = Some t ->
  exists content' : list N,
    markTaskAsCompleted (mkFile content n) (id t)
      = (Ok tt, mkFile content' (S n)) /\
    getIncompleteTasks content = t :: getIncompleteTasks content' /\
    p_completed (getTaskProgress content')
      = S (p_completed (getTaskProgress content)) /\
    p_total (getTaskProgress content') = p_total (getTaskProgress content) /\
    List.map setCompleted (getAllTasks content')
      = List.map setCompleted (getAllTasks content) /\
    List.map sec_title (parseTasks content')
      = List.map sec_title (parseTasks content).
Proof.
  intros Hvalid Hboxes Hnext.
  destruct (mark_next_core content n t Hvalid Hboxes Hnext)
    as (content' & before & rest & Hmark & E & Hdone & E' & Htitles & _).
  assert (Hopen : completed t = false).
  { unfold getNextTask in Hnext. apply List.find_some in Hnext as [_ H].
    apply negb_true_iff in H. exact H. }
  destruct (filter_all_completed before Hdone) as [Fopen Fdone].
  exists content'. split; [exact Hmark|].
  unfold getIncompleteTasks, getTaskProgress. cbn [p_completed p_total].
  rewrite E, E'. rewrite !List.filter_app. simpl List.filter.
  rewrite Hopen, Fopen, Fdone. simpl.
  repeat split.
  - rewrite !length_app. simpl. lia.
  - rewrite !length_app. reflexivity.
  - rewrite !List.map_app. reflexivity.
  - exact Htitles.
Qed.

Lemma marking_the_next_task_witness :
  exists content' : list N,
    markTaskAsCompleted (mkFile SAMPLE_TASKS_CONTENT 0) (u16 "1")
      = (Ok tt, mkFile content' 1) /\
    List.map id (getIncompleteTasks content') = [u16 "3"; u16 "5"; u16 "6"] /\
    p_completed (getTaskProgress content') = 3%nat /\
    p_total (getTaskProgress content') = 6%nat.
Proof.
  destruct (marking_the_next_task SAMPLE_TASKS_CONTENT 0
              (mkTask (u16 "1")
                 (u16 "1. Update trigger detection for PR descriptions")
                 (u16 "- _Requirements: 1.1, 1.2, 1.3_") false []
                 [u16 "Modify `src/github/validation/trigger.ts` to parse PR body text";
                  u16 "Add `@usta execute <file_path>` pattern matching";
                  u16 "Support multiple triggers in PR descriptions"]))
    as (content' & Hm & Hinc & Hc & Ht & _).
  - vm_compute. reflexivity.
  - vm_compute. reflexivity.
  - vm_compute. reflexivity.
  - exists content'. split; [exact Hm|].
    split; [|split].
    + assert (E : List.map id (getIncompleteTasks SAMPLE_TASKS_CONTENT)
                  = [u16 "1"; u16 "3"; u16 "5"; u16 "6"])
        by (vm_compute; reflexivity).
      rewrite Hinc in E. simpl in E. injection E as E. exact E.
    + rewrite Hc. vm_compute. reflexivity.
    + rewrite Ht. vm_compute. reflexivity.
Defined.

(** ** Which line [markTaskAsCompleted] checks *)


Lemma checked_lines_split (content : list N) (l1 : list (list N))
    (l ws taskTitle : list N) (l2 : list (list N)) :
  split 10 content = l1 ++ l :: l2 ->
  UncheckedBox l ws taskTitle ->
  split 10 (join newline (l1 ++ checkedLine taskTitle :: l2))
  = l1 ++ checkedLine taskTitle :: l2.
Proof.
  intros Elines U.
  apply split_join; [destruct l1; discriminate|].
  intros x Hx. apply in_app_iff in Hx as [Hx|[<-|Hx]].
  - apply (split_no_sep 10 content). rewrite Elines.
    apply in_app_iff. auto.
  - destruct U as (_ & _ & _ & Hdot). unfold checkedLine.
    intros Hbad. apply in_app_iff in Hbad as [Hbad|Hbad].
    + vm_compute in Hbad. intuition discriminate.
    + revert Hbad. apply isDot_no_newline, Hdot.
  - apply (split_no_sep 10 content). rewrite Elines.
    apply in_app_iff. right. right. exact Hx.
Qed.

(** X10.  Whatever the document and the id: when [markTaskAsCompleted]
    succeeds it has written the file once, and the lines of the file
    are the old ones except for one line ["- [" ws "] " title], with
    white space only between the brackets, which has become
    ["- [x] " title].  The id derived from that title is the id asked
    for, or the title contains the id; and no line before it passes
    that test. *)
Theorem mark_checks_first_match (f f' : tasksFile) (taskId : list N) :
  markTaskAsCompleted f taskId = (Ok tt, f') ->
  exists (l1 : list (list N)) (ws taskTitle : list N) (l2 : list (list N)),
    split 10 (content f)
      = l1 ++ (u16 "- [" ++ ws ++ u16 "] " ++ taskTitle) :: l2 /\
    forallb isSpace ws = true /\
    (taskIdFromTitle taskTitle = taskId \/ includes taskId taskTitle = true) /\
    (forall x, In x l1 -> lineMatches taskId x = false) /\
    split 10 (content f') = l1 ++ (u16 "- [x] " ++ taskTitle) :: l2 /\
    writes f' = S (writes f).
Proof.
  unfold markTaskAsCompleted.
  destruct (markLoop taskId (split 10 (content f)) 0 (split 10 (content f)))
    as [r|] eqn:Hloop; [|discriminate].
  intros [= <-].
  destruct (markLoop_some _ _ _ _ _ Hloop) as (l1 & l & l2 & Elines & Hno & Hl & ->).
  apply lineMatches_spec in Hl as (ws & taskTitle & U & Hid).
  exists l1, ws, taskTitle, l2.
  rewrite (replace_box l ws taskTitle U). cbn [content writes].
  assert (El : l = u16 "- [" ++ ws ++ u16 "] " ++ taskTitle) by apply U.
  split; [rewrite Elines, El; reflexivity|].
  split; [apply U|]. split; [exact Hid|]. split; [exact Hno|].
  split; [|reflexivity].
  rewrite Elines at 1. simpl. rewrite <- (Nat.add_0_r (length l1)).
  rewrite insert_app_r. simpl.
  apply (checked_lines_split (content f) l1 l ws taskTitle l2 Elines U).
Qed.

Lemma mark_checks_first_match_witness :
  exists (l1 : list (list N)) (ws taskTitle : list N) (l2 : list (list N)),
    split 10 sample = l1 ++ (u16 "- [" ++ ws ++ u16 "] " ++ taskTitle) :: l2 /\
    forallb isSpace ws = true /\
    (taskIdFromTitle taskTitle = u16 "3" \/ includes (u16 "3") taskTitle = true) /\
    (forall x, In x l1 -> lineMatches (u16 "3") x = false) /\
    split 10 (content (snd (markTaskAsCompleted (mkFile sample 0) (u16 "3"))))
      = l1 ++ (u16 "- [x] " ++ taskTitle) :: l2 /\
    writes (snd (markTaskAsCompleted (mkFile sample 0) (u16 "3"))) = 1%nat.
Proof.
  apply (mark_checks_first_match (mkFile sample 0)).
  vm_compute. reflexivity.
Defined.



(** X12.  The two readers of checkbox lines do not agree on a box with
    nothing or only tabs between the brackets: the parser does not read
    such a line as a task, [markTaskAsCompleted] checks it like any
    other, and the line it writes is one the parser does read as a task.
    Marking can so add a task to the parse result. *)
Theorem box_without_space_is_no_task (ws taskTitle : list N) :
  forallb isSpace ws = true -> existsb (N.eqb 32) ws = false ->
  taskTitle <> [] -> forallb isDot taskTitle = true ->
  exec taskLineRe (u16 "- [" ++ ws ++ u16 "] " ++ taskTitle) = None /\
  lineMatches (taskIdFromTitle taskTitle)
    (u16 "- [" ++ ws ++ u16 "] " ++ taskTitle) = true /\
  replace boxRe (u16 "- [x]") (u16 "- [" ++ ws ++ u16 "] " ++ taskTitle)
    = u16 "- [x] " ++ taskTitle /\
  exists m, exec taskLineRe (u16 "- [x] " ++ taskTitle) = Some m /\
            completed (taskOfMatch m) = true.
Proof.
  intros Hws Hno Hne Hdot.
  assert (U : UncheckedBox (u16 "- [" ++ ws ++ u16 "] " ++ taskTitle) ws taskTitle)
    by (repeat split; assumption).
  split; [|split; [|split]].
  - rewrite exec_taskLine, matchAt_unchecked by exact Hws.
    rewrite Hno. reflexivity.
  - apply lineMatches_spec. eauto.
  - apply (replace_box _ ws taskTitle U).
  - apply (taskLine_checked taskTitle Hne Hdot).
Qed.

Lemma box_without_space_is_no_task_witness :
  exec taskLineRe (u16 "- [" ++ [] ++ u16 "] " ++ u16 "1. Do X") = None /\
  lineMatches (taskIdFromTitle (u16 "1. Do X"))
    (u16 "- [" ++ [] ++ u16 "] " ++ u16 "1. Do X") = true /\
  replace boxRe (u16 "- [x]") (u16 "- [" ++ [] ++ u16 "] " ++ u16 "1. Do X")
    = u16 "- [x] " ++ u16 "1. Do X" /\
  exists m, exec taskLineRe (u16 "- [x] " ++ u16 "1. Do X") = Some m /\
            completed (taskOfMatch m) = true.
Proof.
  apply (box_without_space_is_no_task [] (u16 "1. Do X"));
    [reflexivity | reflexivity | discriminate | reflexivity].
Defined.

(** ** Numbered task lines *)

Lemma isDigit_dot : isDigit 46 = false.
Proof. reflexivity. Qed.

(** On a title that starts with a number, a dot and a space, and goes
    on, the matcher takes the number as the second capture and the rest
    as the third. *)
Lemma tail_numbered (ds rest : list N) (caps : gmap nat (list N)) :
  ds <> [] -> forallb isDigit ds = true ->
  rest <> [] -> forallb isDot rest = true ->
  rmatch taskTailRe false (ds ++ u16 ". " ++ rest) caps
    (fun _ s' c => Some (s', c))
  = Some ([], <[3%nat := rest]> (<[2%nat := ds ++ u16 ". "]> caps)).
Proof.
  intros Hds Hdig Hrest Hdot.
  set (S := ds ++ u16 ". " ++ rest).
  set (R3 := Cat (Grp 3 (Plus isDot)) Eol).
  set (G := Grp 2 (Cat (Plus isDigit) (lit (u16 ". ")))).
  set (K := fun (b : bool) (s' : list N) (c : gmap nat (list N)) =>
              rmatch R3 b s' c (fun _ s'' c' => Some (s'', c'))).
  change (rmatch taskTailRe false S caps (fun _ s' c => Some (s', c)))
    with (match rmatch G false S caps K with
          | Some a => Some a
          | None => K false S caps
          end).
  assert (HG : matches G false S caps false rest (<[2%nat := ds ++ u16 ". "]> caps)).
  { unfold G. cbn [matches]. exists caps. split.
    - exists false, (u16 ". " ++ rest), caps. split.
      + apply matches_plus. exists ds. auto.
      + apply matches_lit. auto.
    - f_equal. unfold S. rewrite (app_assoc ds). symmetry. apply take_used. }
  assert (H3 : forall b c,
            matches R3 b rest c false [] (<[3%nat := rest]> c)).
  { intros b c. unfold R3. cbn [matches].
    exists false, [], (<[3%nat := rest]> c). split; [|auto].
    exists c. split.
    - apply matches_plus. exists rest. rewrite app_nil_r. auto.
    - simpl length. rewrite Nat.sub_0_r, firstn_all. reflexivity. }
  assert (Hsome : is_Some (rmatch G false S caps K)).
  { eapply rmatch_complete; [exact HG|]. unfold K.
    eapply rmatch_complete; [apply H3|]. eauto. }
  destruct Hsome as [a Ha]. rewrite Ha. f_equal.
  apply rmatch_sound in Ha as (b' & s' & c' & MG & HK).
  unfold G in MG. cbn [matches] in MG.
  destruct MG as (c1 & (b1 & s1 & c1' & M1 & M2) & Ec').
  apply matches_plus in M1 as (ds' & Hds' & E1 & Hdig' & _ & ->).
  apply matches_lit in M2 as (E2 & _ & ->).
  assert (Euniq : ds' = ds /\ s' = rest).
  { unfold S in E1. rewrite E2 in E1.
    change (u16 ". ") with [46; 32] in E1. simpl in E1.
    destruct (span_unique isDigit ds ds' (32 :: rest) (32 :: s') 46 46
                Hdig Hdig' isDigit_dot isDigit_dot E1) as (-> & _ & [= ->]).
    auto. }
  destruct Euniq as [-> ->].
  assert (Ecap : take (length S - length rest) S = ds ++ u16 ". ").
  { unfold S. rewrite (app_assoc ds). apply take_used. }
  rewrite Ecap in Ec'. subst c'.
  unfold K in HK. apply rmatch_sound in HK as (b2 & s2 & c2 & M3 & [= <-]).
  unfold R3 in M3. cbn [matches] in M3.
  destruct M3 as (b3 & s3 & c3 & (c3' & M3 & ->) & (E3 & _ & -> & ->)).
  apply matches_plus in M3 as (run & _ & Erun & _ & _ & ->).
  subst s3. rewrite app_nil_r in Erun. subst run.
  simpl length. rewrite Nat.sub_0_r, firstn_all. reflexivity.
Qed.

Lemma taskOfMatch_numbered (c : N) (ds rest text : list N) (idx : nat) :
  ds <> [] -> forallb isDigit ds = true ->
  taskOfMatch
    (MatchResult idx text
       (<[3%nat := rest]> (<[2%nat := ds ++ u16 ". "]> (<[1%nat := [c]]> ∅))))
  = mkTask ds (trim (ds ++ u16 ". " ++ rest)) [] (bool_decide (c = 120)) [] [].
Proof.
  intros Hds Hdig. unfold taskOfMatch, newTask. cbn [m_caps].
  rewrite lookup_insert_eq.
  rewrite (lookup_insert_ne _ 3%nat 2%nat) by discriminate.
  rewrite lookup_insert_eq.
  rewrite (lookup_insert_ne _ 3%nat 1%nat) by discriminate.
  rewrite (lookup_insert_ne _ 2%nat 1%nat) by discriminate.
  rewrite lookup_insert_eq. cbn [default].
  assert (Htr : truthy (ds ++ u16 ". ") = true)
    by (destruct ds; [congruence|reflexivity]).
  rewrite Htr.
  change (u16 ". ") with (u16 "." ++ u16 " ") at 1.
  rewrite replaceStr_dot by exact Hdig.
  rewrite trim_digits by assumption.
  rewrite <- app_assoc. f_equal.
  unfold jseq. change (u16 "x") with [120]. apply bool_decide_ext.
  split; [intros [= ->]; reflexivity | intros ->; reflexivity].
Qed.

(** X13.  A task line with a number: after the checkbox come digits, a dot,
    a space and a text that is not empty.  The id of its task is the
    number (the digits, without the dot), the title is the number, the
    dot and the text, and the task is completed exactly when the box
    holds an [x].  An unchecked box may hold any white space that
    includes a space. *)
Theorem numbered_task_line (name ws ds rest : list N) :
  forallb isSpace ws = true -> existsb (N.eqb 32) ws = true ->
  ds <> [] -> forallb isDigit ds = true ->
  rest <> [] -> forallb isDot rest = true ->
  parseDoc [u16 "## " ++ name;
            u16 "- [" ++ ws ++ u16 "] " ++ ds ++ u16 ". " ++ rest]
  = [mkSection (trim name)
       [mkTask ds (trim (ds ++ u16 ". " ++ rest)) [] false [] []]] /\
  parseDoc [u16 "## " ++ name; u16 "- [x] " ++ ds ++ u16 ". " ++ rest]
  = [mkSection (trim name)
       [mkTask ds (trim (ds ++ u16 ". " ++ rest)) [] true [] []]].
Proof.
  intros Hws Hsp Hds Hdig Hrest Hdot.
  assert (Hhead : parseLine (mkPState [] None None) (u16 "## " ++ name)
                  = mkPState [] (Some (mkSection (trim name) [])) None)
    by reflexivity.
  split; unfold parseDoc, parseLines; cbn [fold_left]; rewrite Hhead.
  - erewrite parseLine_task; [|reflexivity|].
    2: { rewrite exec_taskLine, matchAt_unchecked by exact Hws.
         rewrite Hsp, tail_numbered by assumption. reflexivity. }
    rewrite taskOfMatch_numbered by assumption. reflexivity.
  - erewrite parseLine_task; [|reflexivity|].
    2: { change (u16 "- [x] " ++ ds ++ u16 ". " ++ rest)
           with (checkedLine (ds ++ u16 ". " ++ rest)).
         rewrite exec_taskLine, matchAt_checked.
         rewrite tail_numbered by assumption. reflexivity. }
    rewrite taskOfMatch_numbered by assumption. reflexivity.
Qed.

Lemma numbered_task_line_witness :
  parseDoc [u16 "## " ++ u16 "Core Changes";
            u16 "- [" ++ u16 "  " ++ u16 "] " ++ u16 "12" ++ u16 ". "
            ++ u16 "Update trigger detection"]
  = [mkSection (u16 "Core Changes")
       [mkTask (u16 "12") (u16 "12. Update trigger detection") [] false [] []]].
Proof.
  destruct (numbered_task_line (u16 "Core Changes") (u16 "  ") (u16 "12")
              (u16 "Update trigger detection")) as [H _];
    [reflexivity | reflexivity | discriminate | reflexivity
     | discriminate | reflexivity | ].
  rewrite H. vm_compute. reflexivity.
Defined.

(** ** Resolution: the extension of the name, errors, precedence *)

Section ResolveMore.
Import Resolve Specs.












(** X15.  When the specs root cannot be listed.  If it does not exist
    ([readdir] fails with ENOENT) a bare name is reported as "Spec not
    found", like a name that matches nothing; any other failure of
    [readdir] reaches the caller of [getSpecPath] as it is. *)
Theorem unreadable_specs_root (pf : Platform) (fs : FileSystem)
    (specName : list N) (e : exn) :
  bareName pf specName ->
  readdir fs (specsRoot pf) = Throw e ->
  getSpecPath pf fs (Some specName)
  = Throw (match e with
           | ErrnoException code =>
               if jseq code ENOENT then notFound specName else e
           | Error _ => e
           end).
Proof.
  intros Hbare Hdir.
  destruct (bareName_strategies pf fs specName Hbare) as [Ha Hr].
  assert (Ht : truthy specName = true) by apply Hbare.
  unfold getSpecPath. rewrite Ht, Ha, Hr. simpl negb. cbv iota.
  unfold fuzzyMatchSpec, fuzzyMatchBody. rewrite Hdir.
  destruct e as [msg|code]; [reflexivity|].
  destruct (jseq code ENOENT); reflexivity.
Qed.

Lemma unreadable_specs_root_witness :
  getSpecPath repo
    (mkFS (fun _ => Throw (ErrnoException ENOENT))
          (fun _ => Throw (ErrnoException ENOENT)))
    (Some (u16 "auth"))
  = Throw (notFound (u16 "auth")).
Proof.
  apply (unreadable_specs_root repo
           (mkFS (fun _ => Throw (ErrnoException ENOENT))
                 (fun _ => Throw (ErrnoException ENOENT)))
           (u16 "auth") (ErrnoException ENOENT)).
  - repeat split; reflexivity.
  - reflexivity.
Defined.

Lemma find_first_equal (term : list N) (dirs : list (list N)) :
  In term dirs -> List.find (fun dir => jseq dir term) dirs = Some term.
Proof.
  induction dirs as [|d dirs IH]; intros Hin; [destruct Hin|].
  simpl. unfold jseq at 1.
  destruct (bool_decide_reflect (d = term)) as [->|Hne]; [reflexivity|].
  destruct Hin as [->|Hin]; [congruence|]. apply IH, Hin.
Qed.

(** X16.  A directory of the specs root whose name is the name asked for
    (without its extension) is the result, whatever else the root
    holds: the other directories whose names contain that name do not
    make the resolution ambiguous. *)
Theorem exact_name_wins (pf : Platform) (fs : FileSystem)
    (specName : list N) (entries : list (list N)) :
  bareName pf specName ->
  readdir fs (specsRoot pf) = Ok entries ->
  In (searchTermOf pf specName) (directoriesOf pf fs entries) ->
  truthy (searchTermOf pf specName) = true ->
  truthy (path_join pf (specsRoot pf) (searchTermOf pf specName)) = true ->
  getSpecPath pf fs (Some specName)
  = Ok (path_join pf (specsRoot pf) (searchTermOf pf specName)).
Proof.
  intros Hbare Hdir Hin Hterm Hpath.
  destruct (bareName_strategies pf fs specName Hbare) as [Ha Hr].
  assert (Ht : truthy specName = true) by apply Hbare.
  unfold getSpecPath. rewrite Ht, Ha, Hr. simpl negb. cbv iota.
  fold (searchTermOf pf specName).
  unfold fuzzyMatchSpec, fuzzyMatchBody. rewrite Hdir.
  fold (directoriesOf pf fs entries).
  rewrite (find_first_equal _ _ Hin). simpl truthyOpt. rewrite Hterm.
  simpl. rewrite Hpath. reflexivity.
Qed.

Lemma exact_name_wins_witness :
  getSpecPath repo (disk [u16 "auth-v2"; u16 "auth"; u16 "oauth"])
    (Some (u16 "auth.md"))
  = Ok (u16 "/repo/.usta/specs/auth").
Proof.
  apply (exact_name_wins repo (disk [u16 "auth-v2"; u16 "auth"; u16 "oauth"])
           (u16 "auth.md") [u16 "auth-v2"; u16 "auth"; u16 "oauth"]).
  - repeat split; reflexivity.
  - reflexivity.
  - vm_compute. auto.
  - reflexivity.
  - reflexivity.
Defined.

Lemma find_in_directories (f : list N -> bool) (pf : Platform)
    (fs : FileSystem) (entries : list (list N)) (d : list N) :
  List.find f (directoriesOf pf fs entries) = Some d ->
  In d entries /\
  exists st, stat fs (path_join pf (specsRoot pf) d) = Ok st /\
             isDirectory st = true.
Proof.
  intros H. apply List.find_some in H as [Hin _].
  unfold directoriesOf in Hin. apply List.filter_In in Hin as [Hin Hst].
  split; [exact Hin|].
  destruct (stat fs (path_join pf (specsRoot pf) d)) as [st|e];
    [eauto|discriminate].
Qed.

Lemma fuzzyMatchBody_result (pf : Platform) (fs : FileSystem)
    (term : list N) (entries : list (list N)) (p : list N) :
  readdir fs (specsRoot pf) = Ok entries ->
  fuzzyMatchBody pf fs term (specsRoot pf) = Ok (Some p) ->
  exists d, In d (directoriesOf pf fs entries) /\
            p = path_join pf (specsRoot pf) d.
Proof.
  intros Hdir H. unfold fuzzyMatchBody in H. rewrite Hdir in H.
  fold (directoriesOf pf fs entries) in H.
  set (dirs := directoriesOf pf fs entries) in *.
  assert (Hfuzzy :
    match List.filter
            (fun dir =>
               includes (toLowerCase pf term) (toLowerCase pf dir)
               || includes (toLowerCase pf dir) (toLowerCase pf term)) dirs with
    | [] => Ok None
    | [m] => if truthy m then Ok (Some (path_join pf (specsRoot pf) m))
             else Ok None
    | _ :: _ :: _ =>
        Throw (Error (u16 "Multiple specs found matching '" ++ term ++ u16 "': "
                      ++ join (u16 ", ")
                           (List.filter
                              (fun dir =>
                                 includes (toLowerCase pf term) (toLowerCase pf dir)
                                 || includes (toLowerCase pf dir)
                                      (toLowerCase pf term)) dirs)))
    end = Ok (Some p) ->
    exists d, In d dirs /\ p = path_join pf (specsRoot pf) d).
  { destruct (List.filter _ dirs) as [|m0 [|m1 ms]] eqn:E3; try discriminate.
    destruct (truthy m0); [|discriminate]. intros [= <-].
    exists m0. split; [|reflexivity].
    assert (Hm : In m0 (List.filter
                          (fun dir =>
                             includes (toLowerCase pf term) (toLowerCase pf dir)
                             || includes (toLowerCase pf dir) (toLowerCase pf term))
                          dirs)) by (rewrite E3; left; reflexivity).
    apply List.filter_In in Hm as [Hm _]. exact Hm. }
  assert (Hci :
    (if truthyOpt (List.find
                     (fun dir => jseq (toLowerCase pf dir) (toLowerCase pf term))
                     dirs)
     then Ok (Some (path_join pf (specsRoot pf)
                      (default [] (List.find
                         (fun dir => jseq (toLowerCase pf dir) (toLowerCase pf term))
                         dirs))))
     else
       match List.filter
               (fun dir =>
                  includes (toLowerCase pf term) (toLowerCase pf dir)
                  || includes (toLowerCase pf dir) (toLowerCase pf term)) dirs with
       | [] => Ok None
       | [m] => if truthy m then Ok (Some (path_join pf (specsRoot pf) m))
                else Ok None
       | _ :: _ :: _ =>
           Throw (Error (u16 "Multiple specs found matching '" ++ term ++ u16 "': "
                         ++ join (u16 ", ")
                              (List.filter
                                 (fun dir =>
                                    includes (toLowerCase pf term) (toLowerCase pf dir)
                                    || includes (toLowerCase pf dir)
                                         (toLowerCase pf term)) dirs)))
       end) = Ok (Some p) ->
    exists d, In d dirs /\ p = path_join pf (specsRoot pf) d).
  { destruct (List.find (fun dir => jseq (toLowerCase pf dir) (toLowerCase pf term))
                dirs) as [d2|] eqn:E2; cbn [truthyOpt default];
      [destruct (truthy d2)|]; try exact Hfuzzy.
    intros [= <-]. exists d2. split; [|reflexivity].
    apply List.find_some in E2 as [E2 _]. exact E2. }
  destruct (List.find (fun dir => jseq dir term) dirs) as [d1|] eqn:E1;
    cbn [truthyOpt default] in H; [destruct (truthy d1)|]; try (apply Hci, H).
  injection H as <-. exists d1. split; [|reflexivity].
  apply List.find_some in E1 as [E1 _]. exact E1.
Qed.

(** X17.  What a bare name resolves to, when it resolves, is an entry of
    the specs root that [stat] reports as a directory, joined to the
    root: never a file of the root, and never a path outside it. *)
Theorem resolved_name_is_a_directory (pf : Platform) (fs : FileSystem)
    (specName p : list N) :
  bareName pf specName ->
  getSpecPath pf fs (Some specName) = Ok p ->
  exists entries d st,
    readdir fs (specsRoot pf) = Ok entries /\ In d entries /\
    stat fs (path_join pf (specsRoot pf) d) = Ok st /\
    isDirectory st = true /\
    p = path_join pf (specsRoot pf) d.
Proof.
  intros Hbare.
  destruct (bareName_strategies pf fs specName Hbare) as [Ha Hr].
  assert (Ht : truthy specName = true) by apply Hbare.
  unfold getSpecPath. rewrite Ht, Ha, Hr. simpl negb. cbv iota.
  fold (searchTermOf pf specName).
  unfold fuzzyMatchSpec.
  destruct (fuzzyMatchBody pf fs (searchTermOf pf specName) (specsRoot pf))
    as [[q|]|[msg|code]] eqn:Hbody; cbn [truthyOpt default];
    try discriminate; [|destruct (jseq code ENOENT); discriminate].
  destruct (truthy q); [|discriminate]. intros [= <-].
  destruct (readdir fs (specsRoot pf)) as [entries|e] eqn:Hdir.
  - destruct (fuzzyMatchBody_result pf fs _ entries q Hdir Hbody) as (d & Hd & ->).
    unfold directoriesOf in Hd. apply List.filter_In in Hd as [Hin Hst].
    destruct (stat fs (path_join pf (specsRoot pf) d)) as [st|e] eqn:Est;
      [|discriminate].
    exists entries, d, st. auto.
  - unfold fuzzyMatchBody in Hbody. rewrite Hdir in Hbody. discriminate Hbody.
Qed.

Lemma resolved_name_is_a_directory_witness :
  exists entries d st,
    readdir (disk [u16 "test-spec"]) (specsRoot repo) = Ok entries /\
    In d entries /\
    stat (disk [u16 "test-spec"]) (path_join repo (specsRoot repo) d) = Ok st /\
    isDirectory st = true /\
    u16 "/repo/.usta/specs/test-spec" = path_join repo (specsRoot repo) d.
Proof.
  apply (resolved_name_is_a_directory repo (disk [u16 "test-spec"])
           (u16 "TEST-SPEC.md")).
  - repeat split; reflexivity.
  - vm_compute. reflexivity.
Defined.

End ResolveMore.

(** ** The progress reporter: what a sequence of calls keeps *)

Section ReporterMore.
Import PRCtx Reporter Calls.

Lemma updateFound_absent (tid : list N) (f : TaskProgress -> TaskProgress)
    (l : list TaskProgress) :
  (forall t, In t l -> taskId t <> tid) -> updateFound tid f l = l.
Proof.
  induction l as [|t l IH]; intros H; simpl; [reflexivity|].
  unfold jseq. rewrite bool_decide_eq_false_2 by (apply H; left; reflexivity).
  rewrite IH; [reflexivity|]. intros x Hx. apply H. right. exact Hx.
Qed.

Lemma updateFound_first (tid : list N) (f : TaskProgress -> TaskProgress)
    (pre : list TaskProgress) (t : TaskProgress) (post : list TaskProgress) :
  (forall x, In x pre -> taskId x <> tid) -> taskId t = tid ->
  updateFound tid f (pre ++ t :: post) = pre ++ f t :: post.
Proof.
  intros Hpre Ht. induction pre as [|x pre IH]; simpl.
  - unfold jseq. rewrite bool_decide_eq_true_2 by exact Ht. reflexivity.
  - unfold jseq at 1.
    rewrite bool_decide_eq_false_2 by (apply Hpre; left; reflexivity).
    rewrite IH; [reflexivity|]. intros y Hy. apply Hpre. right. exact Hy.
Qed.

(** X18.  [updateTaskStatus] changes one entry at most: the first one with
    the id it is given.  With an id that no entry has it changes
    nothing at all (no entry is added, nothing is thrown); an entry that
    repeats the id of an earlier one is never reached. *)
Theorem status_update_changes_one_entry (now : N) (tid : list N)
    (st : Status) (att : option nat) (m : CommentManager) :
  ((forall t, In t (tasks (state m)) -> taskId t <> tid) ->
   updateTaskStatus now tid st att m = m) /\
  (forall pre t post,
     tasks (state m) = pre ++ t :: post ->
     (forall x, In x pre -> taskId x <> tid) -> taskId t = tid ->
     updateTaskStatus now tid st att m
     = mkManager (context m)
         (mkCommentState (specName (state m))
            (pre ++ transition now st att t :: post)
            (overallStatus (state m)) (runStart (state m)) (runEnd (state m)))).
Proof.
  unfold updateTaskStatus, withState. split.
  - intros H. rewrite updateFound_absent by exact H.
    destruct m as [ctx [sn ts os rs re]]. reflexivity.
  - intros pre t post E Hpre Ht. rewrite E.
    rewrite updateFound_first by assumption. reflexivity.
Qed.

Lemma keeps_refl (t : TaskProgress) : keeps t t.
Proof. unfold keeps. auto. Qed.

Lemma keeps_trans (a b c : TaskProgress) : keeps a b -> keeps b c -> keeps a c.
Proof.
  intros (H1 & H2 & H3 & H4) (G1 & G2 & G3 & G4). unfold keeps.
  repeat split; try congruence; auto.
Qed.

Lemma keeps_transition (now : N) (st : Status) (att : option nat)
    (t : TaskProgress) :
  keeps t (transition now st att t).
Proof.
  unfold keeps, transition, orNow.
  destruct st; cbn [taskId title startTime endTime];
    repeat split; try (intros z ->; reflexivity); auto.
Qed.

Lemma updateFound_keeps (tid : list N) (now : N) (st : Status)
    (att : option nat) (l : list TaskProgress) :
  forall i t,
  l !! i = Some t ->
  exists t', updateFound tid (transition now st att) l !! i = Some t' /\
             keeps t t'.
Proof.
  induction l as [|x l IH]; intros i t H; [discriminate H|].
  simpl. destruct (jseq (taskId x) tid).
  - destruct i as [|i]; simpl in H |- *.
    + injection H as ->. eauto using keeps_transition.
    + eauto using keeps_refl.
  - destruct i as [|i]; simpl in H |- *.
    + injection H as ->. eauto using keeps_refl.
    + apply IH, H.
Qed.

Lemma perform_keeps (m : CommentManager) (c : call) :
  context (perform m c) = context m /\
  specName (state (perform m c)) = specName (state m) /\
  runStart (state (perform m c)) = runStart (state m) /\
  (forall e, runEnd (state m) = Some e ->
             runEnd (state (perform m c)) = Some e) /\
  (forall i t, tasks (state m) !! i = Some t ->
     exists t', tasks (state (perform m c)) !! i = Some t' /\ keeps t t').
Proof.
  destruct c as [now tid st att|now o|task]; simpl;
    repeat split; try reflexivity; auto.
  - intros i t H. apply updateFound_keeps, H.
  - intros e H. destruct o; rewrite H; reflexivity.
  - intros i t H. eauto using keeps_refl.
  - intros i t H. exists t. split; [|apply keeps_refl].
    apply lookup_app_l_Some, H.
Qed.

(** X19.  Through any sequence of calls of [updateTaskStatus],
    [setOverallStatus] and [addTask], the manager keeps its context, its
    spec name and the start time of the run; the end time of the run,
    once set, stays as it is; and every entry stays at its index with
    its id and title, its start time once set, and its end time once
    set.  (A task that fails and is completed later keeps the end time
    of the failure.) *)
Theorem times_are_set_once (m : CommentManager) (cs : list call) :
  context (performAll m cs) = context m /\
  specName (state (performAll m cs)) = specName (state m) /\
  runStart (state (performAll m cs)) = runStart (state m) /\
  (forall e, runEnd (state m) = Some e ->
             runEnd (state (performAll m cs)) = Some e) /\
  (forall i t, tasks (state m) !! i = Some t ->
     exists t', tasks (state (performAll m cs)) !! i = Some t' /\ keeps t t').
Proof.
  revert m. induction cs as [|c cs IH]; intros m; simpl.
  - repeat split; eauto using keeps_refl.
  - destruct (perform_keeps m c) as (H1 & H2 & H3 & H4 & H5).
    destruct (IH (perform m c)) as (G1 & G2 & G3 & G4 & G5).
    repeat split; try congruence; auto.
    intros i t Ht. destruct (H5 i t Ht) as (t1 & Ht1 & K1).
    destruct (G5 i t1 Ht1) as (t2 & Ht2 & K2).
    exists t2. split; [exact Ht2|]. eapply keeps_trans; eauto.
Qed.





End ReporterMore.

(** ** The captures and the prompts *)

Lemma includes_spec (p s : list N) :
  includes p s = true <-> exists a b, s = a ++ p ++ b.
Proof.
  split.
  - induction s as [|c s IH]; simpl.
    + rewrite orb_false_r. intros H. apply startsWith_spec in H as [t Ht].
      exists [], t. exact Ht.
    + intros H. apply orb_true_iff in H as [H|H].
      * apply startsWith_spec in H as [t Ht]. exists [], t. exact Ht.
      * destruct (IH H) as (a & b & ->). exists (c :: a), b. reflexivity.
  - intros (a & b & ->). apply includes_app.
Qed.

Lemma includes_trans (p q s : list N) :
  includes p q = true -> includes q s = true -> includes p s = true.
Proof.
  intros Hp Hq. apply includes_spec in Hp as (a & b & ->).
  apply includes_spec in Hq as (a' & b' & ->).
  apply includes_spec. exists (a' ++ a), (b ++ b').
  rewrite <- !app_assoc. reflexivity.
Qed.

Lemma includes_longer (p s d : list N) :
  includes p s = true -> includes p (s ++ d) = true.
Proof.
  intros H. apply includes_spec in H as (a & b & ->).
  apply includes_spec. exists a, (b ++ d). rewrite <- !app_assoc. reflexivity.
Qed.

Lemma includes_after (p a s : list N) :
  includes p s = true -> includes p (a ++ s) = true.
Proof.
  intros H. apply includes_spec in H as (x & y & ->).
  apply includes_spec. exists (a ++ x), y. rewrite <- !app_assoc. reflexivity.
Qed.

Section CaptureProps.
Import Orchestrator.

Lemma output_after_writes (chunks : list (list N)) :
  forall c,
  output (fold_left (fun c d => write d c) chunks c)
  = output c ++ List.concat chunks.
Proof.
  induction chunks as [|d chunks IH]; intros c; simpl.
  - rewrite app_nil_r. reflexivity.
  - rewrite IH. simpl. rewrite <- app_assoc. reflexivity.
Qed.

(** X21.  The capture of a verification run: the check finds the marker
    exactly when the pieces written since [clear], put end to end,
    contain it.  A marker that arrives split over two or more writes is
    found; once found it stays found, whatever is written afterwards;
    and a capture that was just cleared does not have it. *)
Theorem marker_is_found_across_writes (chunks more : list (list N)) :
  containsTestSuccess (captured chunks)
    = includes __TEST_SUCCESS_PHARESE (List.concat chunks) /\
  (containsTestSuccess (captured chunks) = true ->
   containsTestSuccess (captured (chunks ++ more)) = true) /\
  containsTestSuccess (clear (captured chunks)) = false.
Proof.
  unfold containsTestSuccess, captured. rewrite !output_after_writes.
  simpl app. split; [reflexivity|]. split; [|reflexivity].
  rewrite List.concat_app. apply includes_longer.
Qed.

End CaptureProps.

Section SimpleCaptureProps.
Import Captures.

(** X22.  [SimpleOutputCapture]: of the four texts it looks for, the last
    two add nothing, since each of them contains the second.  The check
    succeeds exactly when the buffer holds a check mark or the word
    "passed", in whatever sentence. *)
Theorem simple_capture_looks_for_passed (c : SimpleOutputCapture) :
  containsTestSuccess c
  = includes [0x2713] (buffer c) || includes (u16 "passed") (buffer c).
Proof.
  unfold containsTestSuccess.
  destruct (includes [0x2713] (buffer c)); [reflexivity|]. simpl.
  destruct (includes (u16 "passed") (buffer c)) eqn:Hp; [reflexivity|]. simpl.
  assert (H1 : includes (u16 "Test passed") (buffer c) = false).
  { apply not_true_is_false. intros H.
    rewrite (includes_trans (u16 "passed") (u16 "Test passed") _ eq_refl H) in Hp.
    discriminate Hp. }
  assert (H2 : includes (u16 "All tests passed") (buffer c) = false).
  { apply not_true_is_false. intros H.
    rewrite (includes_trans (u16 "passed") (u16 "All tests passed") _ eq_refl H)
      in Hp.
    discriminate Hp. }
  rewrite H1, H2. reflexivity.
Qed.

End SimpleCaptureProps.

Section PromptProps.
Import Spec Prompts.

(** X23.  The text of the verification prompt contains the success marker
    (it tells the agent what to answer).  So does every output that
    repeats the prompt: a capture into which the prompt was written, at
    any point, passes the check of [containsTestSuccess]. *)
Theorem test_prompt_holds_the_marker (taskTitle specPath isoDate : list N)
    (before after : list (list N)) :
  includes Orchestrator.__TEST_SUCCESS_PHARESE
    (testPrompt taskTitle specPath isoDate) = true /\
  Orchestrator.containsTestSuccess
    (Orchestrator.captured
       (before ++ testPrompt taskTitle specPath isoDate :: after)) = true.
Proof.
  assert (H : includes Orchestrator.__TEST_SUCCESS_PHARESE
                (testPrompt taskTitle specPath isoDate) = true).
  { unfold testPrompt. do 6 apply includes_after. apply includes_prefix. }
  split; [exact H|].
  unfold Orchestrator.containsTestSuccess, Orchestrator.captured.
  rewrite output_after_writes, List.concat_app. cbn [List.concat].
  do 2 apply includes_after. apply includes_longer. exact H.
Qed.

End PromptProps.

Section PromptFiles.
Import Spec Prompts.



End PromptFiles.

(** ** The retry loop, whatever the collaborators do *)

Section OrchestratorMore.
Import PRCtx Reporter Orchestrator.

Variables (h : Host) (s : Script) (task : Task).

Create Rewrite HintDb run.
Create Rewrite HintDb obs.

Hint Rewrite @bind_await_ok @bind_await_throw @bind_tell @bind_setStatus
  @bind_setOverall @bind_publish @bind_rollback @bind_commit : run.

Hint Rewrite attempts_logged attempts_published attempts_withStatus
  attempts_withOverall rollbacks_logged rollbacks_published
  rollbacks_withStatus progress_logged progress_published progress_withStatus
  progress_withOverall overall_logged overall_published overall_withStatus
  overall_withOverall app_nil_r : obs.

Ltac steps := repeat (autorewrite with run; cbv beta).

Lemma rollbacks_withOverall (o : Overall) (w : World) :
  rollbacksOf (trace (withOverall s o w)) = rollbacksOf (trace w).
Proof. reflexivity. Qed.

(** An attempt that does not end with the marker seen and the task
    committed ends with a rollback issued, as a failed attempt or with
    the exception of the rollback of the handler. *)
Lemma attempt_not_completed (n : nat) (w : World) :
  ~ (verificationSucceeds s n /\ commitComplete s n = Ok tt) ->
  exists w',
    (tryCatch (attemptBody h s task n) (attemptHandler s n) w = (Done false, w')
     \/ exists e,
          tryCatch (attemptBody h s task n) (attemptHandler s n) w
          = (Raise e, w')) /\
    attemptsOf (trace w') = attemptsOf (trace w) /\
    (rollbacksOf (trace w) < rollbacksOf (trace w'))%nat /\
    overallOf w' = overallOf w /\
    (is_Some (progressOf (id task) w) -> is_Some (progressOf (id task) w')).
Proof.
  intros Hnot.
  unfold tryCatch, attemptBody, attemptHandler. cbv zeta.
  assert (Hend : forall w0 X,
    X = (bind (gitRollback (rollbackAfterError s n)) (fun _ => ret false)) w0 ->
    attemptsOf (trace w0) = attemptsOf (trace w) ->
    (rollbacksOf (trace w) <= rollbacksOf (trace w0))%nat ->
    overallOf w0 = overallOf w ->
    (is_Some (progressOf (id task) w) -> is_Some (progressOf (id task) w0)) ->
    exists w',
      (X = (Done false, w') \/ exists e, X = (Raise e, w')) /\
      attemptsOf (trace w') = attemptsOf (trace w) /\
      (rollbacksOf (trace w) < rollbacksOf (trace w'))%nat /\
      overallOf w' = overallOf w /\
      (is_Some (progressOf (id task) w) -> is_Some (progressOf (id task) w'))).
  { intros w0 X -> Ha Hr Ho Hp. steps.
    destruct (rollbackAfterError s n) as [[]|e];
      (eexists; split; [eauto|]); autorewrite with obs; simpl;
      rewrite ?app_nil_r; repeat split; auto; lia. }
  destruct (preparePrompt s n) as [[]|e1] eqn:E1; steps;
    [|eapply Hend; [steps; reflexivity|..]; auto].
  destruct (runClaudeWork s n) as [[]|e2] eqn:E2; steps;
    [|eapply Hend; [steps; reflexivity|..]; auto].
  destruct (createManualTestPrompt s n) as [[]|e3] eqn:E3; steps;
    [|eapply Hend; [steps; reflexivity|..];
      autorewrite with obs; auto using is_Some_map].
  destruct (snd (runClaudeTest s n)) as [[]|e4] eqn:E4; steps;
    [|eapply Hend; [steps; reflexivity|..];
      autorewrite with obs; auto using is_Some_map].
  destruct (containsTestSuccess (captured (fst (runClaudeTest s n)))) eqn:Em.
  - destruct (commitComplete s n) as [[]|e5] eqn:E5; steps.
    + exfalso. apply Hnot. repeat split; assumption.
    + eapply Hend; [steps; reflexivity|..];
        autorewrite with obs; simpl; rewrite ?app_nil_r;
        auto using is_Some_map. lia.
  - destruct (rollbackAfterTest s n) as [[]|e6] eqn:E6; steps.
    + eexists. split; [left; reflexivity|].
      autorewrite with obs. simpl. rewrite ?app_nil_r.
      repeat split; auto using is_Some_map. lia.
    + eapply Hend; [steps; reflexivity|..];
        autorewrite with obs; simpl; rewrite ?app_nil_r;
        auto using is_Some_map. lia.
Qed.

Lemma attempt_cases (n : nat) :
  (verificationSucceeds s n /\ commitComplete s n = Ok tt) \/
  ~ (verificationSucceeds s n /\ commitComplete s n = Ok tt).
Proof.
  unfold verificationSucceeds, runsThrough.
  destruct (preparePrompt s n) as [[]|]; [|right; intros H; intuition discriminate].
  destruct (runClaudeWork s n) as [[]|]; [|right; intros H; intuition discriminate].
  destruct (createManualTestPrompt s n) as [[]|];
    [|right; intros H; intuition discriminate].
  destruct (snd (runClaudeTest s n)) as [[]|];
    [|right; intros H; intuition discriminate].
  destruct (containsTestSuccess (captured (fst (runClaudeTest s n))));
    [|right; intros H; intuition discriminate].
  destruct (commitComplete s n) as [[]|];
    [left; auto 10|right; intros H; intuition discriminate].
Qed.

(** Where the retry loop can end, from the state in which [tries] is
    [n] and the task is not completed. *)
Lemma retry_from (d : nat) :
  forall n fuel w, (n + d = 3)%nat -> (d < fuel)%nat ->
  exists w',
    ((exists k, (n < k <= 3)%nat /\
        retryLoop fuel h s task n false w = (Done (k, true), w') /\
        verificationSucceeds s k /\ commitComplete s k = Ok tt /\
        (forall j, (n < j < k)%nat ->
           ~ (verificationSucceeds s j /\ commitComplete s j = Ok tt)) /\
        attemptsOf (trace w') = attemptsOf (trace w) ++ seq (S n) (k - n) /\
        (rollbacksOf (trace w) + (k - n - 1) <= rollbacksOf (trace w'))%nat /\
        (is_Some (progressOf (id task) w) ->
         exists tp, progressOf (id task) w' = Some tp /\
                    status tp = completed /\ completedOnAttempt tp = Some k))
     \/ (retryLoop fuel h s task n false w = (Done (3%nat, false), w') /\
         attemptsOf (trace w') = attemptsOf (trace w) ++ seq (S n) (3 - n) /\
         (rollbacksOf (trace w) + (3 - n) <= rollbacksOf (trace w'))%nat /\
         (is_Some (progressOf (id task) w) ->
          is_Some (progressOf (id task) w')))
     \/ (exists e k, (n < k <= 3)%nat /\
         retryLoop fuel h s task n false w = (Raise e, w') /\
         attemptsOf (trace w') = attemptsOf (trace w) ++ seq (S n) (k - n) /\
         (rollbacksOf (trace w) + (k - n) <= rollbacksOf (trace w'))%nat)) /\
    overallOf w' = overallOf w.
Proof.
  induction d as [|d IH]; intros n fuel w Hn Hfuel.
  - assert (n = 3%nat) by lia. subst n.
    destruct fuel as [|fuel]; [lia|].
    exists w. split; [|reflexivity]. right. left.
    simpl. rewrite app_nil_r. repeat split; auto. lia.
  - destruct fuel as [|fuel]; [lia|].
    assert (Hlt : (n <? 3)%nat = true) by (apply Nat.ltb_lt; lia).
    cbn [retryLoop]. rewrite Hlt. cbn [andb negb]. steps.
    set (w1 := published h s
                 (withStatus s (id task) working (Some (S n))
                    (logged (Attempt (S n)) w))).
    assert (A1 : attemptsOf (trace w1) = attemptsOf (trace w) ++ [S n])
      by (unfold w1; autorewrite with obs; reflexivity).
    assert (R1 : rollbacksOf (trace w1) = rollbacksOf (trace w))
      by (unfold w1; autorewrite with obs; simpl; lia).
    assert (O1 : overallOf w1 = overallOf w)
      by (unfold w1; autorewrite with obs; reflexivity).
    destruct (attempt_cases (S n)) as [[Hvs Hc]|Hnot].
    + pose proof (attempt_succeeds h s task (S n) w1 Hvs Hc) as E.
      unfold bind at 1. rewrite E.
      destruct fuel as [|fuel]; [lia|].
      cbn [retryLoop negb]. rewrite andb_false_r. unfold ret.
      eexists. split.
      * left. exists (S n). split; [lia|]. split; [reflexivity|].
        split; [exact Hvs|]. split; [exact Hc|]. split; [intros j Hj; lia|].
        split; [|split].
        -- autorewrite with obs. rewrite A1.
           replace (S n - n)%nat with 1%nat by lia. reflexivity.
        -- autorewrite with obs. cbn [isRollback]. rewrite R1. lia.
        -- intros [tp Hp]. unfold w1. autorewrite with obs. rewrite Hp. simpl.
           eexists. split; [reflexivity|]. split; reflexivity.
      * autorewrite with obs. exact O1.
    + destruct (attempt_not_completed (S n) w1 Hnot)
        as (w2 & Hres & A2 & R2 & O2 & P2).
      assert (P1 : is_Some (progressOf (id task) w) ->
                   is_Some (progressOf (id task) w1)).
      { intros Hs. unfold w1. autorewrite with obs. apply is_Some_map, Hs. }
      destruct Hres as [E|[e E]].
      * assert (Hloop :
          (let! done := tryCatch (attemptBody h s task (S n))
                                 (attemptHandler s (S n)) in
           retryLoop fuel h s task (S n) done) w1
          = retryLoop fuel h s task (S n) false w2)
          by (unfold bind; rewrite E; reflexivity).
        rewrite Hloop.
        destruct (IH (S n) fuel w2 ltac:(lia) ltac:(lia)) as (w3 & Hcase & O3).
        exists w3. split; [|congruence].
        destruct Hcase as [(k & Hk & E3 & Hvs & Hc & Hfirst & A3 & R3 & P3)
                          |[(E3 & A3 & R3 & P3)|(e & k & Hk & E3 & A3 & R3)]].
        -- left. exists k. split; [lia|]. split; [exact E3|].
           split; [exact Hvs|]. split; [exact Hc|].
           split; [|split; [|split]].
           ++ intros j Hj. destruct (Nat.eq_dec j (S n)) as [->|Hne];
                [exact Hnot|apply Hfirst; lia].
           ++ rewrite A3, A2, A1, <- app_assoc.
              replace (k - n)%nat with (S (k - S n)) by lia. reflexivity.
           ++ lia.
           ++ intros Hs. apply P3, P2, P1, Hs.
        -- right. left. split; [exact E3|]. split; [|split].
           ++ rewrite A3, A2, A1, <- app_assoc.
              replace (3 - n)%nat with (S (3 - S n)) by lia. reflexivity.
           ++ lia.
           ++ intros Hs. apply P3, P2, P1, Hs.
        -- right. right. exists e, k. split; [lia|]. split; [exact E3|].
           split.
           ++ rewrite A3, A2, A1, <- app_assoc.
              replace (k - n)%nat with (S (k - S n)) by lia. reflexivity.
           ++ lia.
      * assert (Hloop :
          (let! done := tryCatch (attemptBody h s task (S n))
                                 (attemptHandler s (S n)) in
           retryLoop fuel h s task (S n) done) w1
          = (Raise e, w2))
          by (unfold bind; rewrite E; reflexivity).
        rewrite Hloop.
        exists w2. split; [|congruence].
        right. right. exists e, (S n). split; [lia|]. split; [reflexivity|].
        split.
        -- rewrite A2, A1. replace (S n - n)%nat with 1%nat by lia. reflexivity.
        -- lia.
Qed.

(** X25.  Whatever the collaborators do (agent runs, prompts, git, the
    GitHub API, any of them failing or not), the retry loop of a task
    and what follows it end in one of two ways: normally, or with
    [process.exit(1)].  The attempts made are 1 to [k] for some [k] from
    1 to 3, in this order.  Every attempt that did not complete the
    task issued a [git reset]: there are at least [k - 1] rollbacks
    when the task was completed and at least [k] when it was not. *)
Theorem at_most_three_attempts (fuel : nat) (w : World) :
  (4 <= fuel)%nat ->
  exists (o : outcome unit) (w' : World) (k : nat),
    guarded (attempts fuel h s task) w = (o, w') /\
    (o = Done tt \/ o = Exit 1) /\
    (1 <= k <= 3)%nat /\
    attemptsOf (trace w') = attemptsOf (trace w) ++ seq 1 k /\
    (rollbacksOf (trace w) + (k - (if o is Done _ then 1 else 0))
     <= rollbacksOf (trace w'))%nat.
Proof.
  intros Hfuel.
  destruct (retry_from 3 0 fuel w eq_refl ltac:(lia)) as (w1 & Hcase & _).
  unfold guarded, tryCatch, attempts.
  destruct Hcase as [(k & Hk & E & _ & _ & _ & A & R & _)
                    |[(E & A & R & _)|(e & k & Hk & E & A & R)]];
    unfold bind at 1; rewrite E.
  - exists (Done tt), w1, k. cbn [snd settle negb ret].
    rewrite Nat.sub_0_r in A.
    repeat split; auto; lia.
  - eexists (Exit 1), _, 3%nat. cbn [snd settle negb]. steps. unfold exit.
    split; [reflexivity|]. split; [auto|]. split; [lia|].
    autorewrite with obs. rewrite rollbacks_withOverall.
    autorewrite with obs. split; [exact A|]. simpl in R |- *. lia.
  - eexists (Exit 1), _, k. steps. unfold exit.
    split; [reflexivity|]. split; [auto|]. split; [lia|].
    autorewrite with obs. rewrite Nat.sub_0_r in A.
    split; [exact A|]. simpl. lia.
Qed.

(** X26.  When the retry loop of a task ends normally, the success marker
    was in the captured output of one of the verification runs, the
    attempt [k] at which the loop stopped: that attempt ran through
    without an exception, its commit-and-push did not fail, and no
    earlier attempt did as much.  The attempts made are 1 to [k], and a
    reporter that tracks the task shows it completed on attempt [k]. *)
Theorem completion_requires_the_marker (fuel : nat) (w w' : World) :
  (4 <= fuel)%nat ->
  guarded (attempts fuel h s task) w = (Done tt, w') ->
  exists k : nat,
    (1 <= k <= 3)%nat /\
    containsTestSuccess (captured (fst (runClaudeTest s k))) = true /\
    runsThrough s k /\ commitComplete s k = Ok tt /\
    (forall j, (1 <= j < k)%nat ->
       ~ (verificationSucceeds s j /\ commitComplete s j = Ok tt)) /\
    attemptsOf (trace w') = attemptsOf (trace w) ++ seq 1 k /\
    (is_Some (progressOf (id task) w) ->
     exists tp, progressOf (id task) w' = Some tp /\
                status tp = completed /\ completedOnAttempt tp = Some k).
Proof.
  intros Hfuel.
  destruct (retry_from 3 0 fuel w eq_refl ltac:(lia)) as (w1 & Hcase & _).
  unfold guarded, tryCatch, attempts.
  destruct Hcase as [(k & Hk & E & (Hrun & Hmark) & Hc & Hfirst & A & R & P)
                    |[(E & A & R & _)|(e & k & Hk & E & A & R)]];
    unfold bind at 1; rewrite E.
  - cbn [snd settle negb ret]. intros [= <-].
    exists k. rewrite Nat.sub_0_r in A.
    split; [lia|]. split; [exact Hmark|]. split; [exact Hrun|].
    split; [exact Hc|]. split; [intros j Hj; apply Hfirst; lia|].
    split; [exact A|exact P].
  - cbn [snd settle negb]. steps. unfold exit. discriminate.
  - steps. unfold exit. discriminate.
Qed.

End OrchestratorMore.

Section OrchestratorMoreExamples.
Import PRCtx Reporter Orchestrator.

Lemma at_most_three_attempts_witness :
  exists (o : outcome unit) (w' : World) (k : nat),
    guarded (attempts 4 host0 brokenRollback task1) world0 = (o, w') /\
    (o = Done tt \/ o = Exit 1) /\
    (1 <= k <= 3)%nat /\
    attemptsOf (trace w') = attemptsOf (trace world0) ++ seq 1 k /\
    (rollbacksOf (trace world0) + (k - (if o is Done _ then 1 else 0))
     <= rollbacksOf (trace w'))%nat.
Proof.
  apply (at_most_three_attempts host0 brokenRollback task1 4 world0). lia.
Defined.

Lemma completion_requires_the_marker_witness :
  exists k : nat,
    (1 <= k <= 3)%nat /\
    containsTestSuccess
      (captured (fst (runClaudeTest (quiet (fun n => Nat.eqb n 2)) k))) = true.
Proof.
  destruct (completion_requires_the_marker host0 (quiet (fun n => Nat.eqb n 2))
              task1 4 world0
              (snd (guarded (attempts 4 host0 (quiet (fun n => Nat.eqb n 2)) task1)
                      world0)))
    as (k & Hk & Hm & _).
  - lia.
  - vm_compute. reflexivity.
  - exists k. auto.
Defined.

End OrchestratorMoreExamples.

(** ** The loop over the tasks *)

Section SessionProps.
Import Boxes Doc PRCtx Reporter Orchestrator Session.

Variables (inner : nat) (h : Host) (plan : Plan).

Create Rewrite HintDb run.
Create Rewrite HintDb obs.

Hint Rewrite @bind_await_ok @bind_await_throw @bind_tell @bind_setStatus
  @bind_setOverall @bind_publish @bind_rollback @bind_commit : run.

Hint Rewrite attempts_logged attempts_published attempts_withStatus
  rollbacks_logged rollbacks_published rollbacks_withStatus
  overall_logged overall_published overall_withStatus overall_withOverall
  : obs.

Ltac walk := repeat (autorewrite with run; cbv beta).

(** The body of the loop up to [markTaskAsCompleted] ends normally,
    with [process.exit(1)] or with an exception. *)
Lemma runTask_ends (s : Script) (t : Task) (w : World) :
  (4 <= inner)%nat ->
  exists (o : outcome unit) (w' : World),
    runTask inner h s t w = (o, w') /\
    (o = Done tt \/ o = Exit 1 \/ exists e, o = Raise e).
Proof.
  intros Hin. unfold runTask. walk.
  destruct (commitBefore s) as [[]|e]; [|eauto 7].
  match goal with |- context [attempts _ _ _ _ ?w0] => set (w2 := w0) end.
  destruct (retry_from h s t 3 0 inner w2 eq_refl ltac:(lia))
    as (w3 & Hcase & _).
  unfold attempts.
  destruct Hcase as [(k & _ & E & _)|[(E & _)|(e & k & _ & E & _)]];
    unfold bind at 1; rewrite E.
  - cbn [snd settle negb ret]. eauto 7.
  - cbn [snd settle negb]. walk. unfold exit. eauto 7.
  - eauto 7.
Qed.

(** The same when the first attempt passes and no commit fails. *)
Lemma runTask_green (s : Script) (t : Task) (w : World) :
  (2 <= inner)%nat ->
  commitBefore s = Ok tt ->
  verificationSucceeds s 1 ->
  commitComplete s 1 = Ok tt ->
  exists w' : World,
    runTask inner h s t w = (Done tt, w') /\
    attemptsOf (trace w') = attemptsOf (trace w) ++ [1%nat] /\
    rollbacksOf (trace w') = rollbacksOf (trace w) /\
    overallOf w' = overallOf w.
Proof.
  intros Hin Hb Hvs Hc. unfold runTask. walk. rewrite Hb.
  destruct inner as [|[|fuel]]; [lia|lia|].
  match goal with |- context [attempts _ _ _ _ ?w0] => set (w2 := w0) end.
  pose proof (attempt_succeeds h s t 1
                (published h s
                   (withStatus s (id t) working (Some 1%nat)
                      (logged (Attempt 1) w2))) Hvs Hc) as E.
  pose proof (retry_step h s t (S fuel) 0 w2 _ true ltac:(lia) E) as Hstep.
  unfold attempts, bind. rewrite Hstep.
  cbn [retryLoop Nat.ltb Nat.leb andb negb]. unfold ret.
  cbn [snd settle negb].
  eexists. split; [reflexivity|]. unfold w2.
  autorewrite with obs. cbn [isRollback].
  rewrite !Nat.add_0_r, !app_nil_r. auto.
Qed.

Lemma nothing_next (c : list N) :
  getNextTask c = None -> getIncompleteTasks c = [].
Proof.
  unfold getNextTask, getIncompleteTasks. rewrite find_head_filter.
  destruct (List.filter _ _); [reflexivity|discriminate].
Qed.

(** The lists of tasks before and after the next task is marked. *)
Lemma mark_next_lists (c : list N) (n : nat) (t : Task) :
  validChecklist c = true ->
  boxesAreTasks c = true ->
  getNextTask c = Some t ->
  exists c' : list N,
    markTaskAsCompleted (mkFile c n) (id t) = (Ok tt, mkFile c' (S n)) /\
    getIncompleteTasks c = t :: getIncompleteTasks c' /\
    List.map setCompleted (getAllTasks c')
      = List.map setCompleted (getAllTasks c) /\
    List.map sec_title (parseTasks c') = List.map sec_title (parseTasks c) /\
    validChecklist c' = true /\ boxesAreTasks c' = true.
Proof.
  intros Hv Hb Hnext.
  destruct (mark_next_core c n t Hv Hb Hnext)
    as (c' & before & rest & Hmark & Eall & Hdone & Eall' & Htitles & Hv' & Hb').
  assert (Hopen : Spec.completed t = false).
  { unfold getNextTask in Hnext. apply List.find_some in Hnext as [_ H].
    apply negb_true_iff in H. exact H. }
  destruct (filter_all_completed before Hdone) as [Fopen _].
  exists c'. split; [exact Hmark|].
  split; [|split; [|auto]].
  - unfold getIncompleteTasks. rewrite Eall, Eall', !List.filter_app.
    simpl List.filter. rewrite Hopen, Fopen. reflexivity.
  - rewrite Eall, Eall', !List.map_app. reflexivity.
Qed.

Lemma taskLoop_checks :
  (4 <= inner)%nat -> untouched plan ->
  forall (fuel i : nat) (f : tasksFile) (w : World),
    validChecklist (content f) = true ->
    boxesAreTasks (content f) = true ->
    (length (getIncompleteTasks (content f)) < fuel)%nat ->
    exists (o : outcome unit) (w' : World) (f' : tasksFile) (done : list Task),
      taskLoop fuel inner h plan i (getNextTask (content f)) f w
        = (o, w', f') /\
      (o = Done tt \/ o = Exit 1 \/ exists e, o = Raise e) /\
      getIncompleteTasks (content f)
        = done ++ getIncompleteTasks (content f') /\
      List.map setCompleted (getAllTasks (content f'))
        = List.map setCompleted (getAllTasks (content f)) /\
      List.map sec_title (parseTasks (content f'))
        = List.map sec_title (parseTasks (content f)) /\
      writes f' = (writes f + length done)%nat /\
      (o = Done tt -> getIncompleteTasks (content f') = []).
Proof.
  intros Hin Hun. induction fuel as [|fuel IH]; intros i f w Hv Hb Hlen; [lia|].
  destruct f as [c n]. cbn [content writes] in *. cbn [taskLoop].
  destruct (getNextTask c) as [t|] eqn:Hnext.
  - cbn [content writes]. rewrite Hun.
    destruct (runTask_ends (pass plan i) t w Hin) as (o & w1 & E & Ho).
    rewrite E.
    destruct (mark_next_lists c n t Hv Hb Hnext)
      as (c' & Hmark & Hinc & Hsame & Htitles & Hv' & Hb').
    destruct Ho as [-> | [-> | [e ->]]].
    + rewrite Hmark.
      destruct (IH (S i) (mkFile c' (S n)) w1 Hv' Hb')
        as (o & w' & f' & done & Eloop & Ho & Hd & Hs & Ht & Hw & Hend).
      { cbn [content]. rewrite Hinc in Hlen. simpl in Hlen. lia. }
      cbn [content writes] in *.
      exists o, w', f', (t :: done). rewrite Eloop.
      split; [reflexivity|]. split; [exact Ho|].
      split; [rewrite Hinc, Hd; reflexivity|].
      split; [congruence|]. split; [congruence|].
      split; [simpl; lia|exact Hend].
    + exists (Exit 1), w1, (mkFile c n), []. cbn [content writes length app].
      repeat split; auto; try lia. discriminate.
    + exists (Raise e), w1, (mkFile c n), []. cbn [content writes length app].
      repeat split; eauto; try lia. discriminate.
  - exists (Done tt), w, (mkFile c n), []. cbn [content writes length app].
    repeat split; auto; try lia. intros _. apply nothing_next, Hnext.
Qed.

Lemma taskLoop_green :
  (2 <= inner)%nat -> untouched plan -> allGreen plan ->
  forall (fuel i : nat) (f : tasksFile) (w : World),
    validChecklist (content f) = true ->
    boxesAreTasks (content f) = true ->
    (length (getIncompleteTasks (content f)) < fuel)%nat ->
    exists (w' : World) (f' : tasksFile),
      taskLoop fuel inner h plan i (getNextTask (content f)) f w
        = (Done tt, w', f') /\
      getIncompleteTasks (content f') = [] /\
      List.map setCompleted (getAllTasks (content f'))
        = List.map setCompleted (getAllTasks (content f)) /\
      writes f'
        = (writes f + length (getIncompleteTasks (content f)))%nat /\
      attemptsOf (trace w')
        = attemptsOf (trace w)
          ++ repeat 1%nat (length (getIncompleteTasks (content f))) /\
      rollbacksOf (trace w') = rollbacksOf (trace w) /\
      overallOf w' = overallOf w.
Proof.
  intros Hin Hun Hgreen.
  induction fuel as [|fuel IH]; intros i f w Hv Hb Hlen; [lia|].
  destruct f as [c n]. cbn [content writes] in *. cbn [taskLoop].
  destruct (getNextTask c) as [t|] eqn:Hnext.
  - cbn [content writes]. rewrite Hun.
    destruct (Hgreen i) as (Hcb & Hvs & Hc).
    destruct (runTask_green (pass plan i) t w Hin Hcb Hvs Hc)
      as (w1 & E & A1 & R1 & O1).
    rewrite E.
    destruct (mark_next_lists c n t Hv Hb Hnext)
      as (c' & Hmark & Hinc & Hsame & _ & Hv' & Hb').
    rewrite Hmark.
    destruct (IH (S i) (mkFile c' (S n)) w1 Hv' Hb')
      as (w' & f' & Eloop & Hd & Hs & Hw & A & R & O).
    { cbn [content]. rewrite Hinc in Hlen. simpl in Hlen. lia. }
    cbn [content writes] in *.
    exists w', f'. rewrite Eloop. split; [reflexivity|].
    split; [exact Hd|]. split; [congruence|].
    rewrite Hinc. cbn [length repeat].
    split; [lia|]. split; [|split; congruence].
    rewrite A, A1, <- app_assoc. reflexivity.
  - exists w, (mkFile c n). cbn [content writes].
    rewrite (nothing_next c Hnext). cbn [length repeat].
    rewrite app_nil_r. repeat split; auto.
Qed.

Lemma markLoop_nothing (taskId : list N) (rest : list (list N)) :
  forallb (fun l => negb (bool_decide (is_Some (exec uncheckedRe l)))) rest
    = true ->
  forall i lines, markLoop taskId rest i lines = None.
Proof.
  induction rest as [|l rest IH]; intros H i lines; [reflexivity|].
  cbn [forallb] in H. apply andb_true_iff in H as [Hl Hrest].
  cbn [markLoop]. unfold lineMatches.
  destruct (exec uncheckedRe l) as [m|] eqn:E.
  - exfalso. apply negb_true_iff, bool_decide_eq_false in Hl.
    apply Hl. eauto.
  - destruct (truthy l); apply IH, Hrest.
Qed.

(** X27.  As long as the agent and the git commands leave tasks.md alone,
    whatever else happens, a run over a checklist whose tasks are in
    sections and whose boxes hold a space ends normally or with
    [process.exit(1)], and it has then checked the boxes of the first
    incomplete tasks in the order of the file, one write each: the
    tasks that are left are the last incomplete tasks of the start.
    No task is added, removed or reordered, the section headings are
    the same, and a run that ends normally leaves no incomplete task
    and reports the overall status [completed]. *)
Theorem tasks_are_checked_in_order (fuel : nat) (f : tasksFile) (w : World) :
  (4 <= inner)%nat ->
  untouched plan ->
  validChecklist (content f) = true ->
  boxesAreTasks (content f) = true ->
  (length (getIncompleteTasks (content f)) < fuel)%nat ->
  exists (o : outcome unit) (w' : World) (f' : tasksFile) (done : list Task),
    runTasks fuel inner h plan f w = (o, w', f') /\
    (o = Done tt \/ o = Exit 1) /\
    getIncompleteTasks (content f) = done ++ getIncompleteTasks (content f') /\
    List.map setCompleted (getAllTasks (content f'))
      = List.map setCompleted (getAllTasks (content f)) /\
    List.map sec_title (parseTasks (content f'))
      = List.map sec_title (parseTasks (content f)) /\
    writes f' = (writes f + length done)%nat /\
    (o = Done tt ->
     getIncompleteTasks (content f') = [] /\ overallOf w' = allCompleted).
Proof.
  intros Hin Hun Hv Hb Hlen.
  destruct (taskLoop_checks Hin Hun fuel 0 f w Hv Hb Hlen)
    as (o & w1 & f' & done & Eloop & Ho & Hd & Hs & Ht & Hw & Hend).
  unfold runTasks. rewrite Eloop.
  destruct Ho as [-> | [-> | [e ->]]].
  - walk. rewrite publish_done.
    eexists (Done tt), _, f', done. split; [reflexivity|].
    split; [auto|]. split; [exact Hd|]. split; [exact Hs|].
    split; [exact Ht|]. split; [exact Hw|].
    intros _. split; [auto|]. autorewrite with obs. reflexivity.
  - exists (Exit 1), w1, f', done.
    split; [reflexivity|]. split; [auto|]. split; [exact Hd|].
    split; [exact Hs|]. split; [exact Ht|]. split; [exact Hw|].
    discriminate.
  - unfold caught. walk. unfold exit.
    eexists (Exit 1), _, f', done. split; [reflexivity|].
    split; [auto|]. split; [exact Hd|].
    split; [exact Hs|]. split; [exact Ht|]. split; [exact Hw|].
    discriminate.
Qed.

(** X28.  When every task passes verification on its first attempt, no
    commit fails, and the agent and the git commands leave tasks.md
    alone, the run ends normally: every box is checked, with one write
    of tasks.md and one attempt for each task that was incomplete, no
    rollback, and the overall status [completed]. *)
Theorem green_run_checks_every_box (fuel : nat) (f : tasksFile) (w : World) :
  (2 <= inner)%nat ->
  untouched plan ->
  allGreen plan ->
  validChecklist (content f) = true ->
  boxesAreTasks (content f) = true ->
  (length (getIncompleteTasks (content f)) < fuel)%nat ->
  exists (w' : World) (f' : tasksFile),
    runTasks fuel inner h plan f w = (Done tt, w', f') /\
    getIncompleteTasks (content f') = [] /\
    List.map setCompleted (getAllTasks (content f'))
      = List.map setCompleted (getAllTasks (content f)) /\
    writes f' = (writes f + length (getIncompleteTasks (content f)))%nat /\
    attemptsOf (trace w')
      = attemptsOf (trace w)
        ++ repeat 1%nat (length (getIncompleteTasks (content f))) /\
    rollbacksOf (trace w') = rollbacksOf (trace w) /\
    overallOf w' = allCompleted.
Proof.
  intros Hin Hun Hgreen Hv Hb Hlen.
  destruct (taskLoop_green Hin Hun Hgreen fuel 0 f w Hv Hb Hlen)
    as (w1 & f' & Eloop & Hd & Hs & Hw & A & R & O).
  unfold runTasks. rewrite Eloop. walk. rewrite publish_done.
  eexists _, f'. split; [reflexivity|].
  split; [exact Hd|]. split; [exact Hs|]. split; [exact Hw|].
  autorewrite with obs. rewrite rollbacks_withOverall.
  split; [|split; [exact R|reflexivity]].
  rewrite <- A. reflexivity.
Qed.

(** X29.  When the agent leaves no unchecked box in tasks.md (it checked
    them itself), the task that has just passed verification cannot be
    marked: [markTaskAsCompleted] throws, the run reports the failure
    with [core.setFailed] and ends with [process.exit(1)], tasks.md is
    not written, and the overall status of the reporter is left as it
    was. *)
Theorem nothing_left_to_check_fails_the_run (fuel : nat) (f : tasksFile)
    (w : World) (t : Task) :
  (2 <= inner)%nat ->
  (0 < fuel)%nat ->
  allGreen plan ->
  getNextTask (content f) = Some t ->
  noUncheckedBox (leaves plan 0 (content f)) = true ->
  exists w' : World,
    runTasks fuel inner h plan f w
      = (Exit 1, w', mkFile (leaves plan 0 (content f)) (writes f)) /\
    last (trace w')
      = Some (SetFailed
                (Error (u16 "Task with ID '" ++ id t
                        ++ u16 "' not found or already completed"))) /\
    attemptsOf (trace w') = attemptsOf (trace w) ++ [1%nat] /\
    overallOf w' = overallOf w.
Proof.
  intros Hin Hfuel Hgreen Hnext Hnone.
  destruct fuel as [|fuel]; [lia|].
  unfold runTasks. rewrite Hnext. cbn [taskLoop].
  destruct (Hgreen 0%nat) as (Hcb & Hvs & Hc).
  destruct (runTask_green (pass plan 0) t w Hin Hcb Hvs Hc)
    as (w1 & E & A1 & R1 & O1).
  rewrite E. unfold markTaskAsCompleted. cbn [content writes].
  rewrite (markLoop_nothing (id t) _ Hnone).
  unfold caught. walk. unfold exit.
  eexists. split; [reflexivity|].
  split; [apply last_snoc|].
  autorewrite with obs. rewrite app_nil_r. split; [exact A1|exact O1].
Qed.

End SessionProps.

Section SessionExamples.
Import Spec Boxes Doc PRCtx Reporter Orchestrator Session.

Lemma greenPlan_allGreen : allGreen greenPlan.
Proof.
  intros i. split; [reflexivity|]. split; [|reflexivity].
  split; [repeat split|vm_compute; reflexivity].
Qed.

Lemma eagerPlan_allGreen : allGreen eagerPlan.
Proof.
  intros i. split; [reflexivity|]. split; [|reflexivity].
  split; [repeat split|vm_compute; reflexivity].
Qed.

Lemma sample_pending :
  length (getIncompleteTasks SAMPLE_TASKS_CONTENT) = 4%nat.
Proof. vm_compute. reflexivity. Qed.

Lemma tasks_are_checked_in_order_witness :
  exists (o : outcome unit) (w' : World) (f' : tasksFile) (done : list Task),
    runTasks 5 4 host0 secondTryPlan (mkFile SAMPLE_TASKS_CONTENT 0) world0
      = (o, w', f') /\
    (o = Done tt \/ o = Exit 1) /\
    getIncompleteTasks SAMPLE_TASKS_CONTENT
      = done ++ getIncompleteTasks (content f') /\
    writes f' = (0 + length done)%nat.
Proof.
  destruct (tasks_are_checked_in_order 4 host0 secondTryPlan 5
              (mkFile SAMPLE_TASKS_CONTENT 0) world0)
    as (o & w' & f' & done & E & Ho & Hd & _ & _ & Hw & _).
  - lia.
  - intros i c. reflexivity.
  - vm_compute. reflexivity.
  - vm_compute. reflexivity.
  - cbn [content]. rewrite sample_pending. lia.
  - exists o, w', f', done. auto.
Defined.

Lemma green_run_checks_every_box_witness :
  exists (w' : World) (f' : tasksFile),
    runTasks 5 2 host0 greenPlan (mkFile SAMPLE_TASKS_CONTENT 0) world0
      = (Done tt, w', f') /\
    getIncompleteTasks (content f') = [] /\
    writes f' = 4%nat /\
    attemptsOf (trace w') = [1; 1; 1; 1]%nat.
Proof.
  destruct (green_run_checks_every_box 2 host0 greenPlan 5
              (mkFile SAMPLE_TASKS_CONTENT 0) world0)
    as (w' & f' & E & Hd & _ & Hw & A & _).
  - lia.
  - intros i c. reflexivity.
  - exact greenPlan_allGreen.
  - vm_compute. reflexivity.
  - vm_compute. reflexivity.
  - cbn [content]. rewrite sample_pending. lia.
  - cbn [content writes] in Hw, A. rewrite sample_pending in Hw, A.
    exists w', f'. auto.
Defined.

Lemma nothing_left_to_check_fails_the_run_witness :
  exists w' : World,
    runTasks 1 2 host0 eagerPlan (mkFile onePending 0) world0
      = (Exit 1, w', mkFile (u16 "## Plan" ++ newline ++ u16 "- [x] 1. Do X") 0) /\
    attemptsOf (trace w') = [1%nat] /\
    overallOf w' = running.
Proof.
  destruct (nothing_left_to_check_fails_the_run 2 host0 eagerPlan 1
              (mkFile onePending 0) world0 task1)
    as (w' & E & _ & A & O).
  - lia.
  - lia.
  - exact eagerPlan_allGreen.
  - vm_compute. reflexivity.
  - vm_compute. reflexivity.
  - exists w'. split; [exact E|]. split; [exact A|exact O].
Defined.

End SessionExamples.
